(** * The sdrtrunk ZeroMQ audio producer and consumer

    A shallow embedding of [zmq_audio_producer.py] and [zmq_audio_consumer.py].

    Python values are modelled as follows.
    - [str] is a [string] holding the UTF-8 bytes of the text (a code point
      produced by an escape sequence is stored in the same way, lone
      surrogates included, so that equality of texts is equality of strings);
    - [bytes] is a [list byte];
    - [int] is [Z]; a [float] is kept as the literal it was read from, and
      the few floating point operations the consumer performs on it are
      parameters of the development;
    - the documents returned by [json.loads] are the inductive type [json];
      a [dict] is an association list with unique keys in insertion order;
    - exceptions are the enumeration [pyexn]; a fallible operation returns
      [pyexn + A].

    A program is a function from its counter to what it does to the world,
    in order, to the counter it leaves and to the way it ends. What the
    world does to the program is a script: what each receive, send, sleep,
    connection and binding gives or raises. Printing always succeeds. *)

From Stdlib Require Import String Ascii List ZArith NArith Lia Bool DecimalString
  Sorted.
From Stdlib Require DecimalFacts DecimalPos DecimalN.
From Stdlib.Strings Require Import Byte.
Import ListNotations.

Set Warnings "-register-all,-abstract-large-number".

Local Open Scope string_scope.
Local Open Scope list_scope.

(** ** Exceptions *)

Inductive pyexn : Set :=
| JSONDecodeError
| UnicodeDecodeError
| AttributeError
| TypeError
| ValueError
| OverflowError
| OSError
| BinasciiError
| RecursionError
| UnboundLocalError
| ZMQError
| ZmqAgain
| KeyboardInterrupt.

(** [isinstance(e, Exception)]: every class above derives from [Exception]
    but [KeyboardInterrupt], which derives from [BaseException] only. *)
Definition is_Exception (e : pyexn) : bool :=
  match e with
  | KeyboardInterrupt => false
  | _ => true
  end.

Definition is_JSONDecodeError (e : pyexn) : bool :=
  match e with
  | JSONDecodeError => true
  | _ => false
  end.

Definition is_ZmqAgain (e : pyexn) : bool :=
  match e with
  | ZmqAgain => true
  | _ => false
  end.

Definition is_KeyboardInterrupt (e : pyexn) : bool :=
  match e with
  | KeyboardInterrupt => true
  | _ => false
  end.

(** ** Documents *)

Inductive json : Type :=
| JNull
| JBool (b : bool)
| JInt (z : Z)
| JFloat (lit : string)
| JStr (s : string)
| JArr (items : list json)
| JObj (kvs : list (string * json)).

(** ** Text *)

Definition code (c : ascii) : N := N_of_ascii c.

(** The double quote. *)
Definition dquote : ascii := Eval cbv in ascii_of_N 34.

(** Texts with double quotes are written with apostrophes in the examples
    below, and [dq] puts the double quotes back. *)
Fixpoint dq (s : string) : string :=
  match s with
  | String c r => String (if Ascii.eqb c "'" then dquote else c) (dq r)
  | EmptyString => EmptyString
  end.

Definition is_digit (c : ascii) : bool :=
  ((48 <=? code c) && (code c <=? 57))%N.

Definition is_ws (c : ascii) : bool :=
  match code c with
  | 32%N | 9%N | 10%N | 13%N => true
  | _ => false
  end.

Fixpoint skip_ws (s : string) : string :=
  match s with
  | String c r => if is_ws c then skip_ws r else s
  | EmptyString => s
  end.

(** [s.startswith(p)] and [s.endswith(p)] for a one-character [p]. *)
Definition startswith (s : string) (c : ascii) : bool :=
  match s with
  | String a _ => Ascii.eqb a c
  | EmptyString => false
  end.

Fixpoint endswith (s : string) (c : ascii) : bool :=
  match s with
  | EmptyString => false
  | String a EmptyString => Ascii.eqb a c
  | String _ r => endswith r c
  end.

(** [str(n)] for an [int]. *)
Definition py_str_int (z : Z) : string :=
  NilZero.string_of_int (Z.to_int z).

(** ** [bytes.decode('utf-8')] *)

Definition cont (b : N) : bool := ((0x80 <=? b) && (b <=? 0xBF))%N.
Definition between (lo b hi : N) : bool := ((lo <=? b) && (b <=? hi))%N.

(** Well-formed UTF-8, as the strict decoder accepts it: shortest forms
    only, no surrogates, nothing above U+10FFFF. *)
Fixpoint utf8_valid (l : list N) : bool :=
  match l with
  | [] => true
  | a :: r =>
      if (a <? 0x80)%N then utf8_valid r
      else if between 0xC2 a 0xDF then
        match r with
        | b :: r1 => cont b && utf8_valid r1
        | _ => false
        end
      else if between 0xE0 a 0xEF then
        match r with
        | b :: c :: r2 =>
            (if (a =? 0xE0)%N then between 0xA0 b 0xBF
             else if (a =? 0xED)%N then between 0x80 b 0x9F
             else cont b)
            && cont c && utf8_valid r2
        | _ => false
        end
      else if between 0xF0 a 0xF4 then
        match r with
        | b :: c :: d :: r3 =>
            (if (a =? 0xF0)%N then between 0x90 b 0xBF
             else if (a =? 0xF4)%N then between 0x80 b 0x8F
             else cont b)
            && cont c && cont d && utf8_valid r3
        | _ => false
        end
      else false
  end.

Definition decode_utf8 (bs : list byte) : pyexn + string :=
  if utf8_valid (map Byte.to_N bs)
  then inr (string_of_list_byte bs)
  else inl UnicodeDecodeError.

(** [chr(cp)] in the representation of texts. *)
Definition chr (cp : N) : string :=
  let b (n : N) := ascii_of_N n in
  if (cp <? 0x80)%N then String (b cp) EmptyString
  else if (cp <? 0x800)%N then
    String (b (0xC0 + cp / 64)%N) (String (b (0x80 + cp mod 64)%N) EmptyString)
  else if (cp <? 0x10000)%N then
    String (b (0xE0 + cp / 4096)%N)
      (String (b (0x80 + (cp / 64) mod 64)%N)
         (String (b (0x80 + cp mod 64)%N) EmptyString))
  else
    String (b (0xF0 + cp / 262144)%N)
      (String (b (0x80 + (cp / 4096) mod 64)%N)
         (String (b (0x80 + (cp / 64) mod 64)%N)
            (String (b (0x80 + cp mod 64)%N) EmptyString))).

(** ** [json.loads]

    The decoder of CPython in its default configuration: strings are
    strict, the literals [NaN], [Infinity] and [-Infinity] are numbers, and
    the last value wins for a key that a record repeats. Two limits of the
    interpreter are left out, that on the depth of the nesting
    ([RecursionError]) and that on the number of digits of an integer
    ([ValueError]); both exceptions derive from [Exception], like the one
    of the decoder. *)

Module Json.

(** The outcome of scanning a prefix of the text. [Invalid] is the
    decoder's [JSONDecodeError]; [NoFuel] is an artefact of the recursion
    on [fuel] and never comes out of [loads] (lemma [JsonFacts.loads_fuel]). *)
Inductive scanned (A : Type) : Type :=
| Done (a : A) (rest : string)
| Invalid
| NoFuel.
Arguments Done {A} a rest.
Arguments Invalid {A}.
Arguments NoFuel {A}.

(** What follows the character [c], when the text starts with it. *)
Definition next_is (c : ascii) (s : string) : option string :=
  match s with
  | String a r => if Ascii.eqb a c then Some r else None
  | EmptyString => None
  end.

Definition hex_digit (c : ascii) : option N :=
  let n := code c in
  if between 48 n 57 then Some (n - 48)%N
  else if between 97 n 102 then Some (n - 87)%N
  else if between 65 n 70 then Some (n - 55)%N
  else None.

Definition hex4 (a b c d : ascii) : option N :=
  match hex_digit a, hex_digit b, hex_digit c, hex_digit d with
  | Some x, Some y, Some z, Some w => Some (((x * 16 + y) * 16 + z) * 16 + w)%N
  | _, _, _, _ => None
  end.

Definition high_surrogate (u : N) : bool := between 0xD800 u 0xDBFF.
Definition low_surrogate (u : N) : bool := between 0xDC00 u 0xDFFF.
Definition join_surrogates (u u2 : N) : N :=
  (0x10000 + ((u - 0xD800) * 1024 + (u2 - 0xDC00)))%N.

(** The body of a string, after its opening quote (strict mode: a raw
    control character is refused). An escaped high surrogate followed by
    an escaped low surrogate is one code point. *)
Fixpoint scanstring (s : string) : option (string * string) :=
  match s with
  | EmptyString => None
  | String c r =>
      if Ascii.eqb c dquote then Some (EmptyString, r)
      else if Ascii.eqb c "\" then
        match r with
        | String e r1 =>
            let simple (ch : ascii) :=
              match scanstring r1 with
              | Some (t, k) => Some (String ch t, k)
              | None => None
              end in
            if Ascii.eqb e dquote then simple dquote
            else if Ascii.eqb e "\" then simple "\"%char
            else if Ascii.eqb e "/" then simple "/"%char
            else if Ascii.eqb e "b" then simple (ascii_of_N 8)
            else if Ascii.eqb e "f" then simple (ascii_of_N 12)
            else if Ascii.eqb e "n" then simple (ascii_of_N 10)
            else if Ascii.eqb e "r" then simple (ascii_of_N 13)
            else if Ascii.eqb e "t" then simple (ascii_of_N 9)
            else if Ascii.eqb e "u" then
              match r1 with
              | String h1 (String h2 (String h3 (String h4 r5))) =>
                  match hex4 h1 h2 h3 h4 with
                  | Some u =>
                      let lone :=
                        match scanstring r5 with
                        | Some (t, k) => Some ((chr u ++ t)%string, k)
                        | None => None
                        end in
                      if high_surrogate u then
                        match r5 with
                        | String a1 (String a2 (String a (String b
                            (String c0 (String d r11))))) =>
                            if Ascii.eqb a1 "\" && Ascii.eqb a2 "u" then
                              match hex4 a b c0 d with
                              | Some u2 =>
                                  if low_surrogate u2 then
                                    match scanstring r11 with
                                    | Some (t, k) =>
                                        Some ((chr (join_surrogates u u2)
                                               ++ t)%string, k)
                                    | None => None
                                    end
                                  else lone
                              | None => lone
                              end
                            else lone
                        | _ => lone
                        end
                      else lone
                  | None => None
                  end
              | _ => None
              end
            else None
        | EmptyString => None
        end
      else if (code c <? 32)%N then None
      else
        match scanstring r with
        | Some (t, k) => Some (String c t, k)
        | None => None
        end
  end.

(** The longest prefix of decimal digits and what follows it. *)
Fixpoint span_digits (s : string) : string * string :=
  match s with
  | String c r =>
      if is_digit c
      then let (ds, k) := span_digits r in (String c ds, k)
      else (EmptyString, s)
  | EmptyString => (EmptyString, s)
  end.

Fixpoint digits_value (acc : N) (ds : string) : N :=
  match ds with
  | String c r => digits_value (acc * 10 + (code c - 48))%N r
  | EmptyString => acc
  end.

(** The integer part: [0], or a non-zero digit and more digits. *)
Definition scan_int_part (s : string) : option (string * string) :=
  match s with
  | String c r =>
      if Ascii.eqb c "0" then Some ("0", r)
      else if is_digit c then
        let (ds, k) := span_digits r in Some (String c ds, k)
      else None
  | EmptyString => None
  end.

(** The fraction: a dot and at least one digit. *)
Definition scan_frac (s : string) : string * string :=
  match next_is "." s with
  | Some (String c r) =>
      if is_digit c
      then let (ds, k) := span_digits r in (String "." (String c ds), k)
      else (EmptyString, s)
  | _ => (EmptyString, s)
  end.

(** The exponent: [e] or [E], an optional sign and at least one digit. *)
Definition scan_exp (s : string) : string * string :=
  match s with
  | String e r =>
      if Ascii.eqb e "e" || Ascii.eqb e "E" then
        let (sign, r1) :=
          match r with
          | String g r' =>
              if Ascii.eqb g "-" || Ascii.eqb g "+"
              then (String g EmptyString, r') else (EmptyString, r)
          | EmptyString => (EmptyString, r)
          end in
        match span_digits r1 with
        | (String d ds, k) => (String e (sign ++ String d ds)%string, k)
        | (EmptyString, _) => (EmptyString, s)
        end
      else (EmptyString, s)
  | EmptyString => (EmptyString, s)
  end.

Definition scan_number (s : string) : scanned json :=
  let (neg, s1) :=
    match next_is "-" s with
    | Some r => (true, r)
    | None => (false, s)
    end in
  match scan_int_part s1 with
  | None => Invalid
  | Some (ip, s2) =>
      let (fp, s3) := scan_frac s2 in
      let (ep, s4) := scan_exp s3 in
      match fp, ep with
      | EmptyString, EmptyString =>
          let n := Z.of_N (digits_value 0 ip) in
          Done (JInt (if neg then - n else n)%Z) s4
      | _, _ =>
          Done (JFloat ((if neg then "-" else EmptyString)
                        ++ ip ++ fp ++ ep)%string) s4
      end
  end.

(** [s] minus the prefix [p], when it starts with it. *)
Fixpoint strip (p s : string) : option string :=
  match p, s with
  | EmptyString, _ => Some s
  | String a p', String b s' => if Ascii.eqb a b then strip p' s' else None
  | String _ _, EmptyString => None
  end.

Definition literal (p : string) (v : json) (s : string)
           (otherwise : scanned json) : scanned json :=
  match strip p s with
  | Some r => Done v r
  | None => otherwise
  end.

(** [d[k] = v] on a [dict]: the value is replaced where the key is
    present, and the pair is appended where it is not. *)
Fixpoint dict_set (kvs : list (string * json)) (k : string) (v : json)
  : list (string * json) :=
  match kvs with
  | [] => [(k, v)]
  | (k', v') :: r =>
      if String.eqb k' k then (k', v) :: r else (k', v') :: dict_set r k v
  end.

Fixpoint scan_once (fuel : nat) (s : string) {struct fuel} : scanned json :=
  match fuel with
  | O => NoFuel
  | S fuel' =>
      match s with
      | EmptyString => Invalid
      | String c r =>
          if Ascii.eqb c dquote then
            match scanstring r with
            | Some (t, k) => Done (JStr t) k
            | None => Invalid
            end
          else if Ascii.eqb c "{" then
            match next_is "}" (skip_ws r) with
            | Some k => Done (JObj []) k
            | None => scan_members fuel' [] (skip_ws r)
            end
          else if Ascii.eqb c "[" then
            match next_is "]" (skip_ws r) with
            | Some k => Done (JArr []) k
            | None => scan_items fuel' [] (skip_ws r)
            end
          else if Ascii.eqb c "n" then literal "null" JNull s Invalid
          else if Ascii.eqb c "t" then literal "true" (JBool true) s Invalid
          else if Ascii.eqb c "f" then literal "false" (JBool false) s Invalid
          else if Ascii.eqb c "N" then literal "NaN" (JFloat "NaN") s Invalid
          else if Ascii.eqb c "I" then
            literal "Infinity" (JFloat "Infinity") s Invalid
          else if Ascii.eqb c "-" then
            literal "-Infinity" (JFloat "-Infinity") s (scan_number s)
          else scan_number s
      end
  end

with scan_items (fuel : nat) (acc : list json) (s : string) {struct fuel}
  : scanned json :=
  match fuel with
  | O => NoFuel
  | S fuel' =>
      match scan_once fuel' s with
      | Done v r =>
          match next_is "]" (skip_ws r) with
          | Some k => Done (JArr (rev (v :: acc))) k
          | None =>
              match next_is "," (skip_ws r) with
              | Some k => scan_items fuel' (v :: acc) (skip_ws k)
              | None => Invalid
              end
          end
      | Invalid => Invalid
      | NoFuel => NoFuel
      end
  end

with scan_members (fuel : nat) (acc : list (string * json)) (s : string)
                  {struct fuel} : scanned json :=
  match fuel with
  | O => NoFuel
  | S fuel' =>
      match next_is dquote s with
      | Some r =>
          match scanstring r with
          | Some (key, r1) =>
              match next_is ":" (skip_ws r1) with
              | Some r2 =>
                  match scan_once fuel' (skip_ws r2) with
                  | Done v r3 =>
                      match next_is "}" (skip_ws r3) with
                      | Some k => Done (JObj (dict_set acc key v)) k
                      | None =>
                          match next_is "," (skip_ws r3) with
                          | Some k =>
                              scan_members fuel' (dict_set acc key v)
                                           (skip_ws k)
                          | None => Invalid
                          end
                      end
                  | Invalid => Invalid
                  | NoFuel => NoFuel
                  end
              | None => Invalid
              end
          | None => Invalid
          end
      | None => Invalid
      end
  end.

Definition fuel_for (s : string) : nat := 2 * String.length s + 2.

(** [json.loads(s)]: one value, with white space around it and nothing
    else. *)
Definition loads (s : string) : pyexn + json :=
  match scan_once (fuel_for s) (skip_ws s) with
  | Done v r =>
      match skip_ws r with
      | EmptyString => inr v
      | String _ _ => inl JSONDecodeError
      end
  | Invalid => inl JSONDecodeError
  | NoFuel => inl RecursionError
  end.

End Json.

(** ** Operations on documents *)

(** [d.get(k)] on the pairs of a [dict]. *)
Fixpoint dict_get (kvs : list (string * json)) (k : string) : option json :=
  match kvs with
  | [] => None
  | (k', v) :: r => if String.eqb k' k then Some v else dict_get r k
  end.

(** The pairs of a [dict] without the key [k]. *)
Fixpoint dict_del (kvs : list (string * json)) (k : string)
  : list (string * json) :=
  match kvs with
  | [] => []
  | (k', v) :: r => if String.eqb k' k then r else (k', v) :: dict_del r k
  end.

(** [x.get(k, default)]: only a [dict] has the method. *)
Definition py_get (x : json) (k : string) (default : json) : pyexn + json :=
  match x with
  | JObj kvs =>
      inr (match dict_get kvs k with
           | Some v => v
           | None => default
           end)
  | _ => inl AttributeError
  end.

(** [v != s] for a text [s]. *)
Definition py_ne_str (v : json) (s : string) : bool :=
  match v with
  | JStr t => negb (String.eqb t s)
  | _ => true
  end.

(** A number, as arithmetic sees the document: [True] is 1 and [False]
    is 0. *)
Inductive number : Type :=
| NInt (z : Z)
| NFloat (lit : string).

Definition as_number (v : json) : option number :=
  match v with
  | JInt z => Some (NInt z)
  | JBool b => Some (NInt (if b then 1 else 0))
  | JFloat lit => Some (NFloat lit)
  | _ => None
  end.

(** The errors of the arithmetic and of the system calls the consumer
    performs. *)
Inductive sys_error : Set := EOverflow | EValue | EOS.

Definition raise_sys (e : sys_error) : pyexn :=
  match e with
  | EOverflow => OverflowError
  | EValue => ValueError
  | EOS => OSError
  end.

(** What the consumer takes from the machine it runs on: floating point,
    the local clock and the disk. *)
Record platform : Type := {
  (** [x == 0] for the float read from a literal *)
  float_is_zero : string -> bool;
  (** [int(x)] for the float read from a literal *)
  float_trunc : string -> sys_error + Z;
  (** [datetime.fromtimestamp(x / 1000.0).strftime('%H:%M:%S')] *)
  clock : number -> sys_error + string;
  (** whether [wave.open(filename, 'wb')] and the writes succeed *)
  disk_ok : string -> bool
}.

(** ** The audio texts *)

Definition int_of_byte (b : byte) : Z := Z.of_N (Byte.to_N b).

Fixpoint join (sep : string) (l : list string) : string :=
  match l with
  | [] => EmptyString
  | [x] => x
  | x :: r => (x ++ sep ++ join sep r)%string
  end.

(** [str(l)] for a list of [int]. *)
Definition py_str_list (l : list Z) : string :=
  ("[" ++ join ", " (map py_str_int l) ++ "]")%string.

(** Producer, [create_test_message]: ["audio": str(list(audio_data))]. *)
Definition encode_audio (audio_data : list byte) : string :=
  py_str_list (map int_of_byte audio_data).

(** One item of the argument of [bytes(...)]: an [int] of the range, [bool]
    being a subclass of [int]. *)
Definition byte_of_item (v : json) : pyexn + byte :=
  match v with
  | JInt z =>
      match (if (0 <=? z)%Z then Byte.of_N (Z.to_N z) else None) with
      | Some b => inr b
      | None => inl ValueError
      end
  | JBool b => inr (if b then x01 else x00)
  | _ => inl TypeError
  end.

Fixpoint bytes_of_items (l : list json) : pyexn + list byte :=
  match l with
  | [] => inr []
  | v :: r =>
      match byte_of_item v with
      | inl e => inl e
      | inr b =>
          match bytes_of_items r with
          | inl e => inl e
          | inr bs => inr (b :: bs)
          end
      end
  end.

(** [bytes(v)]. The consumer calls it on what [json.loads] made of a text
    that starts with a bracket, which is a list (lemma
    [JsonFacts.loads_bracket]); the other cases are here for completeness. *)
Definition py_bytes (v : json) : pyexn + list byte :=
  match v with
  | JArr l => bytes_of_items l
  | JInt z => if (z <? 0)%Z then inl ValueError else inr (repeat x00 (Z.to_nat z))
  | JBool b => inr (if b then [x00] else [])
  | JObj [] => inr []
  | _ => inl TypeError
  end.

(** *** base64 *)

Module Base64.

Definition alphabet : string :=
  "ABCDEFGHIJKLMNOPQRSTUVWXYZabcdefghijklmnopqrstuvwxyz0123456789+/".

(** [table_b2a_base64] *)
Definition b2a (n : N) : ascii :=
  match String.get (N.to_nat n) alphabet with
  | Some c => c
  | None => "="%char
  end.

(** [table_a2b_base64], [None] for a character outside the alphabet. *)
Definition a2b (c : ascii) : option N :=
  let n := code c in
  if between 65 n 90 then Some (n - 65)%N
  else if between 97 n 122 then Some (n - 71)%N
  else if between 48 n 57 then Some (n + 4)%N
  else if (n =? 43)%N then Some 62%N
  else if (n =? 47)%N then Some 63%N
  else None.

(** A value stored into an [unsigned char]. *)
Definition uchar (n : N) : byte :=
  match Byte.of_N (n mod 256) with
  | Some b => b
  | None => x00
  end.

(** [binascii.b2a_base64(bs, newline=False)] *)
Fixpoint b2a_base64 (bs : list byte) : string :=
  let n := Byte.to_N in
  match bs with
  | [] => EmptyString
  | [a] =>
      String (b2a (N.shiftr (n a) 2))
        (String (b2a (N.shiftl (N.land (n a) 3) 4)) "==")
  | [a; b] =>
      String (b2a (N.shiftr (n a) 2))
        (String (b2a (N.lor (N.shiftl (N.land (n a) 3) 4) (N.shiftr (n b) 4)))
           (String (b2a (N.shiftl (N.land (n b) 15) 2)) "="))
  | a :: b :: c :: r =>
      String (b2a (N.shiftr (n a) 2))
        (String (b2a (N.lor (N.shiftl (N.land (n a) 3) 4) (N.shiftr (n b) 4)))
           (String (b2a (N.lor (N.shiftl (N.land (n b) 15) 2)
                               (N.shiftr (n c) 6)))
              (String (b2a (N.land (n c) 63)) (b2a_base64 r))))
  end.

Definition b64encode (bs : list byte) : string := b2a_base64 bs.

(** [binascii.a2b_base64(s)], not strict: a character outside the
    alphabet is skipped, padding that completes a quad ends the data, and
    data that stops inside a quad is an error. [acc] holds the bytes
    written so far, last first. *)
Fixpoint a2b_loop (s : string) (quad_pos : nat) (leftchar : N) (pads : nat)
                  (acc : list byte) : pyexn + list byte :=
  match s with
  | EmptyString =>
      match quad_pos with
      | O => inr (rev acc)
      | _ => inl BinasciiError
      end
  | String c r =>
      if Ascii.eqb c "=" then
        if (2 <=? quad_pos)%nat then
          if (4 <=? quad_pos + S pads)%nat then inr (rev acc)
          else a2b_loop r quad_pos leftchar (S pads) acc
        else a2b_loop r quad_pos leftchar pads acc
      else
        match a2b c with
        | None => a2b_loop r quad_pos leftchar pads acc
        | Some v =>
            match quad_pos with
            | 0%nat => a2b_loop r 1 v 0 acc
            | 1%nat =>
                a2b_loop r 2 (N.land v 15) 0
                  (uchar (N.lor (N.shiftl leftchar 2) (N.shiftr v 4)) :: acc)
            | 2%nat =>
                a2b_loop r 3 (N.land v 3) 0
                  (uchar (N.lor (N.shiftl leftchar 4) (N.shiftr v 2)) :: acc)
            | _ =>
                a2b_loop r 0 0 0
                  (uchar (N.lor (N.shiftl leftchar 6) v) :: acc)
            end
        end
  end.

Definition a2b_base64 (s : string) : pyexn + list byte :=
  a2b_loop s 0 0 0 [].

Fixpoint isascii (s : string) : bool :=
  match s with
  | String c r => (code c <? 128)%N && isascii r
  | EmptyString => true
  end.

(** [base64.b64decode(s)] for a text [s]. *)
Definition b64decode (s : string) : pyexn + list byte :=
  if isascii s then a2b_base64 s else inl ValueError.

End Base64.

(** ** Programs: effects, exceptions, a counter *)

(** [f"dmr_audio_{audio_counter:04d}_{int(timestamp)}.wav"], kept as the two
    values it is made from; [wavname_text] is the text. *)
Record wavname : Type := { name_counter : Z; name_stamp : Z }.

Fixpoint zeros (n : nat) : string :=
  match n with
  | O => EmptyString
  | S k => String "0" (zeros k)
  end.

Definition zfill (width : nat) (s : string) : string :=
  (zeros (width - String.length s) ++ s)%string.

(** [f"{z:04d}"] *)
Definition fmt_04d (z : Z) : string :=
  if (z <? 0)%Z
  then String "-" (zfill 3 (py_str_int (- z)))
  else zfill 4 (py_str_int z).

Definition wavname_text (f : wavname) : string :=
  ("dmr_audio_" ++ fmt_04d (name_counter f) ++ "_"
   ++ py_str_int (name_stamp f) ++ ".wav")%string.

(** A file written by [create_wave_file]. *)
Record wav : Type := {
  wav_name : wavname;
  wav_nchannels : Z;
  wav_sampwidth : Z;
  wav_framerate : Z;
  wav_frames : list byte
}.

(** The lines the two programs print, each kept as the values that its
    f-string holds: [LHeader hms n] is the heading of a message in the
    consumer, [print(f"\n[{dt.strftime('%H:%M:%S')}] Audio #{n}:")],
    [LFrequency v] is [print(f"  Frequency: {v} Hz")], [LLcn v] is
    [print(f"  LCN: {v}")], and so on; the lines in [L] are those of the
    consumer (and [LError] of both), the lines in [P] those of the
    producer. *)
Inductive line : Type :=
| LListening (endpoint : string)
| LWaiting
| LHeader (hms : string) (audio_counter : Z)
| LProtocol (protocol : json)
| LFrequency (frequency : json)
| LTimeslot (timeslot : json)
| LFrom (from_id from_alias : json)
| LTo (to_id to_alias : json)
| LLcn (lcn : json)
| LSaved (filename : wavname) (nbytes : nat)
| LAudioError (e : pyexn)
| LRaw (metadata : json)
| LParseError (e : pyexn)
| LProcessError (e : pyexn)
| LShutdown
| LNoMessages
| LError (e : pyexn)
| PStarted (endpoint : string)
| PPublishing
| PPressCtrlC
| PVerbose (message_count : Z) (message : json)
| PSent (message_count : Z)
| PStopping (message_count : Z)
| PStopped.

(** What a program does to the world, in the order it does it. *)
Inductive effect : Type :=
| Print (l : line)
| WriteWav (w : wav)
| NewContext
| NewSocket
| Connect (endpoint : string)
| Bind (endpoint : string)
| Subscribe
| Send (message : json)
| Close
| Term.

(** How a computation ends. [Blocked]: it waits in a blocking call and the
    script of what the world does has no more to say. *)
Inductive result (A : Type) : Type :=
| Returned (a : A)
| Raised (e : pyexn)
| Blocked.
Arguments Returned {A} a.
Arguments Raised {A} e.
Arguments Blocked {A}.

Record outcome (A : Type) : Type := Outcome {
  trace : list effect;
  ctr : Z;
  res : result A
}.
Arguments Outcome {A} trace ctr res.
Arguments trace {A} o.
Arguments ctr {A} o.
Arguments res {A} o.

(** A computation over the one counter of the program ([audio_counter] in
    the consumer, [message_count] in the producer). *)
Definition M (A : Type) : Type := Z -> outcome A.

Definition ret {A : Type} (a : A) : M A := fun c => Outcome [] c (Returned a).
Definition raise {A : Type} (e : pyexn) : M A := fun c => Outcome [] c (Raised e).
Definition block {A : Type} : M A := fun c => Outcome [] c Blocked.

Definition bind {A B : Type} (m : M A) (k : A -> M B) : M B :=
  fun c =>
    let r := m c in
    match res r with
    | Returned a =>
        let r' := k a (ctr r) in
        Outcome (trace r ++ trace r') (ctr r') (res r')
    | Raised e => Outcome (trace r) (ctr r) (Raised e)
    | Blocked => Outcome (trace r) (ctr r) Blocked
    end.

Notation "x <- m ;; k" := (bind m (fun x => k))
  (at level 61, m at next level, right associativity).
Notation "m ;; k" := (bind m (fun _ => k))
  (at level 61, right associativity).

Definition lift {A : Type} (x : pyexn + A) : M A :=
  match x with
  | inl e => raise e
  | inr a => ret a
  end.

Definition lift_sys {A : Type} (x : sys_error + A) : M A :=
  match x with
  | inl e => raise (raise_sys e)
  | inr a => ret a
  end.

Definition perform (e : effect) : M unit := fun c => Outcome [e] c (Returned tt).
Definition print (l : line) : M unit := perform (Print l).
Definition get_counter : M Z := fun c => Outcome [] c (Returned c).
Definition set_counter (n : Z) : M unit := fun _ => Outcome [] n (Returned tt).
Definition incr_counter : M unit := fun c => Outcome [] (c + 1)%Z (Returned tt).

Definition when (b : bool) (m : M unit) : M unit := if b then m else ret tt.

(** [try: m  except ...: handler e], the handler deciding which
    exceptions it takes by raising the others again. *)
Definition try_except {A : Type} (m : M A) (handler : pyexn -> M A) : M A :=
  fun c =>
    let r := m c in
    match res r with
    | Raised e =>
        let r' := handler e (ctr r) in
        Outcome (trace r ++ trace r') (ctr r') (res r')
    | _ => r
    end.

(** [try: m  finally: final]; nothing is finalised while [m] is blocked. *)
Definition try_finally {A : Type} (m : M A) (final : M unit) : M A :=
  fun c =>
    let r := m c in
    match res r with
    | Blocked => r
    | _ =>
        let r' := final (ctr r) in
        Outcome (trace r ++ trace r') (ctr r')
                match res r' with
                | Returned _ => res r
                | Raised e => Raised e
                | Blocked => Blocked
                end
    end.

(** How a call into the world ends: it does what it is for, or it raises an
    exception, that of an interrupt or another. *)
Inductive call : Type :=
| Ok
| Raises (e : pyexn).

Definition do_call (c : call) (e : effect) : M unit :=
  match c with
  | Ok => perform e
  | Raises x => raise x
  end.

Definition sleep (c : call) : M unit :=
  match c with
  | Ok => ret tt
  | Raises x => raise x
  end.

(** ** The consumer *)

Module Consumer.

Record args : Type := {
  endpoint : string;
  save_audio : bool;
  verbose : bool
}.

Section Machine.

Variable P : platform.

(** [bool(v)] *)
Definition truthy (v : json) : bool :=
  match v with
  | JNull => false
  | JBool b => b
  | JInt z => negb (z =? 0)%Z
  | JFloat lit => negb (float_is_zero P lit)
  | JStr s => negb (String.eqb s EmptyString)
  | JArr l => match l with [] => false | _ => true end
  | JObj kvs => match kvs with [] => false | _ => true end
  end.

(** [v != 0] *)
Definition py_ne_zero (v : json) : bool :=
  match v with
  | JInt z => negb (z =? 0)%Z
  | JBool b => b
  | JFloat lit => negb (float_is_zero P lit)
  | _ => true
  end.

(** [int(x)] for a number *)
Definition py_int (x : number) : pyexn + Z :=
  match x with
  | NInt z => inr z
  | NFloat lit =>
      match float_trunc P lit with
      | inl e => inl (raise_sys e)
      | inr z => inr z
      end
  end.

(** [datetime.fromtimestamp(timestamp / 1000.0)], with the
    [strftime('%H:%M:%S')] of line 65. The second component is the
    timestamp as a number, which line 114 converts with [int]. *)
Definition fromtimestamp (timestamp : json) : M (string * number) :=
  match as_number timestamp with
  | None => raise TypeError
  | Some x => hms <- lift_sys (clock P x);; ret (hms, x)
  end.

Definition create_wave_file (audio_data : list byte) (sample_rate : Z)
                            (filename : wavname) : M unit :=
  if disk_ok P (wavname_text filename)
  then perform (WriteWav {| wav_name := filename;
                            wav_nchannels := 1;
                            wav_sampwidth := 2;
                            wav_framerate := sample_rate;
                            wav_frames := audio_data |})
  else raise OSError.

(** Lines 105-110: the bytes of the audio field. *)
Definition decode_audio (audio_b64 : json) : pyexn + list byte :=
  match audio_b64 with
  | JStr s =>
      if startswith s "[" && endswith s "]" then
        match Json.loads s with
        | inl e => inl e
        | inr byte_values => py_bytes byte_values
        end
      else Base64.b64decode s
  | _ => inl AttributeError
  end.

(** Lines 102-119: the inner [try]. *)
Definition save_block (stamp : number) (audio_b64 : json) : M unit :=
  try_except
    (audio_data <- lift (decode_audio audio_b64);;
     incr_counter;;
     audio_counter <- get_counter;;
     ts <- lift (py_int stamp);;
     let filename := {| name_counter := audio_counter; name_stamp := ts |} in
     create_wave_file audio_data 8000 filename;;
     print (LSaved filename (List.length audio_data)))
    (fun e => if is_Exception e then print (LAudioError e) else raise e).

(** Lines 80-85 and 88-93, which differ in the key and in the label. *)
Definition render_party (label : json -> json -> line) (key : string)
                        (metadata : json) : M unit :=
  info <- lift (py_get metadata key (JObj []));;
  if truthy info then
    id <- lift (py_get info "id" (JStr "Unknown"));;
    alias <- lift (py_get info "alias" (JStr "No alias"));;
    when (py_ne_str id "Unknown") (print (label id alias))
  else ret tt.

Definition render_protocol (metadata : json) : M unit :=
  protocol <- lift (py_get metadata "protocol" (JStr "Unknown"));;
  when (py_ne_str protocol "Unknown") (print (LProtocol protocol)).

Definition render_frequency (metadata : json) : M unit :=
  frequency <- lift (py_get metadata "frequency" (JStr "Unknown"));;
  when (py_ne_str frequency "Unknown" && py_ne_zero frequency)
       (print (LFrequency frequency)).

Definition render_timeslot (metadata : json) : M unit :=
  timeslot <- lift (py_get metadata "timeslot" (JStr "Unknown"));;
  when (py_ne_str timeslot "Unknown") (print (LTimeslot timeslot)).

Definition render_lcn (metadata : json) : M unit :=
  lcn <- lift (py_get metadata "lcn" JNull);;
  match lcn with
  | JNull => ret tt
  | _ => print (LLcn lcn)
  end.

(** Lines 67-98. *)
Definition render_metadata (metadata : json) : M unit :=
  render_protocol metadata;;
  render_frequency metadata;;
  render_timeslot metadata;;
  render_party LFrom "from" metadata;;
  render_party LTo "to" metadata;;
  render_lcn metadata.

(** Lines 56-122, for the document that line 54 has read. *)
Definition process_document (a : args) (message : json) : M unit :=
  timestamp <- lift (py_get message "timestamp" (JInt 0));;
  metadata <- lift (py_get message "metadata" (JObj []));;
  audio_b64 <- lift (py_get message "audio" (JStr EmptyString));;
  dt <- fromtimestamp timestamp;;
  incr_counter;;
  audio_counter <- get_counter;;
  print (LHeader (fst dt) audio_counter);;
  render_metadata metadata;;
  when (truthy audio_b64 && save_audio a) (save_block (snd dt) audio_b64);;
  when (verbose a) (print (LRaw metadata)).

(** Line 54: [json.loads(message_bytes.decode('utf-8'))]. *)
Definition read_document (message_bytes : list byte) : pyexn + json :=
  match decode_utf8 message_bytes with
  | inl e => inl e
  | inr text => Json.loads text
  end.

(** Lines 52-127: one turn of the loop, after the receive. *)
Definition process_message (a : args) (message_bytes : list byte) : M unit :=
  try_except
    (message <- lift (read_document message_bytes);;
     process_document a message)
    (fun e =>
       if is_JSONDecodeError e then print (LParseError e)
       else if is_Exception e then print (LProcessError e)
       else raise e).

(** What the socket has for the consumer, one entry per call of
    [socket.recv]: a message, nothing yet, the operator's interrupt, or
    a failure of the transport. *)
Inductive event : Type :=
| Message (message_bytes : list byte)
| Nothing
| Interrupt
| TransportError.

(** Lines 48-127: [while True], with the receive of line 50,
    [socket.recv(zmq.NOBLOCK if args.verbose else 0)]: without [NOBLOCK]
    the call waits while there is nothing, with it the call raises
    [zmq.Again]. *)
Fixpoint receive_loop (a : args) (evs : list event) {struct evs}
  : M Empty_set :=
  match evs with
  | [] => block
  | Message b :: r => process_message a b;; receive_loop a r
  | Nothing :: r => if verbose a then raise ZmqAgain else receive_loop a r
  | Interrupt :: r => raise KeyboardInterrupt
  | TransportError :: r => raise ZMQError
  end.

(** The world of one run: how [socket.connect] and [socket.setsockopt]
    end, and what the socket then has. *)
Record world : Type := {
  connect : call;
  setsockopt : call;
  events : list event
}.

(** Lines 39-127: what is between [try] and its handlers. *)
Definition session (a : args) (w : world) : M unit :=
  do_call (connect w) (Connect (endpoint a));;
  do_call (setsockopt w) Subscribe;;
  print (LListening (endpoint a));;
  print LWaiting;;
  set_counter 0;;
  never <- receive_loop a (events w);;
  match never : Empty_set with end.

(** Lines 129-134: the handlers. *)
Definition handler (e : pyexn) : M unit :=
  if is_KeyboardInterrupt e then print LShutdown
  else if is_ZmqAgain e then print LNoMessages
  else if is_Exception e then print (LError e)
  else raise e.

(** Lines 35-137. *)
Definition main (a : args) (w : world) : outcome unit :=
  (perform NewContext;;
   perform NewSocket;;
   try_finally (try_except (session a w) handler)
               (perform Close;; perform Term)) 0%Z.

End Machine.

End Consumer.

(** ** The producer *)

Module Producer.

Record args : Type := {
  endpoint : string;
  count : Z;
  verbose : bool
}.

(** What [random], [time.time] and [generate_test_audio] give to one call
    of [create_test_message]. *)
Record draws : Type := {
  audio_data : list byte;
  timeslot : Z;
  frequency : Z;
  from_id : Z;
  from_unit : Z;
  to_id : Z;
  to_name : string;
  lcn : Z;
  now_ms : Z
}.

Definition create_test_message (message_id : Z) (d : draws) : json :=
  JObj [
    ("audio", JStr (encode_audio (audio_data d)));
    ("metadata", JObj [
       ("protocol", JStr "DMR");
       ("timeslot", JInt (timeslot d));
       ("frequency", JInt (frequency d));
       ("from", JObj [("id", JInt (from_id d));
                      ("alias", JStr ("Unit " ++ py_str_int (from_unit d)))]);
       ("to", JObj [("id", JInt (to_id d));
                    ("alias", JStr ("TG " ++ to_name d))]);
       ("lcn", JInt (lcn d))]);
    ("timestamp", JInt (now_ms d))
  ].

(** One turn of the loop, as the world decides it. *)
Record tick : Type := {
  drawn : draws;
  send_string : call;
  slept : call
}.

(** Lines 102-130: [while True]. *)
Fixpoint publish_loop (a : args) (ticks : list tick) {struct ticks} : M unit :=
  message_count <- get_counter;;
  if ((count a >? 0) && (message_count >=? count a))%Z then ret tt
  else
    match ticks with
    | [] => block
    | t :: r =>
        let message := create_test_message (message_count + 1) (drawn t) in
        do_call (send_string t) (Send message);;
        incr_counter;;
        message_count <- get_counter;;
        print (if verbose a then PVerbose message_count message
               else PSent message_count);;
        sleep (slept t);;
        publish_loop a r
    end.

Record world : Type := {
  bind_call : call;
  first_sleep : call;
  ticks : list tick
}.

(** Lines 92-130: what is between [try] and its handlers. *)
Definition session (a : args) (w : world) : M unit :=
  do_call (bind_call w) (Bind (endpoint a));;
  print (PStarted (endpoint a));;
  print PPublishing;;
  print PPressCtrlC;;
  sleep (first_sleep w);;
  set_counter 0;;
  publish_loop a (ticks w).

(** [message_count] has no value before line 100 gives it one: until then
    the counter is [unbound], which no count of messages is. *)
Definition unbound : Z := (-1)%Z.

(** Lines 132-135: the handlers. The first one reads [message_count]. *)
Definition handler (e : pyexn) : M unit :=
  if is_KeyboardInterrupt e then
    message_count <- get_counter;;
    if (message_count =? unbound)%Z then raise UnboundLocalError
    else print (PStopping message_count)
  else if is_Exception e then print (LError e)
  else raise e.

(** Lines 87-139. *)
Definition main (a : args) (w : world) : outcome unit :=
  (perform NewContext;;
   perform NewSocket;;
   try_finally (try_except (session a w) handler)
               (perform Close;; perform Term;; print PStopped)) unbound.

End Producer.

(** ** [json.dumps] and [socket.send_string]

    Line 109 of the producer serialises the message with the defaults of
    [json.dumps]: the separators are a comma and a colon, each followed by
    a space, and a text is written in ASCII, everything else being
    escaped. Line 111 sends the UTF-8 of the result. *)

Module Wire.

(** The code points of a text. *)
Fixpoint code_points (s : string) : list N :=
  match s with
  | EmptyString => []
  | String a r =>
      let n := code a in
      if (n <? 0x80)%N then n :: code_points r
      else if (n <? 0xE0)%N then
        match r with
        | String b r1 =>
            ((n - 0xC0) * 64 + (code b - 0x80))%N :: code_points r1
        | _ => n :: code_points r
        end
      else if (n <? 0xF0)%N then
        match r with
        | String b (String c r2) =>
            ((n - 0xE0) * 4096 + (code b - 0x80) * 64 + (code c - 0x80))%N
            :: code_points r2
        | _ => n :: code_points r
        end
      else
        match r with
        | String b (String c (String d r3)) =>
            ((n - 0xF0) * 262144 + (code b - 0x80) * 4096
             + (code c - 0x80) * 64 + (code d - 0x80))%N
            :: code_points r3
        | _ => n :: code_points r
        end
  end.

Definition hex_char (n : N) : ascii :=
  match String.get (N.to_nat n) "0123456789abcdef" with
  | Some c => c
  | None => "0"%char
  end.

(** ['\\u{0:04x}'.format(n)] *)
Definition u_escape (n : N) : string :=
  String "\" (String "u"
    (String (hex_char (n / 4096))
       (String (hex_char ((n / 256) mod 16))
          (String (hex_char ((n / 16) mod 16))
             (String (hex_char (n mod 16)) EmptyString))))).

(** What [py_encode_basestring_ascii] writes for one code point. *)
Definition escape (cp : N) : string :=
  if (cp =? 34)%N then String "\" (String dquote EmptyString)
  else if (cp =? 92)%N then "\\"
  else if (cp =? 10)%N then "\n"
  else if (cp =? 13)%N then "\r"
  else if (cp =? 9)%N then "\t"
  else if (cp =? 12)%N then "\f"
  else if (cp =? 8)%N then "\b"
  else if between 32 cp 126 then String (ascii_of_N cp) EmptyString
  else if (cp <? 0x10000)%N then u_escape cp
  else
    let n := (cp - 0x10000)%N in
    (u_escape (N.lor 0xD800 (N.land (N.shiftr n 10) 0x3FF))
     ++ u_escape (N.lor 0xDC00 (N.land n 0x3FF)))%string.

Fixpoint escapes (cps : list N) : string :=
  match cps with
  | [] => EmptyString
  | cp :: r => (escape cp ++ escapes r)%string
  end.

Definition py_encode_basestring_ascii (s : string) : string :=
  String dquote (escapes (code_points s) ++ String dquote EmptyString).

Section Dumps.

(** [float.__repr__], for the float read from a literal. *)
Variable float_repr : string -> string.

(** [json.dumps(v)] *)
Fixpoint dumps (v : json) : string :=
  match v with
  | JNull => "null"
  | JBool b => if b then "true" else "false"
  | JInt z => py_str_int z
  | JFloat lit => float_repr lit
  | JStr s => py_encode_basestring_ascii s
  | JArr items => ("[" ++ join ", " (map dumps items) ++ "]")%string
  | JObj kvs =>
      ("{" ++ join ", "
                (map (fun kv => py_encode_basestring_ascii (fst kv)
                                ++ ": " ++ dumps (snd kv)) kvs)
           ++ "}")%string
  end.

(** The bytes that [socket.send_string(json.dumps(message))] sends: the
    text is ASCII, and its UTF-8 is the text itself. *)
Definition wire (message : json) : list byte :=
  list_byte_of_string (dumps message).

End Dumps.

(** The messages that a run of the producer has sent. *)
Fixpoint sent (t : list effect) : list json :=
  match t with
  | [] => []
  | Send message :: r => message :: sent r
  | _ :: r => sent r
  end.

End Wire.

(** ** A platform for the examples

    Coordinated universal time for the integer timestamps of the years 1970
    to 9999, no floating point, and a disk that takes every file. The
    theorems below hold on every platform. *)

Definition two_digits (n : Z) : string :=
  ((if n <? 10 then "0" else EmptyString)%Z ++ py_str_int n)%string.

Definition plain_clock (x : number) : sys_error + string :=
  match x with
  | NInt z =>
      if ((0 <=? z) && (z <? 253402300800000))%Z then
        let s := ((z / 1000) mod 86400)%Z in
        inr (two_digits (s / 3600) ++ ":" ++ two_digits ((s / 60) mod 60)
             ++ ":" ++ two_digits (s mod 60))%string
      else inl EValue
  | NFloat _ => inl EValue
  end.

Definition plain : platform := {|
  float_is_zero := fun _ => false;
  float_trunc := fun _ => inl EValue;
  clock := plain_clock;
  disk_ok := fun _ => true
|}.

Definition bytes_of_string (s : string) : list byte := list_byte_of_string s.

Definition saving : Consumer.args :=
  {| Consumer.endpoint := "tcp://localhost:15023";
     Consumer.save_audio := true;
     Consumer.verbose := false |}.

Definition polling : Consumer.args :=
  {| Consumer.endpoint := "tcp://localhost:15023";
     Consumer.save_audio := false;
     Consumer.verbose := true |}.

Definition not_saving : Consumer.args :=
  {| Consumer.endpoint := "tcp://localhost:15023";
     Consumer.save_audio := false;
     Consumer.verbose := false |}.

Definition some_draws : Producer.draws :=
  {| Producer.audio_data := [x00; x01];
     Producer.timeslot := 1;
     Producer.frequency := 462700000;
     Producer.from_id := 12345;
     Producer.from_unit := 7;
     Producer.to_id := 100;
     Producer.to_name := "Fire";
     Producer.lcn := 5;
     Producer.now_ms := 3723000 |}.

Definition one_message : Producer.args :=
  {| Producer.endpoint := "tcp://*:15023";
     Producer.count := 1;
     Producer.verbose := false |}.

Definition some_tick (send slept : call) : Producer.tick :=
  {| Producer.drawn := some_draws;
     Producer.send_string := send;
     Producer.slept := slept |}.

(** * Properties *)

(** ** Examples *)

Example loads_ex1 :
  Json.loads (dq "{'a': [1, 2.5, true, null, 'xA\n'], 'a': -3, 'b': {}}")
  = inr (JObj [("a", JInt (-3)); ("b", JObj [])]).
Proof. vm_compute. reflexivity. Qed.

Example loads_ex2 :
  Json.loads (dq " [1, 2.5e3, true, null, 'x\u0041\n\ud83d\ude00\ud83d', -0, {'k': []}] ")
  = inr (JArr [JInt 1; JFloat "2.5e3"; JBool true; JNull;
               JStr ("xA" ++ String (ascii_of_N 10)
                       (chr 0x1F600 ++ chr 0xD83D))%string;
               JInt 0; JObj [("k", JArr [])]]).
Proof. vm_compute. reflexivity. Qed.

Example loads_ex3 : Json.loads "[1, 2,]" = inl JSONDecodeError.
Proof. vm_compute. reflexivity. Qed.

Example loads_ex4 : Json.loads "[1] x" = inl JSONDecodeError.
Proof. vm_compute. reflexivity. Qed.

Example b64_ex1 :
  Base64.b64encode [x4d; x61; x6e; x4d] = "TWFuTQ=="
  /\ Base64.b64decode "TWFuTQ==" = inr [x4d; x61; x6e; x4d]
  /\ Base64.b64decode "TW Fu*TQ" = inl BinasciiError
  /\ Base64.b64decode "TWFuTQ==TWFu" = inr [x4d; x61; x6e; x4d]
  /\ Base64.b64decode "=TW=Fu" = inr [x4d; x61; x6e].
Proof. vm_compute. repeat split. Qed.

Example encode_audio_ex1 :
  encode_audio [x00; x07; xff; x80] = "[0, 7, 255, 128]"
  /\ encode_audio [] = "[]".
Proof. vm_compute. split; reflexivity. Qed.

Example process_message_ex1 :
  Consumer.process_message plain saving
    (bytes_of_string (dq
       "{'timestamp': 3723000, 'audio': '[1, 2, 255]', 'metadata': {'protocol': 'DMR', 'frequency': 462700000, 'timeslot': 1, 'from': {'id': 12345}, 'to': {'id': 100, 'alias': 'TG Fire'}, 'lcn': 5}}"))
    0%Z
  = Outcome
      [Print (LHeader "01:02:03" 1);
       Print (LProtocol (JStr "DMR"));
       Print (LFrequency (JInt 462700000));
       Print (LTimeslot (JInt 1));
       Print (LFrom (JInt 12345) (JStr "No alias"));
       Print (LTo (JInt 100) (JStr "TG Fire"));
       Print (LLcn (JInt 5));
       WriteWav {| wav_name := {| name_counter := 2; name_stamp := 3723000 |};
                   wav_nchannels := 1; wav_sampwidth := 2;
                   wav_framerate := 8000; wav_frames := [x01; x02; xff] |};
       Print (LSaved {| name_counter := 2; name_stamp := 3723000 |} 3)]
      2%Z (Returned tt).
Proof. vm_compute. reflexivity. Qed.

Example process_document_ex1 :
  Consumer.process_document plain saving
    (Producer.create_test_message 1 some_draws) 0%Z
  = Outcome
      [Print (LHeader "01:02:03" 1);
       Print (LProtocol (JStr "DMR"));
       Print (LFrequency (JInt 462700000));
       Print (LTimeslot (JInt 1));
       Print (LFrom (JInt 12345) (JStr "Unit 7"));
       Print (LTo (JInt 100) (JStr "TG Fire"));
       Print (LLcn (JInt 5));
       WriteWav {| wav_name := {| name_counter := 2; name_stamp := 3723000 |};
                   wav_nchannels := 1; wav_sampwidth := 2;
                   wav_framerate := 8000; wav_frames := [x00; x01] |};
       Print (LSaved {| name_counter := 2; name_stamp := 3723000 |} 2)]
      2%Z (Returned tt).
Proof. vm_compute. reflexivity. Qed.

Example wavname_text_ex1 :
  wavname_text {| name_counter := 2; name_stamp := 3723000 |}
  = "dmr_audio_0002_3723000.wav".
Proof. vm_compute. reflexivity. Qed.

Example process_message_ex2 :
  Consumer.process_message plain saving (bytes_of_string "{oops") 7%Z
  = Outcome [Print (LParseError JSONDecodeError)] 7%Z (Returned tt)
  /\ Consumer.process_message plain saving (bytes_of_string "[1, 2]") 7%Z
    = Outcome [Print (LProcessError AttributeError)] 7%Z (Returned tt)
  /\ Consumer.process_message plain saving [xff] 7%Z
    = Outcome [Print (LProcessError UnicodeDecodeError)] 7%Z (Returned tt)
  /\ Consumer.process_message plain saving
      (bytes_of_string (dq "{'metadata': [1], 'audio': '[256]'}")) 7%Z
    = Outcome [Print (LHeader "00:00:00" 8);
               Print (LProcessError AttributeError)] 8%Z (Returned tt)
  /\ Consumer.process_message plain saving
      (bytes_of_string (dq "{'audio': '[256]'}")) 7%Z
    = Outcome [Print (LHeader "00:00:00" 8);
               Print (LAudioError ValueError)] 8%Z (Returned tt).
Proof. vm_compute. repeat split. Qed.

(** *** The decoder never runs out of fuel *)

Module JsonFacts.
Import Json.

Definition shrinks {A : Type} (s : string) (x : scanned A) : Prop :=
  match x with
  | Done _ r => String.length r < String.length s
  | Invalid => True
  | NoFuel => False
  end.

(** Case analysis on the first test a hypothesis is stuck on. *)
Ltac break_in H :=
  match type of H with
  | context [match ?x with _ => _ end] =>
      lazymatch x with
      | context [match _ with _ => _ end] => fail
      | _ => destruct x eqn:?
      end
  end.

Lemma skip_ws_length (s : string) :
  String.length (skip_ws s) <= String.length s.
Proof.
  induction s as [|c r IH]; simpl; [lia|].
  destruct (is_ws c); simpl; lia.
Qed.

Lemma next_is_length (c : ascii) (s r : string) :
  next_is c s = Some r -> String.length s = S (String.length r).
Proof.
  destruct s as [|a s']; simpl; [discriminate|].
  destruct (Ascii.eqb a c); [|discriminate].
  intros H; inversion H; reflexivity.
Qed.

Lemma scanstring_length (s t k : string) :
  scanstring s = Some (t, k) -> String.length k < String.length s.
Proof.
  revert t k.
  induction s as [s IH] using (well_founded_induction
    (Wf_nat.well_founded_ltof _ String.length)).
  unfold Wf_nat.ltof in IH.
  assert (IH' : forall r n, String.length r + n < String.length s ->
                forall t k, scanstring r = Some (t, k) ->
                String.length k + n < String.length s).
  { intros r n L t k E. apply IH in E; lia. }
  clear IH.
  intros t k H. destruct s as [|c r]; [discriminate|].
  cbn [scanstring] in H. cbv zeta in H.
  repeat (break_in H; try discriminate);
    try (injection H as <- <-);
    subst; cbn [String.length] in *;
    try match goal with
      | E : scanstring ?r = Some (_, ?k) |- String.length ?k < _ =>
          apply (IH' r 0) in E; cbn [String.length]; lia
      end; try lia.
Qed.

Lemma span_digits_length (s ds k : string) :
  span_digits s = (ds, k) ->
  String.length s = String.length ds + String.length k.
Proof.
  revert ds k. induction s as [|c r IH]; simpl; intros ds k H.
  - inversion H; reflexivity.
  - destruct (is_digit c).
    + destruct (span_digits r) as [ds' k'] eqn:E. inversion H; subst.
      specialize (IH _ _ eq_refl). simpl; lia.
    + inversion H; subst. reflexivity.
Qed.

Lemma scan_int_part_length (s ip k : string) :
  scan_int_part s = Some (ip, k) ->
  String.length k < String.length s.
Proof.
  destruct s as [|c r]; simpl; [discriminate|].
  destruct (Ascii.eqb c "0").
  - intros H; inversion H; subst; simpl; lia.
  - destruct (is_digit c); [|discriminate].
    destruct (span_digits r) as [ds k'] eqn:E. intros H; inversion H; subst.
    apply span_digits_length in E. simpl; lia.
Qed.

Lemma scan_frac_length (s fp k : string) :
  scan_frac s = (fp, k) -> String.length k <= String.length s.
Proof.
  unfold scan_frac. intros H.
  destruct (next_is "." s) as [[|c r]|] eqn:E;
    try (inversion H; subst; lia).
  apply next_is_length in E.
  destruct (is_digit c); [|inversion H; subst; lia].
  destruct (span_digits r) as [ds k'] eqn:E'.
  apply span_digits_length in E'. inversion H; subst.
  simpl in *; lia.
Qed.

Lemma scan_exp_length (s ep k : string) :
  scan_exp s = (ep, k) -> String.length k <= String.length s.
Proof.
  unfold scan_exp. intros H.
  repeat (break_in H; try discriminate);
    repeat match goal with
      | E : (_, _) = (_, _) |- _ => inversion E; subst; clear E
      end;
    try match goal with
      | E : span_digits _ = _ |- _ => apply span_digits_length in E
      end; simpl in *; lia.
Qed.

Lemma scan_number_shrinks (s : string) : shrinks s (scan_number s).
Proof.
  unfold scan_number.
  destruct (match next_is "-" s with
            | Some r => (true, r)
            | None => (false, s)
            end) as [neg s1] eqn:E0.
  assert (L : String.length s1 <= String.length s).
  { destruct (next_is "-" s) as [r|] eqn:E; inversion E0; subst; [|lia].
    apply next_is_length in E. lia. }
  destruct (scan_int_part s1) as [[ip s2]|] eqn:E1; [|exact I].
  apply scan_int_part_length in E1.
  destruct (scan_frac s2) as [fp s3] eqn:E2. apply scan_frac_length in E2.
  destruct (scan_exp s3) as [ep s4] eqn:E3. apply scan_exp_length in E3.
  destruct fp, ep; simpl; lia.
Qed.

Lemma strip_length (p s r : string) :
  strip p s = Some r -> String.length s = String.length p + String.length r.
Proof.
  revert s r. induction p as [|a p IH]; simpl; intros s r H.
  - inversion H; reflexivity.
  - destruct s as [|b s']; [discriminate|].
    destruct (Ascii.eqb a b); [|discriminate].
    apply IH in H. simpl; lia.
Qed.

Lemma literal_shrinks (p : string) (v : json) (s : string) (o : scanned json) :
  0 < String.length p -> shrinks s o -> shrinks s (literal p v s o).
Proof.
  unfold literal. intros Hp Ho.
  destruct (strip p s) as [r|] eqn:E; [|exact Ho].
  apply strip_length in E. simpl; lia.
Qed.

(** With twice the length of the text as fuel, the three scanners answer,
    and what they leave is shorter than what they were given. *)
Lemma scan_fuel (fuel : nat) :
  (forall s, 2 * String.length s < fuel -> shrinks s (scan_once fuel s))
  /\ (forall acc s, 2 * String.length s + 1 < fuel ->
       shrinks s (scan_items fuel acc s))
  /\ (forall acc s, 2 * String.length s + 1 < fuel ->
       shrinks s (scan_members fuel acc s)).
Proof.
  induction fuel as [|fuel (IHo & IHi & IHm)];
    [repeat split; intros; lia|].
  split; [|split].
  - intros s L. cbn [scan_once].
    destruct s as [|c r]; [exact I|]. cbn [String.length] in L.
    pose proof (skip_ws_length r) as Lr.
    pose proof (scan_number_shrinks (String c r)) as Hn.
    repeat match goal with
           | |- shrinks _ (if ?b then _ else _) => destruct b
           end;
      try (apply literal_shrinks; simpl; auto; lia).
    + destruct (scanstring r) as [[t k]|] eqn:E; [|exact I].
      apply scanstring_length in E. simpl; lia.
    + destruct (next_is "}" (skip_ws r)) as [k|] eqn:E.
      * apply next_is_length in E. simpl; lia.
      * specialize (IHm [] (skip_ws r)).
        destruct (scan_members fuel [] (skip_ws r)); simpl in *; lia.
    + destruct (next_is "]" (skip_ws r)) as [k|] eqn:E.
      * apply next_is_length in E. simpl; lia.
      * specialize (IHi [] (skip_ws r)).
        destruct (scan_items fuel [] (skip_ws r)); simpl in *; lia.
    + exact Hn.
  - intros acc s L. cbn [scan_items].
    specialize (IHo s).
    destruct (scan_once fuel s) as [v r| |]; simpl in IHo; [|exact I|lia].
    pose proof (skip_ws_length r) as Lr.
    destruct (next_is "]" (skip_ws r)) as [k|] eqn:E.
    { apply next_is_length in E. simpl; lia. }
    destruct (next_is "," (skip_ws r)) as [k|] eqn:E'; [|exact I].
    apply next_is_length in E'.
    pose proof (skip_ws_length k) as Lk.
    specialize (IHi (v :: acc) (skip_ws k)).
    destruct (scan_items fuel (v :: acc) (skip_ws k)); simpl in *; lia.
  - intros acc s L. cbn [scan_members].
    destruct (next_is dquote s) as [r|] eqn:E0; [|exact I].
    apply next_is_length in E0.
    destruct (scanstring r) as [[key r1]|] eqn:E1; [|exact I].
    apply scanstring_length in E1.
    pose proof (skip_ws_length r1) as L1.
    destruct (next_is ":" (skip_ws r1)) as [r2|] eqn:E2; [|exact I].
    apply next_is_length in E2.
    pose proof (skip_ws_length r2) as L2.
    specialize (IHo (skip_ws r2)).
    destruct (scan_once fuel (skip_ws r2)) as [v r3| |];
      simpl in IHo; [|exact I|lia].
    pose proof (skip_ws_length r3) as L3.
    destruct (next_is "}" (skip_ws r3)) as [k|] eqn:E.
    { apply next_is_length in E. simpl; lia. }
    destruct (next_is "," (skip_ws r3)) as [k|] eqn:E'; [|exact I].
    apply next_is_length in E'.
    pose proof (skip_ws_length k) as Lk.
    specialize (IHm (dict_set acc key v) (skip_ws k)).
    destruct (scan_members fuel (dict_set acc key v) (skip_ws k));
      simpl in *; lia.
Qed.

(** [loads] answers with a document or with [JSONDecodeError]. *)
Lemma loads_fuel (s : string) :
  match loads s with
  | inr _ => True
  | inl e => e = JSONDecodeError
  end.
Proof.
  unfold loads.
  pose proof (proj1 (scan_fuel (fuel_for s)) (skip_ws s)) as H.
  pose proof (skip_ws_length s) as L.
  unfold fuel_for in *.
  destruct (scan_once _ (skip_ws s)) as [v r| |]; simpl in H.
  - destruct (skip_ws r); auto.
  - reflexivity.
  - lia.
Qed.

(** A text that starts with a bracket is an array, when it is a document
    at all. *)
Lemma loads_bracket (s : string) (v : json) :
  startswith s "[" = true -> loads s = inr v -> exists l, v = JArr l.
Proof.
  unfold loads, fuel_for. destruct s as [|c r]; [discriminate|].
  cbn [startswith]. intros Hc.
  apply Ascii.eqb_eq in Hc. subst c.
  replace (skip_ws (String "[" r)) with (String "[" r) by reflexivity.
  replace (2 * String.length (String "[" r) + 2)
    with (S (2 * String.length r + 3)) by (simpl; lia).
  cbn [scan_once].
  replace (Ascii.eqb "[" dquote) with false by reflexivity.
  replace (Ascii.eqb "[" "{") with false by reflexivity.
  replace (Ascii.eqb "[" "[") with true by reflexivity.
  cbv iota.
  assert (Hi : forall fuel acc t w k,
             scan_items fuel acc t = Done w k -> exists l, w = JArr l).
  { induction fuel as [|fuel IH]; intros acc t w k H; [discriminate|].
    cbn [scan_items] in H.
    destruct (scan_once fuel t) as [x r'| |]; try discriminate.
    destruct (next_is "]" (skip_ws r')).
    - inversion H; eauto.
    - destruct (next_is "," (skip_ws r')); [|discriminate]. eauto. }
  destruct (next_is "]" (skip_ws r)) as [k|].
  - destruct (skip_ws k); intros H; inversion H; eauto.
  - destruct (scan_items _ [] (skip_ws r)) as [w k| |] eqn:E;
      try discriminate.
    apply Hi in E. destruct (skip_ws k); intros H; inversion H; subst; auto.
Qed.

End JsonFacts.

(** ** The array form of the audio *)

Module ArrayForm.
Import Json.

Lemma append_assoc (s t u : string) :
  ((s ++ t) ++ u)%string = (s ++ (t ++ u))%string.
Proof. induction s as [|c s IH]; simpl; [reflexivity|now rewrite IH]. Qed.

(** What [str] makes of the list [b :: B], after its opening bracket. *)
Fixpoint items_text (b : byte) (B : list byte) : string :=
  (py_str_int (int_of_byte b)
   ++ match B with
      | [] => "]"
      | b' :: B' => String "," (String " " (items_text b' B'))
      end)%string.

Lemma encode_audio_cons (b : byte) (B : list byte) :
  encode_audio (b :: B) = String "[" (items_text b B).
Proof.
  unfold encode_audio, py_str_list.
  change (("[" ++ ?x)%string) with (String "[" x). f_equal.
  revert b. induction B as [|b' B IH]; intros b.
  - reflexivity.
  - change (map int_of_byte (b :: b' :: B))
      with (int_of_byte b :: map int_of_byte (b' :: B)).
    change (map py_str_int (?x :: ?l))
      with (py_str_int x :: map py_str_int l).
    cbn [join items_text].
    destruct (map py_str_int (map int_of_byte (b' :: B))) eqn:E;
      [discriminate|].
    rewrite <- E, !append_assoc, IH. reflexivity.
Qed.

(** The text of a byte is a number, read back up to the comma or the
    bracket that follows it. *)
Lemma scan_byte_comma (fuel : nat) (b : byte) (k : string) :
  0 < fuel ->
  scan_once fuel (py_str_int (int_of_byte b) ++ String "," k)
  = Done (JInt (int_of_byte b)) (String "," k).
Proof. destruct fuel; [lia|]. destruct b; reflexivity. Qed.

Lemma scan_byte_bracket (fuel : nat) (b : byte) (k : string) :
  0 < fuel ->
  scan_once fuel (py_str_int (int_of_byte b) ++ String "]" k)
  = Done (JInt (int_of_byte b)) (String "]" k).
Proof. destruct fuel; [lia|]. destruct b; reflexivity. Qed.

Lemma scan_items_S (fuel : nat) (acc : list json) (s : string) :
  scan_items (S fuel) acc s
  = match scan_once fuel s with
    | Done v r =>
        match next_is "]" (skip_ws r) with
        | Some k => Done (JArr (rev (v :: acc))) k
        | None =>
            match next_is "," (skip_ws r) with
            | Some k => scan_items fuel (v :: acc) (skip_ws k)
            | None => Invalid
            end
        end
    | Invalid => Invalid
    | NoFuel => NoFuel
    end.
Proof. reflexivity. Qed.

Lemma skip_ws_byte (b : byte) (k : string) :
  skip_ws (py_str_int (int_of_byte b) ++ k)
  = (py_str_int (int_of_byte b) ++ k)%string.
Proof. destruct b; reflexivity. Qed.

Lemma next_is_bracket_byte (b : byte) (k : string) :
  next_is "]" (py_str_int (int_of_byte b) ++ k) = None.
Proof. destruct b; reflexivity. Qed.

Lemma append_length (s t : string) :
  String.length (s ++ t)%string = String.length s + String.length t.
Proof. induction s; simpl; lia. Qed.

Lemma items_text_length (B : list byte) (b : byte) :
  List.length B < String.length (items_text b B).
Proof.
  revert b. induction B as [|b' B IH]; intros b; cbn [items_text];
    rewrite append_length; cbn [String.length List.length].
  - lia.
  - specialize (IH b'). lia.
Qed.

Definition item (b : byte) : json := JInt (int_of_byte b).

Lemma scan_items_text (B : list byte) :
  forall (b : byte) (fuel : nat) (acc : list json),
    List.length B + 2 <= fuel ->
    scan_items fuel acc (items_text b B)
    = Done (JArr (rev acc ++ map item (b :: B))) EmptyString.
Proof.
  induction B as [|b' B IH]; intros b fuel acc L;
    (destruct fuel as [|fuel]; [simpl in L; lia|]);
    rewrite scan_items_S; cbn [items_text].
  - rewrite scan_byte_bracket by (simpl in L; lia). reflexivity.
  - rewrite scan_byte_comma by (simpl in L; lia).
    change (skip_ws (String "," ?k)) with (String "," k).
    change (next_is "]" (String "," ?k)) with (@None string).
    change (next_is "," (String "," ?k)) with (Some k).
    cbv iota.
    change (skip_ws (String " " ?k)) with (skip_ws k).
    fold (items_text b' B).
    replace (skip_ws (items_text b' B)) with (items_text b' B)
      by (destruct B; symmetry; apply skip_ws_byte).
    rewrite IH by (simpl in L; lia).
    cbn [rev map]. rewrite <- app_assoc. reflexivity.
Qed.

Lemma loads_encode_audio (B : list byte) :
  loads (encode_audio B) = inr (JArr (map item B)).
Proof.
  destruct B as [|b B]; [reflexivity|].
  rewrite encode_audio_cons. unfold loads, fuel_for.
  change (skip_ws (String "[" ?k)) with (String "[" k).
  cbn [String.length].
  replace (2 * S (String.length (items_text b B)) + 2)
    with (S (2 * String.length (items_text b B) + 3)) by lia.
  cbn [scan_once].
  change (Ascii.eqb "[" dquote) with false.
  change (Ascii.eqb "[" "{") with false.
  change (Ascii.eqb "[" "[") with true.
  cbv iota.
  replace (skip_ws (items_text b B)) with (items_text b B)
    by (destruct B; symmetry; apply skip_ws_byte).
  replace (next_is "]" (items_text b B)) with (@None string)
    by (destruct B; symmetry; apply next_is_bracket_byte).
  pose proof (items_text_length B b) as L.
  rewrite scan_items_text by lia.
  reflexivity.
Qed.

Lemma byte_of_item_byte (b : byte) : byte_of_item (item b) = inr b.
Proof.
  unfold byte_of_item, item, int_of_byte.
  replace (0 <=? Z.of_N (Byte.to_N b))%Z with true
    by (symmetry; apply Z.leb_le; lia).
  rewrite N2Z.id, Byte.of_to_N. reflexivity.
Qed.

Lemma bytes_of_items_bytes (B : list byte) :
  bytes_of_items (map item B) = inr B.
Proof.
  induction B as [|b B IH]; [reflexivity|].
  cbn [map bytes_of_items]. rewrite byte_of_item_byte, IH. reflexivity.
Qed.

Lemma endswith_append (s t : string) (c : ascii) :
  t <> EmptyString -> endswith (s ++ t) c = endswith t c.
Proof.
  intros Ht. induction s as [|a s IH]; [reflexivity|].
  cbn [append endswith]. rewrite IH.
  destruct (s ++ t)%string eqn:E; [|reflexivity].
  destruct s; [simpl in E; contradiction|discriminate].
Qed.

Lemma endswith_items_text (B : list byte) (b : byte) :
  endswith (items_text b B) "]" = true.
Proof.
  revert b. induction B as [|b' B IH]; intros b; cbn [items_text];
    rewrite endswith_append by discriminate.
  - reflexivity.
  - cbn [endswith]. rewrite IH.
    destruct (items_text b' B) eqn:E; [|reflexivity].
    pose proof (items_text_length B b') as L. rewrite E in L.
    simpl in L; lia.
Qed.

Lemma encode_audio_brackets (B : list byte) :
  startswith (encode_audio B) "[" && endswith (encode_audio B) "]" = true.
Proof.
  destruct B as [|b B]; [reflexivity|].
  rewrite encode_audio_cons. cbn [startswith endswith].
  rewrite endswith_items_text.
  destruct (items_text b B) eqn:E; [|reflexivity].
  pose proof (items_text_length B b) as L. rewrite E in L.
  simpl in L; lia.
Qed.

(** The audio that the producer puts into a message is the audio that the
    consumer takes out of it. *)
Lemma producer_audio_decodes (message_id : Z) (d : Producer.draws) :
  py_get (Producer.create_test_message message_id d) "audio" (JStr EmptyString)
  = inr (JStr (encode_audio (Producer.audio_data d)))
  /\ Consumer.decode_audio (JStr (encode_audio (Producer.audio_data d)))
     = inr (Producer.audio_data d).
Proof.
  split; [reflexivity|].
  unfold Consumer.decode_audio.
  rewrite encode_audio_brackets, loads_encode_audio.
  apply bytes_of_items_bytes.
Qed.

End ArrayForm.

(** C1. For every byte sequence [B], of any length and so of the lengths 0
    to 10000, the text [str(list(B))] that the producer puts into the audio
    field starts and ends with a bracket, is read by [json.loads] as the
    list of the values of the bytes, and is decoded by the consumer into
    [B]. *)
Theorem array_round_trip (B : list byte) :
  startswith (encode_audio B) "[" && endswith (encode_audio B) "]" = true
  /\ Json.loads (encode_audio B) = inr (JArr (map ArrayForm.item B))
  /\ py_bytes (JArr (map ArrayForm.item B)) = inr B
  /\ Consumer.decode_audio (JStr (encode_audio B)) = inr B.
Proof.
  pose proof (ArrayForm.encode_audio_brackets B) as Hb.
  pose proof (ArrayForm.loads_encode_audio B) as Hl.
  pose proof (ArrayForm.bytes_of_items_bytes B) as Hi.
  repeat split; auto.
  unfold Consumer.decode_audio. rewrite Hb, Hl. exact Hi.
Qed.

(** ** The base64 form of the audio *)

Module Base64Facts.
Import Base64.

(** Checking a property of all the numbers below a bound. *)
Definition below (k : nat) : list N := map N.of_nat (seq 0 k).

Lemma below_spec (k : nat) (P : N -> bool) :
  forallb P (below k) = true ->
  forall n, (n < N.of_nat k)%N -> P n = true.
Proof.
  intros H n L. rewrite forallb_forall in H. apply H.
  unfold below. rewrite <- (N2Nat.id n). apply in_map, in_seq. lia.
Qed.

Lemma below2_spec (k : nat) (P : N -> N -> bool) :
  forallb (fun n => forallb (P n) (below k)) (below k) = true ->
  forall n m, (n < N.of_nat k)%N -> (m < N.of_nat k)%N -> P n m = true.
Proof.
  intros H n m Ln Lm.
  apply (below_spec k (P n)); [|exact Lm].
  apply (below_spec k (fun n => forallb (P n) (below k)) H n Ln).
Qed.

Lemma to_N_bounded (b : byte) : (Byte.to_N b < 256)%N.
Proof. destruct b; vm_compute; reflexivity. Qed.

Lemma uchar_to_N (b : byte) : uchar (Byte.to_N b) = b.
Proof.
  unfold uchar. rewrite N.mod_small by apply to_N_bounded.
  rewrite Byte.of_to_N. reflexivity.
Qed.

(** A character of the alphabet is not the padding, is not a bracket, is
    ASCII and stands for its index. *)
Definition good_char (n : N) : bool :=
  negb (Ascii.eqb (b2a n) "=")
  && negb (Ascii.eqb (b2a n) "[")
  && (code (b2a n) <? 128)%N
  && match a2b (b2a n) with
     | Some m => (m =? n)%N
     | None => false
     end.

Lemma good_chars (n : N) : (n < 64)%N -> good_char n = true.
Proof. apply (below_spec 64 good_char). vm_compute. reflexivity. Qed.

Lemma b2a_not_pad (n : N) : (n < 64)%N -> Ascii.eqb (b2a n) "=" = false.
Proof.
  intros L. apply good_chars in L. unfold good_char in L.
  destruct (Ascii.eqb (b2a n) "="); [discriminate|reflexivity].
Qed.

Lemma b2a_not_bracket (n : N) : (n < 64)%N -> Ascii.eqb (b2a n) "[" = false.
Proof.
  intros L. apply good_chars in L. unfold good_char in L.
  destruct (Ascii.eqb (b2a n) "["); [|reflexivity].
  rewrite andb_false_r in L. discriminate.
Qed.

Lemma b2a_ascii (n : N) : (n < 64)%N -> (code (b2a n) <? 128)%N = true.
Proof.
  intros L. apply good_chars in L. unfold good_char in L.
  destruct (code (b2a n) <? 128)%N; [reflexivity|].
  rewrite andb_false_r in L. discriminate.
Qed.

Lemma a2b_b2a (n : N) : (n < 64)%N -> a2b (b2a n) = Some n.
Proof.
  intros L. apply good_chars in L. unfold good_char in L.
  destruct (a2b (b2a n)) as [m|]; [|rewrite andb_false_r in L; discriminate].
  apply andb_prop in L. destruct L as [_ L]. apply N.eqb_eq in L.
  now subst.
Qed.

(** The four indices made of three bytes, and the last index made of
    one byte and of two. *)
Definition s0 (a : N) : N := N.shiftr a 2.
Definition s1 (a b : N) : N := N.lor (N.shiftl (N.land a 3) 4) (N.shiftr b 4).
Definition s2 (b c : N) : N := N.lor (N.shiftl (N.land b 15) 2) (N.shiftr c 6).
Definition s3 (c : N) : N := N.land c 63.
Definition t1 (a : N) : N := N.shiftl (N.land a 3) 4.
Definition t2 (b : N) : N := N.shiftl (N.land b 15) 2.

(** What the decoder needs of them, checked on all pairs of bytes. *)
Definition good_pair (a b : N) : bool :=
  ((s0 a <? 64) && (s1 a b <? 64) && (s2 a b <? 64) && (s3 a <? 64)
   && (t1 a <? 64) && (t2 a <? 64)
   && (N.lor (N.shiftl (s0 a) 2) (N.shiftr (s1 a b) 4) =? a)
   && (N.lor (N.shiftl (s0 a) 2) (N.shiftr (t1 a) 4) =? a)
   && (N.land (s1 a b) 15 =? N.shiftr b 4)
   && (N.lor (N.shiftl (N.shiftr a 4) 4) (N.shiftr (s2 a b) 2) =? a)
   && (N.lor (N.shiftl (N.shiftr a 4) 4) (N.shiftr (t2 a) 2) =? a)
   && (N.lor (N.shiftl (N.land (s2 a b) 3) 6) (s3 b) =? b))%N.

Lemma good_pairs (a b : byte) :
  good_pair (Byte.to_N a) (Byte.to_N b) = true.
Proof.
  apply (below2_spec 256 good_pair); try apply to_N_bounded.
  vm_compute. reflexivity.
Qed.

(** The same facts, one by one. *)
Lemma pair_facts (a b : byte) :
  let x := Byte.to_N a in
  let y := Byte.to_N b in
  ((s0 x < 64) /\ (s1 x y < 64) /\ (s2 x y < 64) /\ (s3 x < 64)
   /\ (t1 x < 64) /\ (t2 x < 64))%N
  /\ uchar (N.lor (N.shiftl (s0 x) 2) (N.shiftr (s1 x y) 4)) = a
  /\ uchar (N.lor (N.shiftl (s0 x) 2) (N.shiftr (t1 x) 4)) = a
  /\ N.land (s1 x y) 15 = N.shiftr y 4
  /\ uchar (N.lor (N.shiftl (N.shiftr x 4) 4) (N.shiftr (s2 x y) 2)) = a
  /\ uchar (N.lor (N.shiftl (N.shiftr x 4) 4) (N.shiftr (t2 x) 2)) = a
  /\ uchar (N.lor (N.shiftl (N.land (s2 x y) 3) 6) (s3 y)) = b.
Proof.
  intros x y. pose proof (good_pairs a b) as H. fold x y in H.
  unfold good_pair in H.
  repeat match type of H with
         | (_ && _)%bool = true => apply andb_prop in H; destruct H as [H ?]
         end.
  repeat match goal with
         | E : (_ <? _)%N = true |- _ => apply N.ltb_lt in E
         | E : (_ =? _)%N = true |- _ => apply N.eqb_eq in E
         end.
  repeat split; try assumption;
    match goal with
    | E : ?l = _ |- uchar ?l = _ => rewrite E; apply uchar_to_N
    end.
Qed.

Lemma step_char (n : N) (r : string) (quad_pos : nat) (leftchar : N)
      (pads : nat) (acc : list byte) :
  (n < 64)%N ->
  a2b_loop (String (b2a n) r) quad_pos leftchar pads acc
  = match quad_pos with
    | 0%nat => a2b_loop r 1 n 0 acc
    | 1%nat =>
        a2b_loop r 2 (N.land n 15) 0
          (uchar (N.lor (N.shiftl leftchar 2) (N.shiftr n 4)) :: acc)
    | 2%nat =>
        a2b_loop r 3 (N.land n 3) 0
          (uchar (N.lor (N.shiftl leftchar 4) (N.shiftr n 2)) :: acc)
    | _ =>
        a2b_loop r 0 0 0 (uchar (N.lor (N.shiftl leftchar 6) n) :: acc)
    end.
Proof.
  intros L. cbn [a2b_loop]. rewrite (b2a_not_pad n L), (a2b_b2a n L).
  reflexivity.
Qed.

Lemma pad_ends_quad (r : string) (leftchar : N) (acc : list byte) :
  a2b_loop (String "=" r) 3 leftchar 0 acc = inr (rev acc).
Proof. reflexivity. Qed.

Lemma pads_end_quad (r : string) (leftchar : N) (acc : list byte) :
  a2b_loop (String "=" (String "=" r)) 2 leftchar 0 acc = inr (rev acc).
Proof. reflexivity. Qed.

Lemma a2b_loop_b2a (n : nat) :
  forall (B : list byte) (acc : list byte),
    List.length B <= n ->
    a2b_loop (b2a_base64 B) 0 0 0 acc = inr (rev acc ++ B).
Proof.
  induction n as [|n IH]; intros B acc L.
  - destruct B; [|simpl in L; lia]. simpl. now rewrite app_nil_r.
  - destruct B as [|a [|b [|c r]]].
    + simpl. now rewrite app_nil_r.
    + destruct (pair_facts a a) as ((L0 & _ & _ & _ & L1 & _) & _ & E & _).
      cbn [b2a_base64].
      rewrite (step_char _ _ 0) by exact L0.
      rewrite (step_char _ _ 1) by exact L1.
      fold (s0 (Byte.to_N a)) (t1 (Byte.to_N a)). rewrite E.
      rewrite pads_end_quad. cbn [rev]. rewrite <- ?app_assoc. reflexivity.
    + destruct (pair_facts a b)
        as ((L0 & L1 & _ & _ & _ & _) & E1 & _ & E2 & _).
      destruct (pair_facts b b) as ((_ & _ & _ & _ & _ & L2) & _ & _ & _ & _ & E3 & _).
      cbn [b2a_base64].
      fold (s0 (Byte.to_N a)) (s1 (Byte.to_N a) (Byte.to_N b))
           (t2 (Byte.to_N b)).
      rewrite (step_char _ _ 0) by exact L0.
      rewrite (step_char _ _ 1) by exact L1.
      rewrite (step_char _ _ 2) by exact L2.
      rewrite E1, E2, E3.
      rewrite pad_ends_quad. cbn [rev]. rewrite <- ?app_assoc. reflexivity.
    + destruct (pair_facts a b)
        as ((L0 & L1 & _ & _ & _ & _) & E1 & _ & E2 & _).
      destruct (pair_facts b c)
        as ((_ & _ & L2 & _ & _ & _) & _ & _ & _ & E3 & _ & E4).
      destruct (pair_facts c c) as ((_ & _ & _ & L3 & _ & _) & _).
      cbn [b2a_base64].
      fold (s0 (Byte.to_N a)) (s1 (Byte.to_N a) (Byte.to_N b))
           (s2 (Byte.to_N b) (Byte.to_N c)) (s3 (Byte.to_N c)).
      rewrite (step_char _ _ 0) by exact L0.
      rewrite (step_char _ _ 1) by exact L1.
      rewrite (step_char _ _ 2) by exact L2.
      rewrite (step_char _ _ 3) by exact L3.
      rewrite E1, E2, E3, E4.
      rewrite IH by (simpl in L; lia).
      cbn [rev]. rewrite <- ?app_assoc. reflexivity.
Qed.

Lemma isascii_b2a (n : nat) :
  forall B : list byte, List.length B <= n -> isascii (b2a_base64 B) = true.
Proof.
  induction n as [|n IH]; intros B L.
  - destruct B; [reflexivity|simpl in L; lia].
  - destruct B as [|a [|b [|c r]]]; [reflexivity| | |].
    + destruct (pair_facts a a) as ((L0 & _ & _ & _ & L1 & _) & _).
      cbn [b2a_base64 isascii].
      fold (s0 (Byte.to_N a)) (t1 (Byte.to_N a)).
      rewrite !b2a_ascii by assumption. reflexivity.
    + destruct (pair_facts a b) as ((L0 & L1 & _ & _ & _ & _) & _).
      destruct (pair_facts b b) as ((_ & _ & _ & _ & _ & L2) & _).
      cbn [b2a_base64 isascii].
      fold (s0 (Byte.to_N a)) (s1 (Byte.to_N a) (Byte.to_N b))
           (t2 (Byte.to_N b)).
      rewrite !b2a_ascii by assumption. reflexivity.
    + destruct (pair_facts a b) as ((L0 & L1 & _ & _ & _ & _) & _).
      destruct (pair_facts b c) as ((_ & _ & L2 & _ & _ & _) & _).
      destruct (pair_facts c c) as ((_ & _ & _ & L3 & _ & _) & _).
      cbn [b2a_base64 isascii].
      fold (s0 (Byte.to_N a)) (s1 (Byte.to_N a) (Byte.to_N b))
           (s2 (Byte.to_N b) (Byte.to_N c)) (s3 (Byte.to_N c)).
      rewrite !b2a_ascii by assumption.
      rewrite IH by (simpl in L; lia). reflexivity.
Qed.

Lemma b64decode_b64encode (B : list byte) :
  b64decode (b64encode B) = inr B.
Proof.
  unfold b64decode, b64encode, a2b_base64.
  rewrite (isascii_b2a (List.length B)) by lia.
  rewrite (a2b_loop_b2a (List.length B)) by lia. reflexivity.
Qed.

Lemma b64encode_no_bracket (B : list byte) :
  startswith (b64encode B) "[" = false.
Proof.
  unfold b64encode.
  destruct B as [|a [|b [|c r]]]; [reflexivity| | |];
    destruct (pair_facts a a) as ((L0 & _) & _);
    cbn [b2a_base64 startswith]; apply b2a_not_bracket; exact L0.
Qed.

End Base64Facts.

(** C4. For every byte sequence [B], the base64 text of [B] does not start
    with a bracket, so that the consumer decodes it with
    [base64.b64decode], and what it decodes is [B]. *)
Theorem base64_round_trip (B : list byte) :
  startswith (Base64.b64encode B) "[" = false
  /\ Base64.b64decode (Base64.b64encode B) = inr B
  /\ Consumer.decode_audio (JStr (Base64.b64encode B)) = inr B.
Proof.
  pose proof (Base64Facts.b64encode_no_bracket B) as Hs.
  pose proof (Base64Facts.b64decode_b64encode B) as Hd.
  repeat split; auto.
  unfold Consumer.decode_audio. rewrite Hs. exact Hd.
Qed.

(** ** Exceptions that a handler for [Exception] takes *)

Module Safe.

(** A computation that ends, and with no other exception than one that
    derives from [Exception]. *)
Definition safe {A : Type} (m : M A) : Prop :=
  forall c, match res (m c) with
            | Returned _ => True
            | Raised e => is_Exception e = true
            | Blocked => False
            end.

(** A fallible value whose exception derives from [Exception]. *)
Definition mild {A : Type} (x : pyexn + A) : Prop :=
  match x with
  | inl e => is_Exception e = true
  | inr _ => True
  end.

Lemma safe_ret {A : Type} (a : A) : safe (ret a).
Proof. intros c; exact I. Qed.

Lemma safe_raise {A : Type} (e : pyexn) :
  is_Exception e = true -> safe (@raise A e).
Proof. intros H c; exact H. Qed.

Lemma safe_bind {A B : Type} (m : M A) (k : A -> M B) :
  safe m -> (forall a, safe (k a)) -> safe (bind m k).
Proof.
  intros Hm Hk c. unfold bind. specialize (Hm c).
  destruct (res (m c)) as [a|e|]; cbn [res]; auto.
  apply Hk.
Qed.

Lemma safe_lift {A : Type} (x : pyexn + A) : mild x -> safe (lift x).
Proof. destruct x; intros H c; simpl; auto. Qed.

Lemma safe_lift_sys {A : Type} (x : sys_error + A) : safe (lift_sys x).
Proof. destruct x as [[]|]; intros c; simpl; auto. Qed.

Lemma safe_perform (e : effect) : safe (perform e).
Proof. intros c; exact I. Qed.

Lemma safe_print (l : line) : safe (print l).
Proof. intros c; exact I. Qed.

Lemma safe_get_counter : safe get_counter.
Proof. intros c; exact I. Qed.

Lemma safe_incr_counter : safe incr_counter.
Proof. intros c; exact I. Qed.

Lemma safe_when (b : bool) (m : M unit) : safe m -> safe (when b m).
Proof. destruct b; intros H; [exact H|apply safe_ret]. Qed.

Lemma safe_if {A : Type} (b : bool) (m1 m2 : M A) :
  safe m1 -> safe m2 -> safe (if b then m1 else m2).
Proof. destruct b; auto. Qed.

Lemma safe_try_except {A : Type} (m : M A) (h : pyexn -> M A) :
  safe m -> (forall e, is_Exception e = true -> safe (h e)) ->
  safe (try_except m h).
Proof.
  intros Hm Hh c. unfold try_except. specialize (Hm c).
  destruct (res (m c)) as [a|e|] eqn:E; cbn [res]; try rewrite E; auto.
  apply (Hh e Hm).
Qed.

Lemma mild_py_get (x : json) (k : string) (d : json) : mild (py_get x k d).
Proof. destruct x; exact I || reflexivity. Qed.

Lemma mild_loads (s : string) : mild (Json.loads s).
Proof.
  pose proof (JsonFacts.loads_fuel s) as H. unfold mild.
  destruct (Json.loads s); [subst; reflexivity|exact I].
Qed.

Lemma mild_bytes_of_items (l : list json) : mild (bytes_of_items l).
Proof.
  induction l as [|v l IH]; [exact I|]. cbn [bytes_of_items].
  destruct (byte_of_item v) as [e|b] eqn:E.
  - unfold byte_of_item in E.
    destruct v; try (inversion E; reflexivity).
    destruct (if (0 <=? z)%Z then Byte.of_N (Z.to_N z) else None);
      inversion E; reflexivity.
  - destruct (bytes_of_items l); [exact IH|exact I].
Qed.

Lemma mild_py_bytes (v : json) : mild (py_bytes v).
Proof.
  destruct v as [|b|z|lit|s|l|kvs]; cbn [py_bytes];
    try reflexivity; try exact I.
  - destruct (z <? 0)%Z; [reflexivity|exact I].
  - apply mild_bytes_of_items.
  - destruct kvs; [exact I|reflexivity].
Qed.

Lemma mild_a2b_loop (s : string) :
  forall q l p acc, mild (Base64.a2b_loop s q l p acc).
Proof.
  induction s as [|c r IH]; intros q l p acc; cbn [Base64.a2b_loop].
  - destruct q; [exact I|reflexivity].
  - destruct (Ascii.eqb c "=").
    + destruct (2 <=? q)%nat; [|apply IH].
      destruct (4 <=? q + S p)%nat; [exact I|apply IH].
    + destruct (Base64.a2b c); [|apply IH].
      destruct q as [|[|[|q]]]; apply IH.
Qed.

Lemma mild_b64decode (s : string) : mild (Base64.b64decode s).
Proof.
  unfold Base64.b64decode. destruct (Base64.isascii s); [|reflexivity].
  apply mild_a2b_loop.
Qed.

Lemma mild_decode_audio (v : json) : mild (Consumer.decode_audio v).
Proof.
  destruct v; try reflexivity. cbn [Consumer.decode_audio].
  destruct (startswith s "[" && endswith s "]"); [|apply mild_b64decode].
  pose proof (mild_loads s) as H.
  destruct (Json.loads s); [exact H|apply mild_py_bytes].
Qed.

Lemma mild_read_document (bs : list byte) : mild (Consumer.read_document bs).
Proof.
  unfold Consumer.read_document, decode_utf8.
  destruct (utf8_valid (map Byte.to_N bs)); [apply mild_loads|reflexivity].
Qed.

Lemma mild_py_int (P : platform) (x : number) : mild (Consumer.py_int P x).
Proof.
  destruct x; [exact I|]. cbn [Consumer.py_int].
  destruct (float_trunc P lit) as [[]|]; exact I || reflexivity.
Qed.

Create HintDb safe.
#[export] Hint Resolve safe_ret safe_bind safe_lift safe_lift_sys
  safe_perform safe_print safe_get_counter safe_incr_counter safe_when
  safe_if safe_try_except safe_raise
  mild_py_get mild_loads mild_decode_audio mild_read_document mild_py_int
  : safe.

(** Going through a sequence of statements. *)
Ltac safe_seq tac :=
  repeat lazymatch goal with
         | |- safe (bind _ _) => apply safe_bind; [tac|intro]
         end; tac.

Lemma safe_create_wave_file (P : platform) (audio_data : list byte)
      (sample_rate : Z) (filename : wavname) :
  safe (Consumer.create_wave_file P audio_data sample_rate filename).
Proof.
  unfold Consumer.create_wave_file. destruct (disk_ok P _); auto with safe.
Qed.

Lemma safe_save_block (P : platform) (stamp : number) (audio_b64 : json) :
  safe (Consumer.save_block P stamp audio_b64).
Proof.
  unfold Consumer.save_block.
  apply safe_try_except.
  - safe_seq ltac:(auto using safe_create_wave_file with safe).
  - intros e He. rewrite He. auto with safe.
Qed.

Lemma safe_render_party (P : platform) (label : json -> json -> line)
      (key : string) (metadata : json) :
  safe (Consumer.render_party P label key metadata).
Proof.
  unfold Consumer.render_party.
  apply safe_bind; [auto with safe|intros info].
  destruct (Consumer.truthy P info); [|auto with safe].
  safe_seq ltac:(auto with safe).
Qed.

Lemma safe_render_lcn (metadata : json) :
  safe (Consumer.render_lcn metadata).
Proof.
  unfold Consumer.render_lcn.
  apply safe_bind; [auto with safe|intros lcn].
  destruct lcn; auto with safe.
Qed.

Lemma safe_render_metadata (P : platform) (metadata : json) :
  safe (Consumer.render_metadata P metadata).
Proof.
  unfold Consumer.render_metadata.
  safe_seq ltac:(auto using safe_render_party, safe_render_lcn);
    unfold Consumer.render_protocol, Consumer.render_frequency,
      Consumer.render_timeslot;
    safe_seq ltac:(auto with safe).
Qed.

Lemma safe_fromtimestamp (P : platform) (timestamp : json) :
  safe (Consumer.fromtimestamp P timestamp).
Proof.
  unfold Consumer.fromtimestamp.
  destruct (as_number timestamp); [|auto with safe].
  safe_seq ltac:(auto with safe).
Qed.

Lemma safe_process_document (P : platform) (a : Consumer.args)
      (message : json) :
  safe (Consumer.process_document P a message).
Proof.
  unfold Consumer.process_document.
  safe_seq ltac:(auto using safe_fromtimestamp, safe_render_metadata,
                 safe_save_block with safe).
Qed.

(** One turn of the loop ends, and with no exception. *)
Lemma process_message_returns (P : platform) (a : Consumer.args)
      (message_bytes : list byte) (c : Z) :
  res (Consumer.process_message P a message_bytes c) = Returned tt.
Proof.
  unfold Consumer.process_message, try_except.
  pose proof (safe_bind _ _ (safe_lift _ (mild_read_document message_bytes))
                (safe_process_document P a) c) as H.
  destruct (res ((message <- lift (Consumer.read_document message_bytes);;
                  Consumer.process_document P a message) c))
    as [[]|e|] eqn:E.
  - exact E.
  - cbv beta in H. rewrite H.
    destruct (is_JSONDecodeError e); reflexivity.
  - contradiction.
Qed.

End Safe.

(** ** The two forms of the audio field *)

Module Sniff.

(** The array form, as the consumer reads it: the text is a list, and its
    items are the bytes. *)
Definition array_form (T : string) : pyexn + list byte :=
  match Json.loads T with
  | inr (JArr items) => bytes_of_items items
  | _ => inl JSONDecodeError
  end.

(** An integer from 0 to 255. *)
Definition integer_entry (v : json) : bool :=
  match v with
  | JInt z => ((0 <=? z) && (z <? 256))%Z
  | _ => false
  end.

(** What [bytes] takes for an item: an integer from 0 to 255, and also
    [true] and [false], which are the integers 1 and 0 for Python. *)
Definition accepted_entry (v : json) : bool :=
  match v with
  | JBool _ => true
  | _ => integer_entry v
  end.

Definition entry_value (v : json) : Z :=
  match v with
  | JInt z => z
  | JBool b => if b then 1 else 0
  | _ => -1
  end.

Lemma byte_of_item_spec (v : json) :
  match byte_of_item v with
  | inr b => accepted_entry v = true /\ int_of_byte b = entry_value v
  | inl e => accepted_entry v = false /\ (e = ValueError \/ e = TypeError)
  end.
Proof.
  destruct v as [|b|z|lit|s|l|kvs]; cbn [byte_of_item accepted_entry
    integer_entry entry_value]; auto.
  - destruct b; split; reflexivity.
  - destruct (0 <=? z)%Z eqn:E0; cbn [andb]; [|auto].
    apply Z.leb_le in E0.
    destruct (Byte.of_N (Z.to_N z)) as [b|] eqn:E.
    + apply Byte.to_of_N in E.
      pose proof (Base64Facts.to_N_bounded b) as L.
      unfold int_of_byte. rewrite E, Z2N.id by exact E0. split; [|reflexivity].
      apply Z.ltb_lt. lia.
    + apply Byte.of_N_None_iff in E. split; [|auto].
      apply Z.ltb_ge. lia.
Qed.

Lemma bytes_of_items_spec (items : list json) :
  match bytes_of_items items with
  | inr bs =>
      forallb accepted_entry items = true
      /\ map int_of_byte bs = map entry_value items
  | inl e =>
      forallb accepted_entry items = false
      /\ (e = ValueError \/ e = TypeError)
  end.
Proof.
  induction items as [|v items IH]; cbn [bytes_of_items forallb map];
    [split; reflexivity|].
  pose proof (byte_of_item_spec v) as Hv.
  destruct (byte_of_item v) as [e|b]; destruct Hv as [Ha Hv]; rewrite Ha;
    cbn [andb]; [auto|].
  destruct (bytes_of_items items) as [e|bs]; destruct IH as [Hb IH];
    rewrite Hb; [auto|].
  cbn [map]. rewrite Hv, IH. auto.
Qed.

Lemma decode_audio_sniff (T : string) :
  Consumer.decode_audio (JStr T)
  = if startswith T "[" && endswith T "]"
    then array_form T
    else Base64.b64decode T.
Proof.
  unfold Consumer.decode_audio, array_form.
  destruct (startswith T "[" && endswith T "]") eqn:E; [|reflexivity].
  apply andb_prop in E. destruct E as [Hs _].
  pose proof (JsonFacts.loads_fuel T) as Hf.
  pose proof (JsonFacts.loads_bracket T) as Hb.
  destruct (Json.loads T) as [e|v].
  - now subst.
  - destruct (Hb v Hs eq_refl) as [l ->]. reflexivity.
Qed.

(** An audio field that cannot be decoded costs the message its file and
    nothing else. *)
Lemma save_block_error (P : platform) (stamp : number) (audio_b64 : json)
      (c : Z) :
  match Consumer.decode_audio audio_b64 with
  | inl e =>
      Consumer.save_block P stamp audio_b64 c
      = Outcome [Print (LAudioError e)] c (Returned tt)
  | inr _ => True
  end.
Proof.
  pose proof (Safe.mild_decode_audio audio_b64) as H.
  unfold Consumer.save_block.
  destruct (Consumer.decode_audio audio_b64) as [e|bs]; [|exact I].
  cbn in H. unfold try_except, bind, lift, raise. cbn [res ctr trace].
  rewrite H. reflexivity.
Qed.

End Sniff.

(** C2, as it is stated, fails on the text [[true]]: the item is not an
    integer, and the consumer decodes the text into the byte 1 with no
    error. *)
Lemma audio_sniff_as_stated_fails :
  ~ (forall (T : string) (items : list json),
        startswith T "[" && endswith T "]" = true ->
        Json.loads T = inr (JArr items) ->
        existsb (fun v => negb (Sniff.integer_entry v)) items = true ->
        exists e, Consumer.decode_audio (JStr T) = inl e).
Proof.
  intros H.
  destruct (H "[true]" [JBool true] eq_refl eq_refl eq_refl) as [e He].
  vm_compute in He. discriminate.
Qed.

(** C2, amended. The consumer chooses the form of the audio text [T] by
    its first and last characters. Between brackets, the text is read with
    [json.loads] and its items are made into bytes: this gives an error
    when the text is not a document and when an item is neither an integer
    from 0 to 255 nor a boolean, a boolean being the byte 1 or 0; otherwise
    it gives one byte for each item, of the value of the item. Every other
    text is given to [base64.b64decode]. An error of either form is
    reported for the message, whose turn ends as usual, with its counter
    kept and no file written. *)
Theorem audio_sniff (T : string) :
  Consumer.decode_audio (JStr T)
  = (if startswith T "[" && endswith T "]"
     then Sniff.array_form T
     else Base64.b64decode T)
  /\ (forall items : list json,
        match bytes_of_items items with
        | inr bs =>
            forallb Sniff.accepted_entry items = true
            /\ map int_of_byte bs = map Sniff.entry_value items
        | inl e =>
            forallb Sniff.accepted_entry items = false
            /\ (e = ValueError \/ e = TypeError)
        end)
  /\ (forall (P : platform) (stamp : number) (c : Z),
        match Consumer.decode_audio (JStr T) with
        | inl e =>
            Consumer.save_block P stamp (JStr T) c
            = Outcome [Print (LAudioError e)] c (Returned tt)
        | inr _ => True
        end).
Proof.
  split; [apply Sniff.decode_audio_sniff|].
  split; [apply Sniff.bytes_of_items_spec|].
  intros P stamp c. apply Sniff.save_block_error.
Qed.

(** ** Equations of the programs *)

Module Laws.

Lemma outcome_eta {A : Type} (r : outcome A) :
  Outcome (trace r) (ctr r) (res r) = r.
Proof. destruct r; reflexivity. Qed.

Lemma bind_ret {A B : Type} (a : A) (k : A -> M B) (c : Z) :
  bind (ret a) k c = k a c.
Proof. unfold bind, ret. cbn. apply outcome_eta. Qed.

Lemma bind_lift_inr {A B : Type} (a : A) (k : A -> M B) (c : Z) :
  bind (lift (inr a)) k c = k a c.
Proof. apply bind_ret. Qed.

Lemma bind_raise {A B : Type} (e : pyexn) (k : A -> M B) (c : Z) :
  bind (raise e) k c = Outcome [] c (Raised e).
Proof. reflexivity. Qed.

Lemma bind_lift_inl {A B : Type} (e : pyexn) (k : A -> M B) (c : Z) :
  bind (lift (inl e)) k c = Outcome [] c (Raised e).
Proof. reflexivity. Qed.

Lemma bind_incr_counter {B : Type} (k : unit -> M B) (c : Z) :
  bind incr_counter k c = k tt (c + 1)%Z.
Proof. unfold bind, incr_counter. cbn. apply outcome_eta. Qed.

Lemma bind_get_counter {B : Type} (k : Z -> M B) (c : Z) :
  bind get_counter k c = k c c.
Proof. unfold bind, get_counter. cbn. apply outcome_eta. Qed.

Lemma bind_set_counter {B : Type} (n : Z) (k : unit -> M B) (c : Z) :
  bind (set_counter n) k c = k tt n.
Proof. unfold bind, set_counter. cbn. apply outcome_eta. Qed.

Lemma bind_perform {B : Type} (e : effect) (k : unit -> M B) (c : Z) :
  bind (perform e) k c
  = Outcome (e :: trace (k tt c)) (ctr (k tt c)) (res (k tt c)).
Proof. reflexivity. Qed.

Lemma bind_print {B : Type} (l : line) (k : unit -> M B) (c : Z) :
  bind (print l) k c
  = Outcome (Print l :: trace (k tt c)) (ctr (k tt c)) (res (k tt c)).
Proof. reflexivity. Qed.

Lemma bind_unfold {A B : Type} (m : M A) (k : A -> M B) (c : Z) :
  bind m k c
  = match res (m c) with
    | Returned a =>
        Outcome (trace (m c) ++ trace (k a (ctr (m c))))
                (ctr (k a (ctr (m c)))) (res (k a (ctr (m c))))
    | Raised e => Outcome (trace (m c)) (ctr (m c)) (Raised e)
    | Blocked => Outcome (trace (m c)) (ctr (m c)) Blocked
    end.
Proof. reflexivity. Qed.

Lemma try_except_unfold {A : Type} (m : M A) (h : pyexn -> M A) (c : Z) :
  try_except m h c
  = match res (m c) with
    | Raised e =>
        Outcome (trace (m c) ++ trace (h e (ctr (m c))))
                (ctr (h e (ctr (m c)))) (res (h e (ctr (m c))))
    | _ => m c
    end.
Proof. reflexivity. Qed.

End Laws.

(** ** One turn of the consumer's loop *)

Module Turn.
Import Consumer.

(** The line of an error that one turn reports. *)
Definition error_line (e : pyexn) : line :=
  if is_JSONDecodeError e then LParseError e else LProcessError e.

(** The turn printed the heading of the message, under the next number. *)
Definition rendered {A : Type} (c : Z) (r : outcome A) : Prop :=
  exists hms rest, trace r = Print (LHeader hms (c + 1)) :: rest.

(** The turn printed one line, for an error, and kept the counter. *)
Definition reported (c : Z) (r : outcome unit) : Prop :=
  exists e, r = Outcome [Print (error_line e)] c (Returned tt).

(** [d.setdefault(k, v)] *)
Definition dict_setdefault (kvs : list (string * json)) (k : string) (v : json)
  : list (string * json) :=
  match dict_get kvs k with
  | Some _ => kvs
  | None => kvs ++ [(k, v)]
  end.

(** The document with the three defaults of lines 57-59 written out. *)
Definition defaulted (kvs : list (string * json)) : list (string * json) :=
  dict_setdefault
    (dict_setdefault (dict_setdefault kvs "timestamp" (JInt 0))
       "metadata" (JObj []))
    "audio" (JStr EmptyString).

Lemma dict_get_app (kvs : list (string * json)) (k k' : string) (v : json) :
  dict_get (kvs ++ [(k, v)]) k'
  = match dict_get kvs k' with
    | Some w => Some w
    | None => if String.eqb k k' then Some v else None
    end.
Proof.
  induction kvs as [|[k0 v0] kvs IH]; cbn [app dict_get]; [reflexivity|].
  destruct (String.eqb k0 k'); [reflexivity|exact IH].
Qed.

Lemma py_get_setdefault (kvs : list (string * json)) (k k' : string)
      (v d : json) :
  (String.eqb k k' = true -> v = d) ->
  py_get (JObj (dict_setdefault kvs k v)) k' d = py_get (JObj kvs) k' d.
Proof.
  intros H. unfold py_get, dict_setdefault. f_equal.
  destruct (dict_get kvs k) eqn:E; [reflexivity|].
  rewrite dict_get_app.
  destruct (dict_get kvs k') eqn:E'; [reflexivity|].
  destruct (String.eqb k k'); [now rewrite H|reflexivity].
Qed.

Lemma py_get_defaulted (kvs : list (string * json)) :
  py_get (JObj (defaulted kvs)) "timestamp" (JInt 0)
  = py_get (JObj kvs) "timestamp" (JInt 0)
  /\ py_get (JObj (defaulted kvs)) "metadata" (JObj [])
     = py_get (JObj kvs) "metadata" (JObj [])
  /\ py_get (JObj (defaulted kvs)) "audio" (JStr EmptyString)
     = py_get (JObj kvs) "audio" (JStr EmptyString).
Proof.
  unfold defaulted.
  repeat split; repeat rewrite py_get_setdefault;
    reflexivity || (cbn; intros; reflexivity || discriminate).
Qed.

Lemma process_document_defaulted (P : platform) (a : args)
      (kvs : list (string * json)) (c : Z) :
  process_document P a (JObj kvs) c
  = process_document P a (JObj (defaulted kvs)) c.
Proof.
  unfold process_document.
  destruct (py_get_defaulted kvs) as (-> & -> & ->). reflexivity.
Qed.

(** A message that is not a document costs one line. *)
Lemma process_message_unreadable (P : platform) (a : args)
      (message_bytes : list byte) (e : pyexn) (c : Z) :
  read_document message_bytes = inl e ->
  process_message P a message_bytes c
  = Outcome [Print (error_line e)] c (Returned tt).
Proof.
  intros H. pose proof (Safe.mild_read_document message_bytes) as Hm.
  unfold process_message. rewrite Laws.try_except_unfold, H in *.
  rewrite Laws.bind_lift_inl. cbn [res ctr trace]. cbn in Hm.
  unfold error_line. destruct (is_JSONDecodeError e); [reflexivity|].
  rewrite Hm. reflexivity.
Qed.

(** Lines 67-122: what follows the heading. *)
Definition after_heading (P : platform) (a : args) (metadata audio_b64 : json)
           (stamp : number) : M unit :=
  render_metadata P metadata;;
  when (truthy P audio_b64 && save_audio a) (save_block P stamp audio_b64);;
  when (verbose a) (print (LRaw metadata)).

Definition field (kvs : list (string * json)) (k : string) (default : json)
  : json :=
  match dict_get kvs k with
  | Some v => v
  | None => default
  end.

Lemma process_document_object (P : platform) (a : args)
      (kvs : list (string * json)) (c : Z) :
  process_document P a (JObj kvs) c
  = match as_number (field kvs "timestamp" (JInt 0)) with
    | None => Outcome [] c (Raised TypeError)
    | Some x =>
        match clock P x with
        | inl se => Outcome [] c (Raised (raise_sys se))
        | inr hms =>
            let r := after_heading P a (field kvs "metadata" (JObj []))
                       (field kvs "audio" (JStr EmptyString)) x (c + 1)%Z in
            Outcome (Print (LHeader hms (c + 1)) :: trace r) (ctr r) (res r)
        end
    end.
Proof.
  unfold process_document. cbn [py_get]. fold (field kvs "timestamp" (JInt 0))
    (field kvs "metadata" (JObj [])) (field kvs "audio" (JStr EmptyString)).
  rewrite !Laws.bind_lift_inr. unfold fromtimestamp.
  destruct (as_number (field kvs "timestamp" (JInt 0))) as [x|];
    [|reflexivity].
  destruct (clock P x) as [se|hms].
  - reflexivity.
  - cbn [lift_sys]. rewrite Laws.bind_unfold, Laws.bind_ret.
    cbn [ret res trace ctr app fst snd].
    rewrite Laws.bind_incr_counter, Laws.bind_get_counter, Laws.bind_print.
    reflexivity.
Qed.

Lemma process_document_other (P : platform) (a : args) (message : json)
      (c : Z) :
  match message with
  | JObj _ => True
  | _ => process_document P a message c = Outcome [] c (Raised AttributeError)
  end.
Proof. destruct message; exact I || reflexivity. Qed.

Lemma process_message_readable (P : platform) (a : args)
      (message_bytes : list byte) (message : json) (c : Z) :
  read_document message_bytes = inr message ->
  process_message P a message_bytes c
  = match res (process_document P a message c) with
    | Raised e =>
        Outcome (trace (process_document P a message c)
                 ++ [Print (error_line e)])
                (ctr (process_document P a message c)) (Returned tt)
    | _ => process_document P a message c
    end.
Proof.
  intros H. unfold process_message.
  rewrite Laws.try_except_unfold, H, Laws.bind_lift_inr.
  pose proof (Safe.safe_process_document P a message c) as Hs.
  destruct (res (process_document P a message c)) as [u|e|];
    [reflexivity| |contradiction].
  unfold error_line. destruct (is_JSONDecodeError e); [reflexivity|].
  rewrite Hs. reflexivity.
Qed.

Lemma rendered_or_reported (P : platform) (a : args)
      (message_bytes : list byte) (c : Z) :
  rendered c (process_message P a message_bytes c)
  \/ reported c (process_message P a message_bytes c).
Proof.
  destruct (read_document message_bytes) as [e|message] eqn:E.
  { right. exists e. now apply process_message_unreadable. }
  rewrite (process_message_readable P a _ _ c E).
  pose proof (process_document_other P a message c) as Ho.
  destruct message as [|b|z|lit|s|l|kvs];
    try (right; exists AttributeError; rewrite Ho; reflexivity).
  rewrite process_document_object.
  destruct (as_number (field kvs "timestamp" (JInt 0))) as [x|].
  2:{ right. exists TypeError. reflexivity. }
  destruct (clock P x) as [se|hms].
  { right. exists (raise_sys se). destruct se; reflexivity. }
  left. cbv zeta. cbn [res trace ctr].
  destruct (res (after_heading P a _ _ x (c + 1)%Z));
    unfold rendered; cbn [trace app]; eauto.
Qed.

(** The loop, at a message. *)
Lemma receive_loop_message (P : platform) (a : args)
      (message_bytes : list byte) (evs : list event) (c : Z) :
  let r := process_message P a message_bytes c in
  let r' := receive_loop P a evs (ctr r) in
  receive_loop P a (Message message_bytes :: evs) c
  = Outcome (trace r ++ trace r') (ctr r') (res r').
Proof.
  cbn [receive_loop]. rewrite Laws.bind_unfold.
  rewrite Safe.process_message_returns. reflexivity.
Qed.

End Turn.

(** C3. One turn of the consumer's loop ends without an exception,
    whatever the bytes [x] it has received: it has printed the heading of
    the message under the next number, or it has printed one line for the
    error and kept its counter, which is what it does when [x] is not
    UTF-8 or not a document. A document renders as the same document with
    the fields it lacks written out: 0 for the timestamp, the empty record
    for the metadata, the empty text for the audio. The loop that receives
    [b1], [x] and [b2] gives each of them its turn and waits for the next
    message: what [x] holds keeps neither [b1] nor [b2] from its turn. *)
Theorem decode_total (P : platform) (a : Consumer.args)
        (b1 x b2 : list byte) (c : Z) :
  res (Consumer.process_message P a x c) = Returned tt
  /\ (Turn.rendered c (Consumer.process_message P a x c)
      \/ Turn.reported c (Consumer.process_message P a x c))
  /\ match Consumer.read_document x with
     | inl e =>
         Consumer.process_message P a x c
         = Outcome [Print (Turn.error_line e)] c (Returned tt)
     | inr _ => True
     end
  /\ (forall kvs : list (string * json),
        Consumer.process_document P a (JObj kvs) c
        = Consumer.process_document P a (JObj (Turn.defaulted kvs)) c)
  /\ (let r1 := Consumer.process_message P a b1 c in
      let rx := Consumer.process_message P a x (ctr r1) in
      let r2 := Consumer.process_message P a b2 (ctr rx) in
      Consumer.receive_loop P a
        [Consumer.Message b1; Consumer.Message x; Consumer.Message b2] c
      = Outcome (trace r1 ++ trace rx ++ trace r2) (ctr r2) Blocked).
Proof.
  split; [apply Safe.process_message_returns|].
  split; [apply Turn.rendered_or_reported|].
  split.
  { destruct (Consumer.read_document x) eqn:E; [|exact I].
    now apply Turn.process_message_unreadable. }
  split; [intros kvs; apply Turn.process_document_defaulted|].
  cbv zeta. rewrite !Turn.receive_loop_message. cbv zeta.
  cbn [Consumer.receive_loop block trace ctr res].
  rewrite app_nil_r. reflexivity.
Qed.

(** ** The counter and the names of the files *)

Module Counter.
Import Consumer.

(** The names of the files that a run wrote, in the order of the writes. *)
Fixpoint saved (t : list effect) : list wavname :=
  match t with
  | [] => []
  | WriteWav w :: r => wav_name w :: saved r
  | _ :: r => saved r
  end.

(** Each number is at least two more than the one before it, [prev] being
    before the first. *)
Fixpoint skipping (prev : Z) (l : list Z) : Prop :=
  match l with
  | [] => True
  | n :: r => (prev + 2 <= n)%Z /\ skipping n r
  end.

Lemma saved_app (t1 t2 : list effect) :
  saved (t1 ++ t2) = saved t1 ++ saved t2.
Proof.
  induction t1 as [|e t1 IH]; [reflexivity|].
  destruct e; cbn [app saved]; rewrite ?IH; reflexivity.
Qed.

(** A computation that writes no file and keeps the counter. *)
Definition quiet {A : Type} (m : M A) : Prop :=
  forall c, ctr (m c) = c /\ saved (trace (m c)) = [].

Lemma quiet_ret {A : Type} (a : A) : quiet (ret a).
Proof. intros c; split; reflexivity. Qed.

Lemma quiet_raise {A : Type} (e : pyexn) : quiet (@raise A e).
Proof. intros c; split; reflexivity. Qed.

Lemma quiet_lift {A : Type} (x : pyexn + A) : quiet (lift x).
Proof. destruct x; [apply quiet_raise|apply quiet_ret]. Qed.

Lemma quiet_print (l : line) : quiet (print l).
Proof. intros c; split; reflexivity. Qed.

Lemma quiet_bind {A B : Type} (m : M A) (k : A -> M B) :
  quiet m -> (forall a, quiet (k a)) -> quiet (bind m k).
Proof.
  intros Hm Hk c. rewrite Laws.bind_unfold.
  destruct (Hm c) as [Hc Hs].
  destruct (res (m c)) as [a|e|]; cbn [ctr trace]; auto.
  destruct (Hk a (ctr (m c))) as [Hc' Hs'].
  rewrite saved_app, Hs, Hs', Hc', Hc. auto.
Qed.

Lemma quiet_when (b : bool) (m : M unit) : quiet m -> quiet (when b m).
Proof. destruct b; intros H; [exact H|apply quiet_ret]. Qed.

Create HintDb quiet.
#[export] Hint Resolve quiet_ret quiet_raise quiet_lift quiet_print
  quiet_when : quiet.

Ltac quiet_seq :=
  repeat lazymatch goal with
         | |- quiet (bind _ _) => apply quiet_bind; [|intro]
         end; auto with quiet.

Lemma quiet_render_party (P : platform) (label : json -> json -> line)
      (key : string) (metadata : json) :
  quiet (render_party P label key metadata).
Proof.
  unfold render_party. apply quiet_bind; [auto with quiet|intros info].
  destruct (truthy P info); quiet_seq.
Qed.

Lemma quiet_render_lcn (metadata : json) : quiet (render_lcn metadata).
Proof.
  unfold render_lcn. apply quiet_bind; [auto with quiet|intros lcn].
  destruct lcn; auto with quiet.
Qed.

Lemma quiet_render_metadata (P : platform) (metadata : json) :
  quiet (render_metadata P metadata).
Proof.
  unfold render_metadata, render_protocol, render_frequency, render_timeslot.
  repeat lazymatch goal with
         | |- quiet (bind _ _) => apply quiet_bind; [|intro]
         end;
    auto using quiet_render_party, quiet_render_lcn with quiet;
    quiet_seq.
Qed.

(** What one computation does to the counter and to the disk: it writes no
    file and adds at most [k] to the counter, or it writes one file, named
    after the counter plus [k], which is the counter it leaves. *)
Definition counts {A : Type} (k : Z) (c : Z) (r : outcome A) : Prop :=
  (saved (trace r) = [] /\ (c <= ctr r <= c + k)%Z)
  \/ (exists ts, saved (trace r) = [{| name_counter := c + k; name_stamp := ts |}]
                 /\ ctr r = (c + k)%Z).

Lemma save_block_counts (P : platform) (stamp : number) (audio_b64 : json)
      (c : Z) :
  counts 1 c (save_block P stamp audio_b64 c).
Proof.
  unfold save_block. rewrite Laws.try_except_unfold.
  destruct (decode_audio audio_b64) as [e|audio_data].
  { rewrite Laws.bind_lift_inl. cbn [res trace ctr]. left.
    destruct (is_Exception e); cbn; split; auto; lia. }
  rewrite Laws.bind_lift_inr, Laws.bind_incr_counter, Laws.bind_get_counter.
  destruct (py_int P stamp) as [e|ts].
  { rewrite Laws.bind_lift_inl. cbn [res trace ctr]. left.
    destruct (is_Exception e); cbn; split; auto; lia. }
  rewrite Laws.bind_lift_inr. unfold create_wave_file.
  destruct (disk_ok P _).
  - right. exists ts. split; reflexivity.
  - left. cbn. split; auto; lia.
Qed.

Lemma after_heading_counts (P : platform) (a : args)
      (metadata audio_b64 : json) (stamp : number) (c : Z) :
  counts 1 c (Turn.after_heading P a metadata audio_b64 stamp c).
Proof.
  unfold Turn.after_heading. rewrite Laws.bind_unfold.
  destruct (quiet_render_metadata P metadata c) as [Hc Hs].
  destruct (res (render_metadata P metadata c)) as [[]|e|];
    unfold counts; cbn [trace ctr];
    try (left; rewrite Hs, Hc; split; auto; lia).
  rewrite Hc, saved_app, Hs. cbn [app].
  rewrite Laws.bind_unfold.
  assert (Hw : counts 1 c
                 (when (truthy P audio_b64 && save_audio a)
                       (save_block P stamp audio_b64) c)).
  { destruct (truthy P audio_b64 && save_audio a); cbn [when].
    - apply save_block_counts.
    - left. cbn. split; auto; lia. }
  set (w := when (truthy P audio_b64 && save_audio a)
                 (save_block P stamp audio_b64) c) in *.
  destruct (res w) as [[]|e|]; unfold counts in *; cbn [trace ctr];
    try exact Hw.
  destruct (quiet_when (verbose a) (print (LRaw metadata))
              (quiet_print _) (ctr w)) as [Hc' Hs'].
  rewrite saved_app, Hs', Hc', app_nil_r. exact Hw.
Qed.

(** One turn: no file and at most two more on the counter, or one file,
    named after the counter plus two. *)
Lemma process_message_counts (P : platform) (a : args)
      (message_bytes : list byte) (c : Z) :
  counts 2 c (process_message P a message_bytes c).
Proof.
  assert (Hnone : forall l, counts 2 c (Outcome [Print l] c (Returned tt))).
  { intros l. left. cbn. split; auto; lia. }
  destruct (read_document message_bytes) as [e|message] eqn:E.
  { rewrite (Turn.process_message_unreadable P a _ e c E). apply Hnone. }
  rewrite (Turn.process_message_readable P a _ _ c E).
  pose proof (Turn.process_document_other P a message c) as Ho.
  destruct message as [|b|z|lit|s|l|kvs]; try (rewrite Ho; apply Hnone).
  rewrite Turn.process_document_object.
  destruct (as_number (Turn.field kvs "timestamp" (JInt 0))) as [x|];
    [|apply Hnone].
  destruct (clock P x) as [se|hms]; [apply Hnone|].
  cbv zeta. cbn [res trace ctr].
  pose proof (after_heading_counts P a (Turn.field kvs "metadata" (JObj []))
                (Turn.field kvs "audio" (JStr EmptyString)) x (c + 1)%Z) as H.
  set (r := Turn.after_heading P a _ _ x (c + 1)%Z) in *.
  assert (G : counts 2 c (Outcome (Print (LHeader hms (c + 1)) :: trace r)
                                  (ctr r) (res r))).
  { unfold counts in *. cbn [trace ctr saved].
    destruct H as [[Hs Hc]|[ts [Hs Hc]]].
    - left. split; [exact Hs|lia].
    - right. exists ts. rewrite Hs, Hc.
      replace (c + 1 + 1)%Z with (c + 2)%Z by lia. auto. }
  destruct (res r) as [[]|e|]; try exact G.
  unfold counts in *. cbn [trace ctr saved] in *.
  rewrite saved_app. cbn [saved]. rewrite app_nil_r. exact G.
Qed.

Lemma skipping_mono (c c' : Z) (l : list Z) :
  (c <= c')%Z -> skipping c' l -> skipping c l.
Proof. destruct l; cbn; [auto|]. intros L [H1 H2]. split; [lia|exact H2]. Qed.

(** The loop, from any counter. *)
Lemma receive_loop_skipping (P : platform) (a : args) (evs : list event) :
  forall c, skipping c (map name_counter
                          (saved (trace (receive_loop P a evs c)))).
Proof.
  induction evs as [|ev evs IH]; intros c; [exact I|].
  destruct ev as [message_bytes| | |]; try exact I.
  - rewrite Turn.receive_loop_message. cbv zeta. cbn [trace].
    rewrite saved_app, map_app.
    specialize (IH (ctr (process_message P a message_bytes c))).
    destruct (process_message_counts P a message_bytes c)
      as [[Hs Hc]|[ts [Hs Hc]]]; rewrite Hs; cbn [map app name_counter].
    + apply (skipping_mono _ _ _ (proj1 Hc) IH).
    + rewrite Hc in *. cbn [skipping]. split; [lia|exact IH].
  - cbn [receive_loop]. destruct (verbose a); [exact I|apply IH].
Qed.

Lemma skipping_sorted (c : Z) (l : list Z) :
  skipping c l -> Sorted.StronglySorted Z.lt l /\ Forall (fun n => (c < n)%Z) l.
Proof.
  revert c. induction l as [|n l IH]; intros c H.
  - split; constructor.
  - destruct H as [H1 H2]. destruct (IH n H2) as [Hs Hf]. split.
    + constructor; assumption.
    + constructor; [lia|].
      apply (Forall_impl _ (fun x (Hx : (n < x)%Z) => Z.lt_trans c n x ltac:(lia) Hx) Hf).
Qed.

Lemma session_unfold (P : platform) (a : args) (w : world) (c : Z) :
  let loop := receive_loop P a (events w) 0%Z in
  session P a w c
  = match connect w, setsockopt w with
    | Raises e, _ => Outcome [] c (Raised e)
    | Ok, Raises e => Outcome [Connect (endpoint a)] c (Raised e)
    | Ok, Ok =>
        Outcome (Connect (endpoint a) :: Subscribe
                 :: Print (LListening (endpoint a)) :: Print LWaiting
                 :: trace loop)
                (ctr loop)
                match res loop with
                | Returned never => match never with end
                | Raised e => Raised e
                | Blocked => Blocked
                end
    end.
Proof.
  cbv zeta. unfold session.
  destruct (connect w); [|reflexivity].
  destruct (setsockopt w); [|reflexivity].
  cbn [do_call].
  rewrite Laws.bind_perform, Laws.bind_perform, Laws.bind_print,
    Laws.bind_print, Laws.bind_set_counter, Laws.bind_unfold.
  cbn [res trace ctr].
  destruct (res (receive_loop P a (events w) 0%Z)) as [[]|e|];
    cbn [res trace ctr]; rewrite ?app_nil_r; reflexivity.
Qed.

Lemma handler_saved (e : pyexn) (c : Z) : saved (trace (handler e c)) = [].
Proof. destruct e; reflexivity. Qed.

Lemma main_unfold (P : platform) (a : args) (w : world) :
  let s := try_except (session P a w) handler 0%Z in
  main P a w
  = match res s with
    | Blocked => Outcome (NewContext :: NewSocket :: trace s) (ctr s) Blocked
    | _ =>
        Outcome (NewContext :: NewSocket :: trace s ++ [Close; Term])
                (ctr s) (res s)
    end.
Proof.
  cbv zeta. unfold main. rewrite !Laws.bind_perform.
  set (s := try_except (session P a w) handler).
  cbn [trace ctr res]. unfold try_finally. cbn [trace ctr res].
  destruct (res (s 0%Z)) eqn:E; cbn [trace ctr res]; rewrite ?E; reflexivity.
Qed.

Lemma main_saved (P : platform) (a : args) (w : world) :
  saved (trace (main P a w))
  = match connect w, setsockopt w with
    | Ok, Ok => saved (trace (receive_loop P a (events w) 0%Z))
    | _, _ => []
    end.
Proof.
  rewrite main_unfold. cbv zeta.
  assert (H : saved (trace (try_except (session P a w) handler 0%Z))
              = match connect w, setsockopt w with
                | Ok, Ok => saved (trace (receive_loop P a (events w) 0%Z))
                | _, _ => []
                end).
  { rewrite Laws.try_except_unfold, session_unfold. cbv zeta.
    destruct (connect w);
      [|cbn [res trace ctr app]; apply handler_saved].
    destruct (setsockopt w);
      [|cbn [res trace ctr app saved]; apply handler_saved].
    cbn [res trace ctr].
    destruct (res (receive_loop P a (events w) 0%Z)) as [[]|e|];
      cbn [trace saved]; try reflexivity.
    change (Connect (endpoint a) :: Subscribe
            :: Print (LListening (endpoint a)) :: Print LWaiting
            :: trace (receive_loop P a (events w) 0%Z))
      with ([Connect (endpoint a); Subscribe;
             Print (LListening (endpoint a)); Print LWaiting]
            ++ trace (receive_loop P a (events w) 0%Z)).
    rewrite !saved_app, handler_saved, app_nil_r. reflexivity. }
  destruct (res (try_except (session P a w) handler 0%Z));
    cbn [trace saved]; rewrite ?saved_app, H; cbn [saved];
    rewrite ?app_nil_r; reflexivity.
Qed.

End Counter.

(** C5. A turn of the loop that saves the audio of its message saves one
    file, adds two to the counter and names the file after the counter it
    leaves: the first addition is that of the message received and the
    second that of the file named. In the names of the files that a run of
    the consumer saves, each counter is therefore at least two more than the
    one before it, and the first is at least two: the counters skip numbers,
    and they increase strictly. *)
Theorem counter_skips (P : platform) (a : Consumer.args)
        (message_bytes : list byte) (c : Z) (w : Consumer.world) :
  match Counter.saved (trace (Consumer.process_message P a message_bytes c)) with
  | [] => True
  | f :: more =>
      more = []
      /\ name_counter f = (c + 1 + 1)%Z
      /\ ctr (Consumer.process_message P a message_bytes c) = (c + 1 + 1)%Z
  end
  /\ Counter.skipping 0
       (map name_counter (Counter.saved (trace (Consumer.main P a w))))
  /\ Sorted.StronglySorted Z.lt
       (map name_counter (Counter.saved (trace (Consumer.main P a w)))).
Proof.
  split.
  { destruct (Counter.process_message_counts P a message_bytes c)
      as [[Hs Hc]|[ts [Hs Hc]]]; rewrite Hs; [exact I|].
    cbn [name_counter]. rewrite Hc. repeat split; lia. }
  assert (H : Counter.skipping 0
                (map name_counter (Counter.saved (trace (Consumer.main P a w))))).
  { rewrite Counter.main_saved.
    destruct (Consumer.connect w); [|exact I].
    destruct (Consumer.setsockopt w); [|exact I].
    apply Counter.receive_loop_skipping. }
  split; [exact H|]. apply (Counter.skipping_sorted 0 _ H).
Qed.

(** ** The ends of the loops *)

Module Ends.

Lemma try_finally_unfold {A : Type} (m : M A) (final : M unit) (c : Z) :
  try_finally m final c
  = match res (m c) with
    | Blocked => m c
    | _ =>
        Outcome (trace (m c) ++ trace (final (ctr (m c))))
                (ctr (final (ctr (m c))))
                match res (final (ctr (m c))) with
                | Returned _ => res (m c)
                | Raised e => Raised e
                | Blocked => Blocked
                end
    end.
Proof. reflexivity. Qed.


(** The events that are a message, or a wait on an empty queue for the
    receive that blocks. *)
Definition goes_on (noblock : bool) (ev : Consumer.event) : bool :=
  match ev with
  | Consumer.Message _ => true
  | Consumer.Nothing => negb noblock
  | _ => false
  end.

Definition message_or_nothing (ev : Consumer.event) : bool :=
  match ev with
  | Consumer.Message _ | Consumer.Nothing => true
  | _ => false
  end.

Lemma receive_loop_goes_on (P : platform) (a : Consumer.args)
      (evs : list Consumer.event) :
  forallb (goes_on (Consumer.verbose a)) evs = true ->
  forall c, res (Consumer.receive_loop P a evs c) = Blocked.
Proof.
  induction evs as [|ev evs IH]; intros H c; [reflexivity|].
  cbn [forallb] in H. apply andb_prop in H. destruct H as [Hev H].
  destruct ev as [b| | |]; try discriminate.
  - rewrite Turn.receive_loop_message. cbv zeta. cbn [res]. now apply IH.
  - cbn [Consumer.receive_loop]. cbn in Hev.
    destruct (Consumer.verbose a); [discriminate|]. now apply IH.
Qed.

Lemma receive_loop_again (P : platform) (a : Consumer.args)
      (evs rest : list Consumer.event) :
  Consumer.verbose a = true ->
  forallb (goes_on true) evs = true ->
  forall c, res (Consumer.receive_loop P a (evs ++ Consumer.Nothing :: rest) c)
            = Raised ZmqAgain.
Proof.
  intros Hv. induction evs as [|ev evs IH]; intros H c.
  - cbn [app Consumer.receive_loop]. rewrite Hv. reflexivity.
  - cbn [forallb] in H. apply andb_prop in H. destruct H as [Hev H].
    destruct ev as [b| | |]; try discriminate.
    cbn [app]. rewrite Turn.receive_loop_message. cbv zeta. cbn [res].
    now apply IH.
Qed.

(** The consumer, from the result of its loop. *)
Lemma consumer_main_unfold (P : platform) (a : Consumer.args)
      (w : Consumer.world) :
  Consumer.connect w = Ok ->
  Consumer.setsockopt w = Ok ->
  let loop := Consumer.receive_loop P a (Consumer.events w) 0%Z in
  let before := [NewContext; NewSocket; Connect (Consumer.endpoint a);
                 Subscribe; Print (LListening (Consumer.endpoint a));
                 Print LWaiting] in
  Consumer.main P a w
  = match res loop with
    | Returned never => match never with end
    | Blocked => Outcome (before ++ trace loop) (ctr loop) Blocked
    | Raised e =>
        Outcome (before ++ trace loop
                 ++ [Print (if is_KeyboardInterrupt e then LShutdown
                            else if is_ZmqAgain e then LNoMessages
                            else LError e);
                     Close; Term])
                (ctr loop) (Returned tt)
    end.
Proof.
  intros Hc Hs. cbv zeta. rewrite Counter.main_unfold. cbv zeta.
  rewrite Laws.try_except_unfold, Counter.session_unfold. cbv zeta.
  rewrite Hc, Hs. cbn [res trace ctr].
  destruct (res (Consumer.receive_loop P a (Consumer.events w) 0%Z))
    as [[]|e|]; cbn [res trace ctr app]; [|reflexivity].
  destruct e; cbn [Consumer.handler is_KeyboardInterrupt is_ZmqAgain
                   is_Exception print perform res trace ctr app];
    rewrite <- ?app_assoc; reflexivity.
Qed.

End Ends.

Example consumer_exits :
  Consumer.main plain polling
    {| Consumer.connect := Ok; Consumer.setsockopt := Ok; Consumer.events := [Consumer.Nothing] |}
  = Outcome [NewContext; NewSocket; Connect "tcp://localhost:15023";
             Subscribe; Print (LListening "tcp://localhost:15023");
             Print LWaiting; Print LNoMessages; Close; Term]
      0%Z (Returned tt)
  /\ Consumer.main plain saving
       {| Consumer.connect := Ok; Consumer.setsockopt := Ok;
          Consumer.events := [Consumer.Nothing; Consumer.Interrupt] |}
     = Outcome [NewContext; NewSocket; Connect "tcp://localhost:15023";
                Subscribe; Print (LListening "tcp://localhost:15023");
                Print LWaiting; Print LShutdown; Close; Term]
         0%Z (Returned tt)
  /\ Consumer.main plain saving
       {| Consumer.connect := Raises ZMQError; Consumer.setsockopt := Ok; Consumer.events := [] |}
     = Outcome [NewContext; NewSocket; Print (LError ZMQError); Close; Term]
         0%Z (Returned tt)
  /\ Consumer.main plain saving
       {| Consumer.connect := Ok; Consumer.setsockopt := Ok;
          Consumer.events := [Consumer.Message (bytes_of_string "{}")] |}
     = Outcome [NewContext; NewSocket; Connect "tcp://localhost:15023";
                Subscribe; Print (LListening "tcp://localhost:15023");
                Print LWaiting; Print (LHeader "00:00:00" 1)]
         1%Z Blocked.
Proof. vm_compute. repeat split. Qed.

(** C6, as it is stated, fails for the consumer that polls: with
    [--verbose] the receive does not block, and the first receive that
    finds the queue empty ends the loop and the run, with no interrupt. *)
Lemma loop_as_stated_fails :
  ~ (forall (P : platform) (a : Consumer.args) (w : Consumer.world),
        Consumer.connect w = Ok ->
        Consumer.setsockopt w = Ok ->
        forallb Ends.message_or_nothing (Consumer.events w) = true ->
        res (Consumer.main P a w) = Blocked).
Proof.
  intros H.
  specialize (H plain polling
                {| Consumer.connect := Ok; Consumer.setsockopt := Ok;
                   Consumer.events := [Consumer.Nothing] |}
                eq_refl eq_refl eq_refl).
  vm_compute in H. discriminate.
Qed.

(** C6, amended. Once connected, the consumer stays in its loop as long as
    it receives messages, whatever they hold, and as long as the receive
    that blocks waits on an empty queue: nothing but the operator's
    interrupt, or a failure of the transport, makes it leave. With
    [--verbose] the receive does not block, and the first one that finds
    the queue empty ends the run: the consumer prints that no messages are
    available, closes the socket and terminates the context. *)
Theorem loop_runs_on (P : platform) (a : Consumer.args) (w : Consumer.world)
        (rest : list Consumer.event) :
  Consumer.connect w = Ok ->
  Consumer.setsockopt w = Ok ->
  forallb (Ends.goes_on (Consumer.verbose a)) (Consumer.events w) = true ->
  res (Consumer.main P a w) = Blocked
  /\ (Consumer.verbose a = false
      \/ exists t,
          trace (Consumer.main P a
                   {| Consumer.connect := Ok; Consumer.setsockopt := Ok;
                      Consumer.events :=
                        Consumer.events w ++ Consumer.Nothing :: rest |})
          = t ++ [Print LNoMessages; Close; Term]
          /\ res (Consumer.main P a
                    {| Consumer.connect := Ok; Consumer.setsockopt := Ok;
                       Consumer.events :=
                         Consumer.events w ++ Consumer.Nothing :: rest |})
             = Returned tt).
Proof.
  intros Hc Hs Hev. split.
  - rewrite (Ends.consumer_main_unfold P a w Hc Hs). cbv zeta.
    rewrite (Ends.receive_loop_goes_on P a _ Hev). reflexivity.
  - destruct (Consumer.verbose a) eqn:Hv; [right|left; reflexivity].
    set (w' := {| Consumer.connect := Ok; Consumer.setsockopt := Ok;
                  Consumer.events :=
                    Consumer.events w ++ Consumer.Nothing :: rest |}).
    rewrite (Ends.consumer_main_unfold P a w' eq_refl eq_refl). cbv zeta.
    subst w'. cbn [Consumer.events].
    rewrite (Ends.receive_loop_again P a _ rest Hv Hev).
    cbn [is_KeyboardInterrupt is_ZmqAgain trace res].
    eexists. split; [|reflexivity].
    rewrite app_assoc. reflexivity.
Qed.

Lemma loop_runs_on_witness :
  res (Consumer.main plain saving
         {| Consumer.connect := Ok; Consumer.setsockopt := Ok;
            Consumer.events := [Consumer.Message (bytes_of_string "{oops");
                                Consumer.Nothing;
                                Consumer.Message (bytes_of_string "{}")] |})
  = Blocked.
Proof.
  apply (loop_runs_on plain saving
           {| Consumer.connect := Ok; Consumer.setsockopt := Ok;
              Consumer.events := [Consumer.Message (bytes_of_string "{oops");
                                  Consumer.Nothing;
                                  Consumer.Message (bytes_of_string "{}")] |}
           []); reflexivity.
Defined.

Module Release.

(** A program that opens a context and a socket and runs [m] between [try]
    and [finally]. *)
Lemma scoped_unfold (m final : M unit) (c : Z) :
  (perform NewContext;; perform NewSocket;; try_finally m final) c
  = match res (m c) with
    | Blocked => Outcome (NewContext :: NewSocket :: trace (m c)) (ctr (m c))
                         Blocked
    | _ =>
        Outcome (NewContext :: NewSocket
                 :: trace (m c) ++ trace (final (ctr (m c))))
                (ctr (final (ctr (m c))))
                match res (final (ctr (m c))) with
                | Returned _ => res (m c)
                | Raised e => Raised e
                | Blocked => Blocked
                end
    end.
Proof.
  rewrite !Laws.bind_perform. cbn [trace ctr res].
  rewrite Ends.try_finally_unfold.
  destruct (res (m c)) eqn:E; cbn [trace ctr res]; rewrite ?E; reflexivity.
Qed.






End Release.

(** The producer that sends its one message and stops, the one that is
    interrupted in its sleep, the one whose socket cannot be bound, the one
    whose send fails, and the one that is interrupted before its loop,
    whose handler fails on [message_count]. *)
Example producer_exits :
  Producer.main one_message
    {| Producer.bind_call := Ok;
       Producer.first_sleep := Ok;
       Producer.ticks := [some_tick Ok Ok] |}
  = Outcome [NewContext; NewSocket; Bind "tcp://*:15023";
             Print (PStarted "tcp://*:15023"); Print PPublishing;
             Print PPressCtrlC;
             Send (Producer.create_test_message 1 some_draws);
             Print (PSent 1); Close; Term; Print PStopped]
      1%Z (Returned tt)
  /\ Producer.main one_message
       {| Producer.bind_call := Ok;
          Producer.first_sleep := Ok;
          Producer.ticks := [some_tick Ok (Raises KeyboardInterrupt)] |}
     = Outcome [NewContext; NewSocket; Bind "tcp://*:15023";
                Print (PStarted "tcp://*:15023"); Print PPublishing;
                Print PPressCtrlC;
                Send (Producer.create_test_message 1 some_draws);
                Print (PSent 1); Print (PStopping 1);
                Close; Term; Print PStopped]
         1%Z (Returned tt)
  /\ Producer.main one_message
       {| Producer.bind_call := Raises ZMQError;
          Producer.first_sleep := Ok;
          Producer.ticks := [] |}
     = Outcome [NewContext; NewSocket; Print (LError ZMQError);
                Close; Term; Print PStopped]
         Producer.unbound (Returned tt)
  /\ Producer.main one_message
       {| Producer.bind_call := Ok;
          Producer.first_sleep := Ok;
          Producer.ticks := [some_tick (Raises ZMQError) Ok] |}
     = Outcome [NewContext; NewSocket; Bind "tcp://*:15023";
                Print (PStarted "tcp://*:15023"); Print PPublishing;
                Print PPressCtrlC; Print (LError ZMQError);
                Close; Term; Print PStopped]
         0%Z (Returned tt)
  /\ Producer.main one_message
       {| Producer.bind_call := Ok;
          Producer.first_sleep := Raises KeyboardInterrupt;
          Producer.ticks := [] |}
     = Outcome [NewContext; NewSocket; Bind "tcp://*:15023";
                Print (PStarted "tcp://*:15023"); Print PPublishing;
                Print PPressCtrlC; Close; Term; Print PStopped]
         Producer.unbound (Raised UnboundLocalError).
Proof. vm_compute. repeat split. Qed.


(** ** The lines of the metadata *)

Module Lines.
Import Consumer.

Section Silent.

(** The effects that one looks for in a trace. *)
Variable sel : effect -> bool.

(** A computation that has none of them. *)
Definition silent {A : Type} (m : M A) : Prop :=
  forall c, filter sel (trace (m c)) = [].

Lemma silent_ret {A : Type} (a : A) : silent (ret a).
Proof. intros c; reflexivity. Qed.

Lemma silent_raise {A : Type} (e : pyexn) : silent (@raise A e).
Proof. intros c; reflexivity. Qed.

Lemma silent_lift {A : Type} (x : pyexn + A) : silent (lift x).
Proof. destruct x; intros c; reflexivity. Qed.

Lemma silent_incr_counter : silent incr_counter.
Proof. intros c; reflexivity. Qed.

Lemma silent_get_counter : silent get_counter.
Proof. intros c; reflexivity. Qed.

Lemma silent_perform (e : effect) : sel e = false -> silent (perform e).
Proof. intros H c. cbn. now rewrite H. Qed.

Lemma silent_print (l : line) : sel (Print l) = false -> silent (print l).
Proof. apply silent_perform. Qed.

Lemma filter_bind {A B : Type} (m : M A) (k : A -> M B) (c : Z) :
  filter sel (trace (bind m k c))
  = filter sel (trace (m c))
    ++ match res (m c) with
       | Returned a => filter sel (trace (k a (ctr (m c))))
       | _ => []
       end.
Proof.
  rewrite Laws.bind_unfold.
  destruct (res (m c)); cbn [trace]; rewrite ?filter_app, ?app_nil_r;
    reflexivity.
Qed.

Lemma silent_bind {A B : Type} (m : M A) (k : A -> M B) :
  silent m -> (forall a, silent (k a)) -> silent (bind m k).
Proof.
  intros Hm Hk c. rewrite filter_bind, Hm.
  destruct (res (m c)); [apply Hk|reflexivity|reflexivity].
Qed.

Lemma silent_when (b : bool) (m : M unit) : silent m -> silent (when b m).
Proof. destruct b; intros H; [exact H|apply silent_ret]. Qed.

Lemma silent_try_except {A : Type} (m : M A) (h : pyexn -> M A) :
  silent m -> (forall e, silent (h e)) -> silent (try_except m h).
Proof.
  intros Hm Hh c. rewrite Laws.try_except_unfold.
  destruct (res (m c)) eqn:E; try apply Hm.
  cbn [trace]. rewrite filter_app, Hm, Hh. reflexivity.
Qed.

Ltac silent_seq :=
  repeat lazymatch goal with
         | |- silent (bind _ _) => apply silent_bind; [|intro]
         end;
  auto using silent_ret, silent_raise, silent_lift, silent_incr_counter,
    silent_get_counter, silent_perform, silent_print, silent_when.

Lemma silent_render_protocol (metadata : json) :
  (forall v, sel (Print (LProtocol v)) = false) ->
  silent (render_protocol metadata).
Proof. intros H. unfold render_protocol. silent_seq. Qed.

Lemma silent_render_frequency (P : platform) (metadata : json) :
  (forall v, sel (Print (LFrequency v)) = false) ->
  silent (render_frequency P metadata).
Proof. intros H. unfold render_frequency. silent_seq. Qed.

Lemma silent_render_timeslot (metadata : json) :
  (forall v, sel (Print (LTimeslot v)) = false) ->
  silent (render_timeslot metadata).
Proof. intros H. unfold render_timeslot. silent_seq. Qed.

Lemma silent_render_party (P : platform) (label : json -> json -> line)
      (key : string) (metadata : json) :
  (forall v w, sel (Print (label v w)) = false) ->
  silent (render_party P label key metadata).
Proof.
  intros H. unfold render_party.
  apply silent_bind; [apply silent_lift|intros info].
  destruct (truthy P info); silent_seq.
Qed.

Lemma silent_render_lcn (metadata : json) :
  (forall v, sel (Print (LLcn v)) = false) ->
  silent (render_lcn metadata).
Proof.
  intros H. unfold render_lcn.
  apply silent_bind; [apply silent_lift|intros lcn].
  destruct lcn; silent_seq.
Qed.

Lemma silent_save_block (P : platform) (stamp : number) (audio_b64 : json) :
  (forall w, sel (WriteWav w) = false) ->
  (forall f n, sel (Print (LSaved f n)) = false) ->
  (forall e, sel (Print (LAudioError e)) = false) ->
  silent (save_block P stamp audio_b64).
Proof.
  intros H1 H2 H3. unfold save_block, create_wave_file.
  apply silent_try_except.
  - silent_seq. destruct (disk_ok P _); silent_seq.
  - intros e. destruct (is_Exception e); silent_seq.
Qed.

End Silent.

Ltac silent_split :=
  repeat lazymatch goal with
         | |- silent _ (bind _ _) => apply silent_bind; [|intro]
         end.


Definition is_lcn (e : effect) : bool :=
  match e with
  | Print (LLcn _) => true
  | _ => false
  end.

Definition is_audio (e : effect) : bool :=
  match e with
  | WriteWav _ | Print (LSaved _ _) | Print (LAudioError _) => true
  | _ => false
  end.


Lemma bind_returned {A B : Type} (m : M A) (k : A -> M B) (c : Z) (b : B) :
  res (bind m k c) = Returned b ->
  exists a, res (m c) = Returned a /\ res (k a (ctr (m c))) = Returned b.
Proof.
  rewrite Laws.bind_unfold.
  destruct (res (m c)) as [a|e|]; cbn [res]; try discriminate. eauto.
Qed.




(** The line of the channel number among the lines of the metadata. *)
Definition lcn_lines (kvs : list (string * json)) : list effect :=
  match dict_get kvs "lcn" with
  | None | Some JNull => []
  | Some v => [Print (LLcn v)]
  end.

Lemma render_lcn_lines (kvs : list (string * json)) (c : Z) :
  filter is_lcn (trace (render_lcn (JObj kvs) c)) = lcn_lines kvs.
Proof.
  unfold render_lcn, lcn_lines. cbn [py_get]. rewrite Laws.bind_lift_inr.
  destruct (dict_get kvs "lcn") as [[]|]; reflexivity.
Qed.

Lemma render_metadata_lcn (P : platform) (kvs : list (string * json))
      (c : Z) :
  res (render_metadata P (JObj kvs) c) = Returned tt ->
  filter is_lcn (trace (render_metadata P (JObj kvs) c)) = lcn_lines kvs.
Proof.
  unfold render_metadata. intros H.
  repeat match type of H with
         | res (bind ?m ?k ?c) = Returned tt =>
             let a := fresh "u" in
             let Hm := fresh "Hm" in
             rewrite filter_bind;
             apply bind_returned in H; destruct H as [a [Hm H]];
             rewrite Hm; destruct a
         end.
  rewrite (silent_render_protocol is_lcn _ (fun _ => eq_refl)).
  rewrite (silent_render_frequency is_lcn _ _ (fun _ => eq_refl)).
  rewrite (silent_render_timeslot is_lcn _ (fun _ => eq_refl)).
  rewrite !(silent_render_party is_lcn) by reflexivity.
  cbn [app]. apply render_lcn_lines.
Qed.

(** What follows the lines of the metadata has no line of the metadata. *)
Lemma after_heading_filter (sel : effect -> bool) (P : platform) (a : args)
      (metadata audio_b64 : json) (stamp : number) (c : Z) :
  (forall w, sel (WriteWav w) = false) ->
  (forall f n, sel (Print (LSaved f n)) = false) ->
  (forall e, sel (Print (LAudioError e)) = false) ->
  (forall v, sel (Print (LRaw v)) = false) ->
  filter sel (trace (Turn.after_heading P a metadata audio_b64 stamp c))
  = filter sel (trace (render_metadata P metadata c)).
Proof.
  intros H1 H2 H3 H4. unfold Turn.after_heading. rewrite filter_bind.
  assert (Hrest : silent sel
                    (when (truthy P audio_b64 && save_audio a)
                          (save_block P stamp audio_b64);;
                     when (verbose a) (print (LRaw metadata)))).
  { silent_split;
      auto using silent_when, silent_save_block, silent_print. }
  destruct (res (render_metadata P metadata c));
    rewrite ?Hrest, app_nil_r; reflexivity.
Qed.

(** The turn of a message whose heading is printed. *)
Lemma process_message_filter (sel : effect -> bool) (P : platform) (a : args)
      (message_bytes : list byte) (doc : list (string * json))
      (x : number) (hms : string) (c : Z) :
  (forall s n, sel (Print (LHeader s n)) = false) ->
  (forall e, sel (Print (Turn.error_line e)) = false) ->
  read_document message_bytes = inr (JObj doc) ->
  as_number (Turn.field doc "timestamp" (JInt 0)) = Some x ->
  clock P x = inr hms ->
  filter sel (trace (process_message P a message_bytes c))
  = filter sel (trace (Turn.after_heading P a
                         (Turn.field doc "metadata" (JObj []))
                         (Turn.field doc "audio" (JStr EmptyString))
                         x (c + 1)%Z)).
Proof.
  intros H1 H2 Hd Hx Hc.
  rewrite (Turn.process_message_readable P a _ _ c Hd).
  rewrite Turn.process_document_object, Hx, Hc. cbv zeta.
  cbn [res trace ctr].
  destruct (res (Turn.after_heading P a _ _ x (c + 1)%Z));
    cbn [trace filter]; rewrite ?filter_app; cbn [filter];
    rewrite ?H1, ?H2, ?app_nil_r; reflexivity.
Qed.

End Lines.

(** The text of the line for a channel number that is an integer. *)
Definition lcn_text (lcn : Z) : string :=
  ("  LCN: " ++ py_str_int lcn)%string.

Example lcn_text_zero : lcn_text 0 = "  LCN: 0".
Proof. reflexivity. Qed.

(** C8. For every message that the consumer has read as a document whose
    heading it prints, whose metadata is a record and whose lines are
    printed without an error: when the record has no [lcn], or has
    [null] for it, the consumer prints no line for the channel number;
    when it has another value, 0 for instance, the consumer prints one line
    for the channel number, with this value. *)
Theorem lcn_distinguished (P : platform) (a : Consumer.args)
        (message_bytes : list byte) (doc kvs : list (string * json))
        (x : number) (hms : string) (c : Z) :
  Consumer.read_document message_bytes = inr (JObj doc) ->
  as_number (Turn.field doc "timestamp" (JInt 0)) = Some x ->
  clock P x = inr hms ->
  Turn.field doc "metadata" (JObj []) = JObj kvs ->
  res (Consumer.render_metadata P (JObj kvs) (c + 1)%Z) = Returned tt ->
  filter Lines.is_lcn (trace (Consumer.process_message P a message_bytes c))
  = match dict_get kvs "lcn" with
    | None | Some JNull => []
    | Some (JInt 0) => [Print (LLcn (JInt 0))]
    | Some lcn => [Print (LLcn lcn)]
    end.
Proof.
  intros Hd Hx Hc Hm Hr.
  rewrite (Lines.process_message_filter Lines.is_lcn P a _ doc x hms c)
    by (auto; intros e; unfold Turn.error_line;
        destruct (is_JSONDecodeError e); reflexivity).
  rewrite Lines.after_heading_filter by reflexivity.
  rewrite Hm, (Lines.render_metadata_lcn P kvs _ Hr).
  unfold Lines.lcn_lines.
  destruct (dict_get kvs "lcn") as [[| |[]| | | |]|]; reflexivity.
Qed.


Lemma lcn_distinguished_witness :
  filter Lines.is_lcn
    (trace (Consumer.process_message plain saving
              (bytes_of_string (dq "{'metadata': {'lcn': 0}}")) 0%Z))
  = [Print (LLcn (JInt 0))]
  /\ filter Lines.is_lcn
       (trace (Consumer.process_message plain saving
                 (bytes_of_string (dq "{'metadata': {'lcn': null}}")) 0%Z))
     = []
  /\ filter Lines.is_lcn
       (trace (Consumer.process_message plain saving
                 (bytes_of_string (dq "{'metadata': {'timeslot': 2}}")) 0%Z))
     = [].
Proof.
  split; [|split].
  - apply (lcn_distinguished plain saving _
             [("metadata", JObj [("lcn", JInt 0)])] [("lcn", JInt 0)]
             (NInt 0) "00:00:00" 0%Z); vm_compute; reflexivity.
  - apply (lcn_distinguished plain saving _
             [("metadata", JObj [("lcn", JNull)])] [("lcn", JNull)]
             (NInt 0) "00:00:00" 0%Z); vm_compute; reflexivity.
  - apply (lcn_distinguished plain saving _
             [("metadata", JObj [("timeslot", JInt 2)])] [("timeslot", JInt 2)]
             (NInt 0) "00:00:00" 0%Z); vm_compute; reflexivity.
Defined.


(** ** The audio behind its flag *)

Module Gate.
Import Consumer.

(** The audio field of a message, as line 59 reads it. *)
Definition audio_field (message_bytes : list byte) : json :=
  match read_document message_bytes with
  | inr (JObj doc) => Turn.field doc "audio" (JStr EmptyString)
  | _ => JStr EmptyString
  end.

Lemma dict_get_del (kvs : list (string * json)) (k k' : string) :
  String.eqb k k' = false ->
  dict_get (dict_del kvs k) k' = dict_get kvs k'.
Proof.
  intros H. induction kvs as [|[k0 v0] kvs IH]; [reflexivity|].
  cbn [dict_del dict_get].
  destruct (String.eqb k0 k) eqn:E0.
  - apply String.eqb_eq in E0. subst k0. rewrite H. reflexivity.
  - cbn [dict_get]. destruct (String.eqb k0 k'); [reflexivity|exact IH].
Qed.

(** Without the flag, or with an audio field that is empty, what follows
    the heading does not look at the audio. *)
Lemma after_heading_unsaved (P : platform) (a : args)
      (metadata audio_b64 audio' : json) (stamp : number) (c : Z) :
  save_audio a && truthy P audio_b64 = false ->
  save_audio a && truthy P audio' = false ->
  Turn.after_heading P a metadata audio_b64 stamp c
  = Turn.after_heading P a metadata audio' stamp c.
Proof.
  intros H H'. unfold Turn.after_heading.
  rewrite (Laws.bind_unfold (render_metadata P metadata)).
  rewrite (Laws.bind_unfold (render_metadata P metadata)).
  destruct (res (render_metadata P metadata c)); try reflexivity.
  rewrite !(Laws.bind_unfold (when _ _)).
  rewrite (andb_comm (truthy P audio_b64)), H.
  rewrite (andb_comm (truthy P audio')), H'. reflexivity.
Qed.

Lemma after_heading_no_audio (P : platform) (a : args)
      (metadata audio_b64 : json) (stamp : number) (c : Z) :
  save_audio a && truthy P audio_b64 = false ->
  filter Lines.is_audio
    (trace (Turn.after_heading P a metadata audio_b64 stamp c)) = [].
Proof.
  intros H. unfold Turn.after_heading.
  rewrite andb_comm in H. rewrite H. cbn [when].
  assert (Hs : Lines.silent Lines.is_audio
                 (render_metadata P metadata;;
                  ret tt;; when (verbose a) (print (LRaw metadata)))).
  { unfold render_metadata. Lines.silent_split;
      auto using Lines.silent_render_protocol, Lines.silent_render_frequency,
        Lines.silent_render_timeslot, Lines.silent_render_party,
        Lines.silent_render_lcn, Lines.silent_ret, Lines.silent_when,
        Lines.silent_print. }
  apply Hs.
Qed.

Lemma process_message_no_audio (P : platform) (a : args)
      (message_bytes : list byte) (c : Z) :
  save_audio a && truthy P (audio_field message_bytes) = false ->
  filter Lines.is_audio (trace (process_message P a message_bytes c)) = [].
Proof.
  unfold audio_field. intros H.
  assert (He : forall e, Lines.is_audio (Print (Turn.error_line e)) = false).
  { intros e. unfold Turn.error_line. destruct (is_JSONDecodeError e);
      reflexivity. }
  destruct (read_document message_bytes) as [e|message] eqn:E.
  { rewrite (Turn.process_message_unreadable P a _ e c E). cbn [trace filter].
    rewrite He. reflexivity. }
  rewrite (Turn.process_message_readable P a _ _ c E).
  pose proof (Turn.process_document_other P a message c) as Ho.
  destruct message as [|b|z|lit|s|l|doc];
    try (rewrite Ho; cbn [res trace app filter]; rewrite He; reflexivity).
  rewrite Turn.process_document_object.
  destruct (as_number (Turn.field doc "timestamp" (JInt 0))) as [x|];
    [|cbn [res trace app filter]; rewrite He; reflexivity].
  destruct (clock P x) as [se|hms];
    [cbn [res trace app filter]; rewrite He; reflexivity|].
  cbv zeta. cbn [res trace ctr].
  pose proof (after_heading_no_audio P a
                (Turn.field doc "metadata" (JObj []))
                (Turn.field doc "audio" (JStr EmptyString)) x (c + 1)%Z H)
    as Hn.
  set (r := Turn.after_heading P a _ _ x (c + 1)%Z) in *.
  change (Print (LHeader hms (c + 1)) :: trace r)
    with ([Print (LHeader hms (c + 1))] ++ trace r).
  destruct (res r); cbn [trace]; rewrite ?filter_app, Hn;
    cbn [filter app]; rewrite ?He; reflexivity.
Qed.

Lemma process_document_without_audio (P : platform) (a : args)
      (doc : list (string * json)) (c : Z) :
  save_audio a = false ->
  process_document P a (JObj doc) c
  = process_document P a (JObj (dict_del doc "audio")) c.
Proof.
  intros H. rewrite !Turn.process_document_object. unfold Turn.field.
  rewrite !dict_get_del by reflexivity.
  destruct (as_number _) as [x|]; [|reflexivity].
  destruct (clock P x) as [se|hms]; [reflexivity|].
  cbv zeta.
  rewrite (after_heading_unsaved P a _
             match dict_get doc "audio" with
             | Some v => v
             | None => JStr EmptyString
             end
             match dict_get (dict_del doc "audio") "audio" with
             | Some v => v
             | None => JStr EmptyString
             end x (c + 1)%Z) by (rewrite H; reflexivity).
  reflexivity.
Qed.

End Gate.

(** C10. A turn of the loop writes a file, or prints that it has saved one,
    or reports an error of the audio, only if the consumer was started with
    [--save-audio] and the audio field of the message is not empty: in the
    other cases the trace of the turn has none of the three. Without
    [--save-audio], a document is processed exactly as the same document
    without its audio field, whatever the field holds. *)
Theorem audio_gated (P : platform) (a : Consumer.args)
        (message_bytes : list byte) (c : Z) :
  Consumer.save_audio a
  && Consumer.truthy P (Gate.audio_field message_bytes) = false ->
  filter Lines.is_audio
    (trace (Consumer.process_message P a message_bytes c)) = []
  /\ (Consumer.save_audio a = true
      \/ forall (doc : list (string * json)) (c' : Z),
          Consumer.process_document P a (JObj doc) c'
          = Consumer.process_document P a (JObj (dict_del doc "audio")) c').
Proof.
  intros H. split; [now apply Gate.process_message_no_audio|].
  destruct (Consumer.save_audio a) eqn:Hs; [left; reflexivity|right].
  intros doc c'. now apply Gate.process_document_without_audio.
Qed.

Lemma audio_gated_witness :
  filter Lines.is_audio
    (trace (Consumer.process_message plain not_saving
              (bytes_of_string
                 (dq "{'audio': '[256, oops', 'metadata': {'lcn': 1}}"))
              0%Z)) = [].
Proof.
  apply (audio_gated plain not_saving
           (bytes_of_string
              (dq "{'audio': '[256, oops', 'metadata': {'lcn': 1}}")) 0%Z).
  reflexivity.
Defined.

Example audio_gated_ex :
  Consumer.process_message plain not_saving
    (bytes_of_string (dq "{'audio': '[256, oops', 'metadata': {'lcn': 1}}"))
    0%Z
  = Outcome [Print (LHeader "00:00:00" 1); Print (LLcn (JInt 1))]
            1%Z (Returned tt)
  /\ Consumer.process_message plain saving
       (bytes_of_string (dq "{'audio': '[256, oops', 'metadata': {'lcn': 1}}"))
       0%Z
     = Outcome [Print (LHeader "00:00:00" 1); Print (LLcn (JInt 1));
                Print (LAudioError BinasciiError)]
               1%Z (Returned tt)
  /\ Consumer.process_message plain saving
       (bytes_of_string (dq "{'audio': '', 'metadata': {'lcn': 1}}")) 0%Z
     = Outcome [Print (LHeader "00:00:00" 1); Print (LLcn (JInt 1))]
               1%Z (Returned tt).
Proof. vm_compute. repeat split. Qed.

(** * More of the two programs *)

(** ** Integers and their decimal texts *)

Module Decimals.
Import Json.

(** What may follow the digits of a number for the number to end there. *)
Definition ends_number (rest : string) : bool :=
  match rest with
  | EmptyString => true
  | String c _ =>
      negb (is_digit c || Ascii.eqb c "." || Ascii.eqb c "e"
            || Ascii.eqb c "E")
  end.

Definition uint_text : Decimal.uint -> string := NilEmpty.string_of_uint.

Lemma span_digits_uint (d : Decimal.uint) (rest : string) :
  ends_number rest = true ->
  span_digits (uint_text d ++ rest) = (uint_text d, rest).
Proof.
  intros H. induction d; cbn [uint_text NilEmpty.string_of_uint append];
    try (change (span_digits (String ?c ?r))
           with (let (ds, k) := span_digits r in (String c ds, k));
         fold uint_text; rewrite IHd; reflexivity).
  destruct rest as [|c r]; [reflexivity|]. cbn [span_digits].
  cbn [ends_number] in H. destruct (is_digit c); [discriminate|reflexivity].
Qed.

Lemma digits_value_acc (d : Decimal.uint) (acc : positive) :
  digits_value (Npos acc) (uint_text d) = Npos (Pos.of_uint_acc d acc).
Proof.
  revert acc.
  induction d; intros acc;
    cbn [uint_text NilEmpty.string_of_uint digits_value Pos.of_uint_acc];
    [reflexivity|..]; fold uint_text;
    match goal with
    | |- digits_value ?x _ = Npos (Pos.of_uint_acc _ ?y) =>
        replace x with (Npos y)
          by (unfold code; simpl N_of_ascii; lia)
    end; apply IHd.
Qed.

Lemma digits_value_uint (d : Decimal.uint) :
  digits_value 0 (uint_text d) = Pos.of_uint d.
Proof.
  induction d;
    cbn [uint_text NilEmpty.string_of_uint digits_value Pos.of_uint];
    [reflexivity|exact IHd|..]; fold uint_text;
    match goal with
    | |- digits_value ?x _ = Npos (Pos.of_uint_acc _ ?y) =>
        replace x with (Npos y)
          by (unfold code; simpl N_of_ascii; lia)
    end; apply digits_value_acc.
Qed.

Lemma to_uint_head (p : positive) (l : Decimal.uint) :
  Pos.to_uint p <> Decimal.D0 l.
Proof.
  intros E.
  pose proof (DecimalPos.Unsigned.to_of (Pos.to_uint p)) as H.
  rewrite DecimalPos.Unsigned.of_to in H. cbn [N.to_uint] in H.
  rewrite E in H. unfold Decimal.unorm in H. rewrite DecimalFacts.nzhead_D0 in H.
  destruct (Decimal.nzhead l) eqn:En; try discriminate.
  - inversion H; subst. apply (DecimalPos.Unsigned.to_uint_nonzero p E).
  - apply (DecimalFacts.nzhead_nonzero _ _ En).
Qed.

(** The text of a natural number. *)
Definition nat_text (n : N) : string := py_str_int (Z.of_N n).

Lemma nat_text_pos (p : positive) : nat_text (Npos p) = uint_text (Pos.to_uint p).
Proof.
  unfold nat_text, py_str_int. cbn [Z.of_N Z.to_int NilZero.string_of_int].
  unfold NilZero.string_of_uint.
  destruct (Pos.to_uint p) eqn:E; try reflexivity.
  exfalso. apply (DecimalPos.Unsigned.to_uint_nonnil p E).
Qed.

(** The digits of a number are its value. *)
Lemma digits_value_nat_text (n : N) : digits_value 0 (nat_text n) = n.
Proof.
  destruct n as [|p]; [reflexivity|].
  rewrite nat_text_pos, digits_value_uint.
  apply DecimalPos.Unsigned.of_to.
Qed.

Lemma is_digit_inv (c : ascii) :
  is_digit c = true ->
  In c ["0"; "1"; "2"; "3"; "4"; "5"; "6"; "7"; "8"; "9"]%char.
Proof.
  destruct c as [[] [] [] [] [] [] [] []]; intros H;
    try discriminate H; cbn; tauto.
Qed.

Lemma uint_text_digit (d : Decimal.uint) :
  d <> Decimal.Nil ->
  exists c r, uint_text d = String c r /\ is_digit c = true.
Proof.
  destruct d; intros H; [contradiction|..];
    cbn [uint_text NilEmpty.string_of_uint]; eexists; eexists;
    (split; [reflexivity|reflexivity]).
Qed.

Lemma nat_text_digit (n : N) :
  exists c r, nat_text n = String c r /\ is_digit c = true.
Proof.
  destruct n as [|p]; [exists "0"%char, EmptyString; split; reflexivity|].
  rewrite nat_text_pos. apply uint_text_digit.
  apply DecimalPos.Unsigned.to_uint_nonnil.
Qed.

Lemma scan_int_part_nat (n : N) (rest : string) :
  ends_number rest = true ->
  scan_int_part (nat_text n ++ rest) = Some (nat_text n, rest).
Proof.
  intros H. destruct n as [|p]; [reflexivity|].
  rewrite nat_text_pos.
  pose proof (DecimalPos.Unsigned.to_uint_nonnil p) as Hn.
  pose proof (to_uint_head p) as Hh.
  destruct (Pos.to_uint p) as [|l|l|l|l|l|l|l|l|l|l];
    [contradiction|exfalso; apply (Hh l eq_refl)|..];
    cbn [uint_text NilEmpty.string_of_uint append];
    fold uint_text; unfold scan_int_part;
    match goal with
    | |- context [Ascii.eqb ?c "0"] =>
        change (Ascii.eqb c "0") with false;
        change (is_digit c) with true
    end; cbv iota; rewrite (span_digits_uint l rest H); reflexivity.
Qed.

Lemma scan_number_nat (n : N) (rest : string) :
  ends_number rest = true ->
  scan_number (nat_text n ++ rest) = Done (JInt (Z.of_N n)) rest
  /\ scan_number (String "-" (nat_text n ++ rest))
     = Done (JInt (- Z.of_N n)) rest.
Proof.
  intros H.
  assert (Hf : scan_frac rest = (EmptyString, rest)).
  { unfold scan_frac. destruct rest as [|c r]; [reflexivity|].
    cbn [ends_number] in H. cbn [next_is].
    destruct (Ascii.eqb c "."); [|reflexivity].
    rewrite orb_true_r in H. discriminate. }
  assert (He : scan_exp rest = (EmptyString, rest)).
  { unfold scan_exp. destruct rest as [|c r]; [reflexivity|].
    cbn [ends_number] in H.
    destruct (Ascii.eqb c "e"); [rewrite ?orb_true_r in H; discriminate|].
    destruct (Ascii.eqb c "E"); [rewrite ?orb_true_r in H; discriminate|].
    reflexivity. }
  destruct (nat_text_digit n) as (c & r & E & Hc).
  assert (Hm : next_is "-" (nat_text n ++ rest) = None).
  { rewrite E. cbn [append next_is].
    apply is_digit_inv in Hc. cbn in Hc.
    repeat (destruct Hc as [<-|Hc]; [reflexivity|]). contradiction. }
  split; unfold scan_number.
  - rewrite Hm, (scan_int_part_nat n rest H), Hf, He.
    rewrite digits_value_nat_text. reflexivity.
  - cbn [next_is]. change (Ascii.eqb "-" "-") with true. cbv iota.
    rewrite (scan_int_part_nat n rest H), Hf, He.
    rewrite digits_value_nat_text. reflexivity.
Qed.

Lemma py_str_int_cases (z : Z) :
  (0 <= z)%Z /\ py_str_int z = nat_text (Z.to_N z)
  \/ (z < 0)%Z /\ py_str_int z = String "-" (nat_text (Z.to_N (- z))).
Proof.
  destruct z as [|p|p].
  - left. split; [lia|reflexivity].
  - left. split; [lia|reflexivity].
  - right. split; [lia|]. cbn [Z.opp Z.to_N]. rewrite nat_text_pos.
    unfold py_str_int. cbn [Z.to_int NilZero.string_of_int].
    unfold NilZero.string_of_uint.
    pose proof (DecimalPos.Unsigned.to_uint_nonnil p) as Hn.
    destruct (Pos.to_uint p); [contradiction|reflexivity..].
Qed.

(** The text of an integer is read back as the integer, up to what
    follows it. *)
Lemma scan_number_int (z : Z) (rest : string) :
  ends_number rest = true ->
  scan_number (py_str_int z ++ rest) = Done (JInt z) rest.
Proof.
  intros H. destruct (py_str_int_cases z) as [[L E]|[L E]]; rewrite E.
  - rewrite (proj1 (scan_number_nat _ rest H)), Z2N.id by exact L.
    reflexivity.
  - cbn [append]. rewrite (proj2 (scan_number_nat _ rest H)).
    rewrite Z2N.id by lia. f_equal. f_equal. lia.
Qed.

Lemma scan_once_digit (fuel : nat) (c : ascii) (r : string) :
  is_digit c = true ->
  scan_once (S fuel) (String c r) = scan_number (String c r).
Proof.
  intros H. apply is_digit_inv in H. cbn in H.
  repeat (destruct H as [<-|H]; [reflexivity|]). contradiction.
Qed.

Lemma scan_once_minus (fuel : nat) (c : ascii) (r : string) :
  is_digit c = true ->
  scan_once (S fuel) (String "-" (String c r))
  = scan_number (String "-" (String c r)).
Proof.
  intros H. apply is_digit_inv in H. cbn in H.
  repeat (destruct H as [<-|H]; [reflexivity|]). contradiction.
Qed.

Lemma scan_once_int (fuel : nat) (z : Z) (rest : string) :
  ends_number rest = true ->
  scan_once (S fuel) (py_str_int z ++ rest) = Done (JInt z) rest.
Proof.
  intros H. rewrite <- (scan_number_int z rest H).
  destruct (py_str_int_cases z) as [[L E]|[L E]]; rewrite E;
    destruct (nat_text_digit (Z.to_N z)) as (c & r & E' & Hc);
    destruct (nat_text_digit (Z.to_N (- z))) as (c' & r' & E'' & Hc').
  - rewrite E'. cbn [append]. now apply scan_once_digit.
  - rewrite E''. cbn [append]. now apply scan_once_minus.
Qed.

End Decimals.

Example dumps_ex1 :
  Wire.dumps (fun lit => lit) (Producer.create_test_message 1 some_draws)
  = dq "{'audio': '[0, 1]', 'metadata': {'protocol': 'DMR', 'timeslot': 1, 'frequency': 462700000, 'from': {'id': 12345, 'alias': 'Unit 7'}, 'to': {'id': 100, 'alias': 'TG Fire'}, 'lcn': 5}, 'timestamp': 3723000}".
Proof. vm_compute. reflexivity. Qed.

Example dumps_ex2 :
  Wire.dumps (fun lit => lit)
    (JArr [JStr (String dquote (String "\" (String (ascii_of_N 10)
                   (String (ascii_of_N 1) (chr 233 ++ chr 0x20AC
                                           ++ chr 0x1F600)))));
           JObj []; JArr []; JNull; JBool true; JInt (-12)])
  = String "[" (String dquote (String "\" (String dquote
      ("\\\n\u0001\u00e9\u20ac\ud83d\ude00"
       ++ String dquote ", {}, [], null, true, -12]"))))
  /\ Consumer.read_document
       (Wire.wire (fun lit => lit)
          (JArr [JStr (String dquote (String "\" (String (ascii_of_N 10)
                   (String (ascii_of_N 1) (chr 233 ++ chr 0x20AC
                                           ++ chr 0x1F600)))));
                 JObj []; JArr []; JNull; JBool true; JInt (-12)]))
     = inr (JArr [JStr (String dquote (String "\" (String (ascii_of_N 10)
                   (String (ascii_of_N 1) (chr 233 ++ chr 0x20AC
                                           ++ chr 0x1F600)))));
                  JObj []; JArr []; JNull; JBool true; JInt (-12)]).
Proof. vm_compute. split; reflexivity. Qed.

(** ** What is sent is what is read *)

Module WireFacts.
Import Json Wire.

Definition isascii := Base64.isascii.

(** Keys that are all different. *)
Fixpoint unique (keys : list string) : bool :=
  match keys with
  | [] => true
  | k :: r => negb (existsb (String.eqb k) r) && unique r
  end.

(** The documents of the wire: no float, texts and keys in ASCII, no key
    twice in a record. *)
Fixpoint tidy (v : json) : bool :=
  match v with
  | JFloat _ => false
  | JStr s => isascii s
  | JArr items => forallb tidy items
  | JObj kvs =>
      forallb (fun kv => isascii (fst kv) && tidy (snd kv)) kvs
      && unique (map fst kvs)
  | _ => true
  end.

(** What may follow a value: nothing, a comma, or the end of a list or of
    a record. *)
Definition closes (rest : string) : bool :=
  match rest with
  | EmptyString => true
  | String c _ => Ascii.eqb c "," || Ascii.eqb c "]" || Ascii.eqb c "}"
  end.

Lemma closes_ends_number (rest : string) :
  closes rest = true -> Decimals.ends_number rest = true.
Proof.
  destruct rest as [|c r]; [reflexivity|]. cbn [closes]. intros H.
  apply orb_prop in H. destruct H as [H|H];
    [apply orb_prop in H; destruct H as [H|H]|];
    apply Ascii.eqb_eq in H; subst c; reflexivity.
Qed.

Lemma closes_skip_ws (rest : string) :
  closes rest = true -> skip_ws rest = rest.
Proof.
  destruct rest as [|c r]; [reflexivity|]. cbn [closes]. intros H.
  apply orb_prop in H. destruct H as [H|H];
    [apply orb_prop in H; destruct H as [H|H]|];
    apply Ascii.eqb_eq in H; subst c; reflexivity.
Qed.

Lemma append_nil_r (s : string) : (s ++ EmptyString)%string = s.
Proof. induction s as [|c s IH]; simpl; [reflexivity|now rewrite IH]. Qed.

Lemma isascii_append (s t : string) :
  isascii (s ++ t) = isascii s && isascii t.
Proof.
  induction s as [|c s IH]; [reflexivity|].
  cbn [append isascii Base64.isascii]. fold isascii.
  rewrite IH, andb_assoc. reflexivity.
Qed.

(** *** Texts *)

Definition escaped (s : string) : string := escapes (code_points s).

Lemma escaped_cons (c : ascii) (r : string) :
  (code c <? 128)%N = true ->
  escaped (String c r) = (escape (code c) ++ escaped r)%string.
Proof.
  intros H. unfold escaped. cbn [code_points]. cbv zeta.
  change 0x80%N with 128%N. rewrite H. reflexivity.
Qed.

(** One character of ASCII, as it is written and read back. *)
Lemma scanstring_escape (c : ascii) (k : string) :
  (code c <? 128)%N = true ->
  scanstring (escape (code c) ++ k)
  = match scanstring k with
    | Some (t, k') => Some (String c t, k')
    | None => None
    end
  /\ isascii (escape (code c)) = true.
Proof.
  destruct c as [[] [] [] [] [] [] [] []]; intros H;
    try discriminate H; split; reflexivity.
Qed.

Lemma scanstring_escaped (s rest : string) :
  isascii s = true ->
  scanstring (escaped s ++ String dquote rest) = Some (s, rest)
  /\ isascii (escaped s) = true.
Proof.
  induction s as [|c s IH]; intros H.
  - split; reflexivity.
  - cbn [isascii Base64.isascii] in H. apply andb_prop in H.
    destruct H as [Hc Hs]. destruct (IH Hs) as [IH1 IH2].
    rewrite (escaped_cons c s Hc), ArrayForm.append_assoc.
    destruct (scanstring_escape c (escaped s ++ String dquote rest) Hc)
      as [E1 E2].
    split.
    + rewrite E1, IH1. reflexivity.
    + rewrite isascii_append, E2, IH2. reflexivity.
Qed.

(** *** Values *)

Section RoundTrip.

Variable float_repr : string -> string.

Local Abbreviation dumps := (Wire.dumps float_repr).

(** A text that starts a value: its first character is not white space
    and does not end a list or a record. *)
Definition opens (s : string) : Prop :=
  exists c r, s = String c r /\ is_ws c = false
              /\ Ascii.eqb c "]" = false /\ Ascii.eqb c "}" = false.

Lemma opens_append (s r : string) :
  opens s ->
  skip_ws (s ++ r) = (s ++ r)%string
  /\ next_is "]" (s ++ r) = None /\ next_is "}" (s ++ r) = None.
Proof.
  intros (c & r' & -> & H1 & H2 & H3). cbn [append skip_ws next_is].
  rewrite H1, H2, H3. auto.
Qed.

Lemma digit_opens (c : ascii) (r : string) :
  is_digit c = true -> opens (String c r).
Proof.
  intros H. exists c, r. apply Decimals.is_digit_inv in H. cbn in H.
  repeat (destruct H as [<-|H]; [repeat split; reflexivity|]).
  contradiction.
Qed.

Lemma py_str_int_opens (z : Z) : opens (py_str_int z).
Proof.
  destruct (Decimals.py_str_int_cases z) as [[_ E]|[_ E]]; rewrite E.
  - destruct (Decimals.nat_text_digit (Z.to_N z)) as (c & r & -> & H).
    now apply digit_opens.
  - eexists; eexists. repeat split; reflexivity.
Qed.

Lemma dumps_opens (v : json) : tidy v = true -> opens (dumps v).
Proof.
  destruct v as [|b|z|lit|s|items|kvs]; cbn [tidy Wire.dumps]; intros H;
    try discriminate H;
    try (eexists; eexists; repeat split; reflexivity).
  - destruct b; eexists; eexists; repeat split; reflexivity.
  - apply py_str_int_opens.
Qed.

Lemma join_step (x : string) (xs : list string) (t : string) :
  (join ", " (x :: xs) ++ t)%string
  = (x ++ match xs with
          | [] => t
          | _ :: _ => String "," (String " " (join ", " xs ++ t))
          end)%string.
Proof.
  destruct xs; cbn [join]; [reflexivity|].
  rewrite !ArrayForm.append_assoc. reflexivity.
Qed.

(** The scanner has no fuel left, or it has read [v] and left [rest]. *)
Definition reads (x : scanned json) (v : json) (rest : string) : Prop :=
  x = NoFuel \/ x = Done v rest.

Definition member_text (kv : string * json) : string :=
  (py_encode_basestring_ascii (fst kv) ++ ": " ++ dumps (snd kv))%string.

Definition tidy_member (kv : string * json) : bool :=
  isascii (fst kv) && tidy (snd kv).

Lemma dict_set_fresh (acc : list (string * json)) (k : string) (v : json) :
  existsb (String.eqb k) (map fst acc) = false ->
  dict_set acc k v = acc ++ [(k, v)].
Proof.
  induction acc as [|[k0 v0] acc IH]; cbn [map fst existsb dict_set app];
    [reflexivity|].
  intros H. apply orb_false_elim in H. destruct H as [H1 H2].
  rewrite String.eqb_sym, H1, (IH H2). reflexivity.
Qed.

Lemma unique_app_cons (acc : list string) (k : string) (l : list string) :
  unique (acc ++ k :: l) = true ->
  existsb (String.eqb k) acc = false /\ unique ((acc ++ [k]) ++ l) = true.
Proof.
  intros H. split.
  - induction acc as [|a acc IH]; [reflexivity|].
    cbn [app unique existsb] in *. apply andb_prop in H.
    destruct H as [H1 H2]. rewrite (IH H2), orb_false_r.
    rewrite existsb_app in H1. cbn [existsb] in H1.
    destruct (String.eqb a k) eqn:E; [|now rewrite String.eqb_sym, E].
    rewrite orb_true_r in H1. discriminate.
  - rewrite <- app_assoc. exact H.
Qed.

Lemma scan_round_trip (fuel : nat) :
  (forall v rest,
      tidy v = true -> closes rest = true ->
      reads (scan_once fuel (dumps v ++ rest)) v rest)
  /\ (forall v items acc rest,
        forallb tidy (v :: items) = true -> closes rest = true ->
        reads (scan_items fuel acc
                 ((join ", " (map dumps (v :: items)) ++ "]") ++ rest))
              (JArr (rev acc ++ v :: items)) rest)
  /\ (forall kv kvs acc rest,
        forallb tidy_member (kv :: kvs) = true ->
        unique (map fst (acc ++ kv :: kvs)) = true ->
        closes rest = true ->
        reads (scan_members fuel acc
                 ((join ", " (map member_text (kv :: kvs)) ++ "}") ++ rest))
              (JObj (acc ++ kv :: kvs)) rest).
Proof.
  induction fuel as [|fuel (IHo & IHi & IHm)];
    [repeat split; intros; left; reflexivity|].
  split; [|split].
  - (* one value *)
    intros v rest Hv Hr.
    destruct v as [|b|z|lit|s|items|kvs]; cbn [tidy] in Hv;
      try discriminate Hv.
    + right. reflexivity.
    + right. destruct b; reflexivity.
    + right. cbn [Wire.dumps].
      destruct fuel; apply Decimals.scan_once_int;
        now apply closes_ends_number.
    + right. cbn [Wire.dumps]. unfold py_encode_basestring_ascii.
      cbn [append]. rewrite ArrayForm.append_assoc. cbn [append scan_once].
      change (Ascii.eqb dquote dquote) with true. cbv iota.
      fold (escaped s).
      rewrite (proj1 (scanstring_escaped s rest Hv)). reflexivity.
    + destruct items as [|v items]; [right; reflexivity|].
      change (dumps (JArr (v :: items)))
        with (String "[" (join ", " (map dumps (v :: items)) ++ "]")).
      cbn [append scan_once].
      change (Ascii.eqb "[" dquote) with false.
      change (Ascii.eqb "[" "{") with false.
      change (Ascii.eqb "[" "[") with true. cbv iota.
      assert (Ho : opens (join ", " (map dumps (v :: items)) ++ "]")).
      { cbn [map]. rewrite join_step.
        cbn [forallb] in Hv. apply andb_prop in Hv.
        destruct (dumps_opens v (proj1 Hv)) as (c & r & -> & H).
        exists c. eexists. split; [reflexivity|exact H]. }
      destruct (opens_append _ rest Ho) as (-> & -> & _).
      destruct (IHi v items [] rest Hv Hr) as [E|E]; rewrite E;
        [left|right]; reflexivity.
    + destruct kvs as [|kv kvs]; [right; reflexivity|].
      change (dumps (JObj (kv :: kvs)))
        with (String "{" (join ", " (map member_text (kv :: kvs)) ++ "}")).
      cbn [append scan_once].
      change (Ascii.eqb "{" dquote) with false.
      change (Ascii.eqb "{" "{") with true. cbv iota.
      assert (Ho : opens (join ", " (map member_text (kv :: kvs)) ++ "}")).
      { cbn [map]. rewrite join_step. unfold member_text at 1.
        unfold py_encode_basestring_ascii. cbn [append].
        eexists; eexists. repeat split; reflexivity. }
      destruct (opens_append _ rest Ho) as (-> & _ & ->).
      apply andb_prop in Hv. destruct Hv as [Hm Hu].
      destruct (IHm kv kvs [] rest Hm Hu Hr) as [E|E]; rewrite E;
        [left|right]; reflexivity.
  - (* the items of a list *)
    intros v items acc rest Hv Hr. cbn [scan_items map].
    rewrite join_step, ArrayForm.append_assoc.
    cbn [forallb] in Hv. apply andb_prop in Hv. destruct Hv as [Hv Hl].
    set (tail := (match map dumps items with
                  | [] => "]"
                  | _ :: _ => String "," (String " "
                                (join ", " (map dumps items) ++ "]"))
                  end ++ rest)%string).
    assert (Ht : closes tail = true)
      by (subst tail; destruct (map dumps items); reflexivity).
    destruct (IHo v tail Hv Ht) as [E|E]; rewrite E; [left; reflexivity|].
    rewrite (closes_skip_ws tail Ht). subst tail.
    destruct items as [|v2 items]; cbn [map append next_is].
    + right. change (Ascii.eqb "]" "]") with true. cbv iota.
      reflexivity.
    + change (Ascii.eqb "," "]") with false.
      change (Ascii.eqb "," ",") with true. cbv iota.
      change (skip_ws (String " " ?k)) with (skip_ws k).
      assert (Ho : opens (join ", " (dumps v2 :: map dumps items) ++ "]")).
      { rewrite join_step.
        cbn [forallb] in Hl. apply andb_prop in Hl.
        destruct (dumps_opens v2 (proj1 Hl)) as (c & r & -> & H).
        exists c. eexists. split; [reflexivity|exact H]. }
      destruct (opens_append _ rest Ho) as (-> & _ & _).
      destruct (IHi v2 items (v :: acc) rest Hl Hr) as [E'|E'];
        cbn [map] in E'; rewrite E'; [left; reflexivity|right].
      cbn [rev]. rewrite <- app_assoc. reflexivity.
  - (* the members of a record *)
    intros [k v] kvs acc rest Hv Hu Hr. cbn [scan_members map].
    rewrite join_step, ArrayForm.append_assoc. unfold member_text at 1.
    cbn [fst snd]. unfold py_encode_basestring_ascii.
    cbn [append next_is]. change (Ascii.eqb dquote dquote) with true.
    cbv iota. rewrite !ArrayForm.append_assoc. cbn [append].
    cbn [forallb] in Hv. apply andb_prop in Hv. destruct Hv as [Hkv Hl].
    unfold tidy_member in Hkv. cbn [fst snd] in Hkv.
    apply andb_prop in Hkv. destruct Hkv as [Hk Hv].
    fold (escaped k).
    rewrite (proj1 (scanstring_escaped k _ Hk)).
    change (skip_ws (String ":" ?x)) with (String ":" x).
    cbn [next_is]. change (Ascii.eqb ":" ":") with true. cbv iota.
    change (skip_ws (String " " ?x)) with (skip_ws x).
    set (tail := (match map member_text kvs with
                  | [] => "}"
                  | _ :: _ => String "," (String " "
                                (join ", " (map member_text kvs) ++ "}"))
                  end ++ rest)%string).
    assert (Ht : closes tail = true)
      by (subst tail; destruct (map member_text kvs); reflexivity).
    destruct (opens_append _ tail (dumps_opens v Hv)) as (-> & _ & _).
    destruct (IHo v tail Hv Ht) as [E|E]; rewrite E; [left; reflexivity|].
    rewrite (closes_skip_ws tail Ht). subst tail.
    rewrite map_app in Hu. cbn [map fst] in Hu.
    destruct (unique_app_cons _ _ _ Hu) as [Hf Hu'].
    rewrite (dict_set_fresh acc k v Hf).
    destruct kvs as [|kv2 kvs]; cbn [map append next_is].
    + right. change (Ascii.eqb "}" "}") with true. cbv iota. reflexivity.
    + change (Ascii.eqb "," "}") with false.
      change (Ascii.eqb "," ",") with true. cbv iota.
      change (skip_ws (String " " ?x)) with (skip_ws x).
      assert (Ho : opens (join ", " (member_text kv2 :: map member_text kvs)
                          ++ "}")).
      { rewrite join_step. unfold member_text at 1.
        unfold py_encode_basestring_ascii. cbn [append].
        eexists; eexists. repeat split; reflexivity. }
      destruct (opens_append _ rest Ho) as (-> & _ & _).
      assert (Hu2 : unique (map fst ((acc ++ [(k, v)]) ++ kv2 :: kvs)) = true).
      { rewrite !map_app in *. cbn [map fst] in *. exact Hu'. }
      destruct (IHm kv2 kvs (acc ++ [(k, v)]) rest Hl Hu2 Hr) as [E'|E'];
        cbn [map] in E'; rewrite E'; [left; reflexivity|right].
      rewrite <- app_assoc. reflexivity.
Qed.

(** Induction on documents, with the hypothesis on every item of a list
    and on every value of a record. *)
Section Documents.

Variable P : json -> Prop.
Hypothesis Hnull : P JNull.
Hypothesis Hbool : forall b, P (JBool b).
Hypothesis Hint : forall z, P (JInt z).
Hypothesis Hfloat : forall lit, P (JFloat lit).
Hypothesis Hstr : forall s, P (JStr s).
Hypothesis Harr : forall items, Forall P items -> P (JArr items).
Hypothesis Hobj :
  forall kvs, Forall (fun kv => P (snd kv)) kvs -> P (JObj kvs).

Fixpoint document_ind (v : json) : P v :=
  match v with
  | JNull => Hnull
  | JBool b => Hbool b
  | JInt z => Hint z
  | JFloat lit => Hfloat lit
  | JStr s => Hstr s
  | JArr items =>
      Harr items
        ((fix all (l : list json) : Forall P l :=
            match l with
            | [] => Forall_nil _
            | x :: r => Forall_cons x (document_ind x) (all r)
            end) items)
  | JObj kvs =>
      Hobj kvs
        ((fix all (l : list (string * json))
            : Forall (fun kv => P (snd kv)) l :=
            match l with
            | [] => Forall_nil _
            | kv :: r =>
                Forall_cons (P := fun kv => P (snd kv)) kv
                            (document_ind (snd kv)) (all r)
            end) kvs)
  end.

End Documents.

Lemma uint_text_isascii (d : Decimal.uint) :
  isascii (Decimals.uint_text d) = true.
Proof.
  induction d; cbn [Decimals.uint_text NilEmpty.string_of_uint];
    [reflexivity|exact IHd..].
Qed.

Lemma nat_text_isascii (n : N) : isascii (Decimals.nat_text n) = true.
Proof.
  destruct n as [|p]; [reflexivity|].
  rewrite Decimals.nat_text_pos. apply uint_text_isascii.
Qed.

Lemma py_str_int_isascii (z : Z) : isascii (py_str_int z) = true.
Proof.
  destruct (Decimals.py_str_int_cases z) as [[_ E]|[_ E]]; rewrite E.
  - apply nat_text_isascii.
  - cbn [isascii Base64.isascii]. apply nat_text_isascii.
Qed.

Lemma join_isascii (xs : list string) :
  forallb isascii xs = true -> isascii (join ", " xs) = true.
Proof.
  induction xs as [|x xs IH]; [reflexivity|].
  cbn [forallb]. intros H. apply andb_prop in H. destruct H as [Hx Hxs].
  destruct xs as [|y xs]; [exact Hx|].
  change (join ", " (x :: y :: xs))
    with (x ++ ", " ++ join ", " (y :: xs))%string.
  rewrite !isascii_append, Hx, (IH Hxs). reflexivity.
Qed.

Lemma encoded_isascii (s : string) :
  isascii s = true -> isascii (py_encode_basestring_ascii s) = true.
Proof.
  intros H. unfold py_encode_basestring_ascii.
  change (String dquote ?k) with (String dquote EmptyString ++ k)%string.
  fold (escaped s).
  rewrite !isascii_append, (proj2 (scanstring_escaped s EmptyString H)).
  reflexivity.
Qed.

(** The text of a tidy document is ASCII. *)
Lemma dumps_isascii (v : json) : tidy v = true -> isascii (dumps v) = true.
Proof.
  induction v as [|b|z|lit|s|items IH|kvs IH] using document_ind;
    cbn [tidy Wire.dumps]; intros H; try discriminate H.
  - reflexivity.
  - destruct b; reflexivity.
  - apply py_str_int_isascii.
  - now apply encoded_isascii.
  - rewrite !isascii_append.
    change (isascii "[") with true. change (isascii "]") with true.
    rewrite andb_true_r. cbn [andb].
    apply join_isascii.
    induction IH as [|x l Hx _ IHl]; [reflexivity|].
    cbn [forallb map] in *. apply andb_prop in H. destruct H as [H1 H2].
    rewrite (Hx H1), (IHl H2). reflexivity.
  - rewrite !isascii_append.
    change (isascii "{") with true. change (isascii "}") with true.
    rewrite andb_true_r. cbn [andb].
    apply andb_prop in H. destruct H as [H _].
    apply join_isascii.
    induction IH as [|[k x] l Hx _ IHl]; [reflexivity|].
    cbn [forallb map fst snd] in *.
    apply andb_prop in H. destruct H as [H1 H2].
    apply andb_prop in H1. destruct H1 as [Hk H1].
    rewrite !isascii_append, (encoded_isascii k Hk), (Hx H1), (IHl H2).
    reflexivity.
Qed.

(** [json.loads] reads the text of a tidy document as that document. *)
Lemma loads_dumps (v : json) : tidy v = true -> loads (dumps v) = inr v.
Proof.
  intros H. unfold loads.
  pose proof (opens_append _ EmptyString (dumps_opens v H)) as (E & _ & _).
  rewrite append_nil_r in E. rewrite E.
  pose proof (proj1 (JsonFacts.scan_fuel (fuel_for (dumps v))) (dumps v))
    as Hf.
  pose proof (proj1 (scan_round_trip (fuel_for (dumps v)))
                v EmptyString H eq_refl) as Hr.
  rewrite append_nil_r in Hr.
  destruct Hr as [Hr|Hr]; rewrite Hr in *.
  - exfalso. apply Hf. unfold fuel_for. lia.
  - reflexivity.
Qed.

Lemma to_N_byte_of_ascii (c : ascii) : Byte.to_N (byte_of_ascii c) = code c.
Proof. destruct c as [[] [] [] [] [] [] [] []]; reflexivity. Qed.

(** The UTF-8 of an ASCII text is the text, byte for byte. *)
Lemma decode_utf8_isascii (s : string) :
  isascii s = true -> decode_utf8 (list_byte_of_string s) = inr s.
Proof.
  intros H. unfold decode_utf8.
  rewrite string_of_list_byte_of_string.
  replace (utf8_valid (map Byte.to_N (list_byte_of_string s))) with true;
    [reflexivity|].
  symmetry. unfold list_byte_of_string.
  induction s as [|c s IH]; [reflexivity|].
  cbn [isascii Base64.isascii] in H. apply andb_prop in H.
  destruct H as [Hc Hs].
  cbn [list_ascii_of_string map utf8_valid].
  rewrite to_N_byte_of_ascii, Hc. exact (IH Hs).
Qed.

Lemma read_document_wire (v : json) :
  tidy v = true -> Consumer.read_document (Wire.wire float_repr v) = inr v.
Proof.
  intros H. unfold Consumer.read_document, Wire.wire.
  rewrite (decode_utf8_isascii _ (dumps_isascii v H)).
  now apply loads_dumps.
Qed.

End RoundTrip.

Lemma encode_audio_isascii (B : list byte) : isascii (encode_audio B) = true.
Proof.
  unfold encode_audio, py_str_list.
  rewrite !isascii_append. change (isascii "[") with true.
  change (isascii "]") with true. rewrite andb_true_r. cbn [andb].
  apply join_isascii. rewrite map_map.
  induction B as [|b B IH]; [reflexivity|].
  cbn [map forallb]. rewrite py_str_int_isascii. exact IH.
Qed.

(** The producer's messages are tidy: no float, no key twice, and ASCII
    texts as long as the talk group's name is. *)
Lemma create_test_message_tidy (message_id : Z) (d : Producer.draws) :
  isascii (Producer.to_name d) = true ->
  tidy (Producer.create_test_message message_id d) = true.
Proof.
  intros H. unfold Producer.create_test_message.
  cbn [tidy forallb fst snd map unique existsb].
  rewrite encode_audio_isascii.
  rewrite !isascii_append, H, py_str_int_isascii.
  reflexivity.
Qed.

End WireFacts.



(** X2. Every message that [create_test_message] builds, the name of the
    talk group being ASCII as the five names of line 64 are, is a document
    that the consumer reads back as it was built, whatever the audio, the
    numbers and the time drawn. *)
Theorem producer_message_read (float_repr : string -> string)
        (message_id : Z) (d : Producer.draws) :
  Base64.isascii (Producer.to_name d) = true ->
  Consumer.read_document
    (Wire.wire float_repr (Producer.create_test_message message_id d))
  = inr (Producer.create_test_message message_id d).
Proof.
  intros H. apply WireFacts.read_document_wire.
  now apply WireFacts.create_test_message_tidy.
Qed.

Lemma producer_message_read_witness :
  Consumer.read_document
    (Wire.wire (fun lit => lit) (Producer.create_test_message 1 some_draws))
  = inr (Producer.create_test_message 1 some_draws).
Proof.
  apply (producer_message_read (fun lit => lit) 1%Z some_draws).
  reflexivity.
Defined.

(** ** From the producer to the consumer *)

Module EndToEnd.
Import Consumer.

(** [message['metadata']] *)
Definition metadata_of (message : json) : json :=
  match py_get message "metadata" (JObj []) with
  | inr m => m
  | inl _ => JNull
  end.

(** The lines of the metadata of a message of the producer. *)
Definition heard (d : Producer.draws) : list effect :=
  Print (LProtocol (JStr "DMR"))
  :: (if (Producer.frequency d =? 0)%Z then []
      else [Print (LFrequency (JInt (Producer.frequency d)))])
  ++ [Print (LTimeslot (JInt (Producer.timeslot d)));
      Print (LFrom (JInt (Producer.from_id d))
                   (JStr ("Unit " ++ py_str_int (Producer.from_unit d))));
      Print (LTo (JInt (Producer.to_id d))
                 (JStr ("TG " ++ Producer.to_name d)));
      Print (LLcn (JInt (Producer.lcn d)))].

(** What becomes of its audio. *)
Definition kept (P : platform) (a : args) (d : Producer.draws) (c : Z)
  : list effect :=
  if save_audio a then
    let filename := {| name_counter := c + 1 + 1;
                       name_stamp := Producer.now_ms d |} in
    if disk_ok P (wavname_text filename) then
      [WriteWav {| wav_name := filename;
                   wav_nchannels := 1;
                   wav_sampwidth := 2;
                   wav_framerate := 8000;
                   wav_frames := Producer.audio_data d |};
       Print (LSaved filename (List.length (Producer.audio_data d)))]
    else [Print (LAudioError OSError)]
  else [].

Lemma render_metadata_producer (P : platform) (message_id : Z)
      (d : Producer.draws) (c : Z) :
  render_metadata P (metadata_of (Producer.create_test_message message_id d)) c
  = Outcome (heard d) c (Returned tt).
Proof.
  unfold heard. destruct (Producer.frequency d =? 0)%Z eqn:E.
  - cbv [metadata_of Producer.create_test_message py_get dict_get
         String.eqb Ascii.eqb Bool.eqb render_metadata render_protocol
         render_frequency render_timeslot render_party render_lcn
         bind lift ret when print perform trace ctr res app
         py_ne_str py_ne_zero truthy negb andb].
    rewrite E. reflexivity.
  - cbv [metadata_of Producer.create_test_message py_get dict_get
         String.eqb Ascii.eqb Bool.eqb render_metadata render_protocol
         render_frequency render_timeslot render_party render_lcn
         bind lift ret when print perform trace ctr res app
         py_ne_str py_ne_zero truthy negb andb].
    rewrite E. reflexivity.
Qed.

Lemma save_block_producer (P : platform) (d : Producer.draws) (c : Z) :
  save_block P (NInt (Producer.now_ms d))
    (JStr (encode_audio (Producer.audio_data d))) c
  = Outcome
      (let filename := {| name_counter := c + 1;
                          name_stamp := Producer.now_ms d |} in
       if disk_ok P (wavname_text filename) then
         [WriteWav {| wav_name := filename;
                      wav_nchannels := 1;
                      wav_sampwidth := 2;
                      wav_framerate := 8000;
                      wav_frames := Producer.audio_data d |};
          Print (LSaved filename (List.length (Producer.audio_data d)))]
       else [Print (LAudioError OSError)])
      (c + 1)%Z (Returned tt).
Proof.
  unfold save_block. rewrite Laws.try_except_unfold.
  rewrite (proj2 (ArrayForm.producer_audio_decodes 0 d)).
  rewrite Laws.bind_lift_inr, Laws.bind_incr_counter, Laws.bind_get_counter.
  cbn [py_int]. rewrite Laws.bind_lift_inr.
  unfold create_wave_file. cbv zeta.
  destruct (disk_ok P _); reflexivity.
Qed.

Lemma truthy_encode_audio (P : platform) (B : list byte) :
  truthy P (JStr (encode_audio B)) = true.
Proof. reflexivity. Qed.

(** One turn of the consumer on a message of the producer. *)
Lemma process_message_producer (P : platform) (a : args)
      (float_repr : string -> string) (message_id : Z) (d : Producer.draws)
      (hms : string) (c : Z) :
  clock P (NInt (Producer.now_ms d)) = inr hms ->
  Base64.isascii (Producer.to_name d) = true ->
  let message := Producer.create_test_message message_id d in
  process_message P a (Wire.wire float_repr message) c
  = Outcome
      (Print (LHeader hms (c + 1))
       :: heard d ++ kept P a d c
       ++ (if verbose a then [Print (LRaw (metadata_of message))] else []))
      (if save_audio a then c + 1 + 1 else c + 1)%Z
      (Returned tt).
Proof.
  intros Hc Ha message.
  assert (Hr : read_document (Wire.wire float_repr message) = inr message).
  { apply WireFacts.read_document_wire.
    now apply WireFacts.create_test_message_tidy. }
  rewrite (Turn.process_message_readable P a _ _ c Hr).
  subst message. unfold Producer.create_test_message at 1 2 3.
  rewrite Turn.process_document_object.
  change (as_number (Turn.field _ "timestamp" (JInt 0)))
    with (Some (NInt (Producer.now_ms d))).
  cbv iota. rewrite Hc.
  change (Turn.field _ "audio" (JStr EmptyString))
    with (JStr (encode_audio (Producer.audio_data d))).
  change (Turn.field _ "metadata" (JObj []))
    with (metadata_of (Producer.create_test_message message_id d)).
  unfold Turn.after_heading.
  rewrite Laws.bind_unfold, render_metadata_producer.
  cbn [res ctr trace]. rewrite truthy_encode_audio. cbn [andb].
  unfold kept.
  destruct (save_audio a); cbn [when].
  - rewrite Laws.bind_unfold, save_block_producer. cbn [res ctr trace].
    destruct (verbose a); cbn [when print perform ret res ctr trace];
      rewrite ?app_nil_r; reflexivity.
  - rewrite Laws.bind_ret.
    destruct (verbose a); cbn [when print perform ret res ctr trace];
      rewrite ?app_nil_r; reflexivity.
Qed.

End EndToEnd.

(** X3. One turn of the consumer on a message of the producer, sent as
    lines 109-111 send it, the time of the message being one that the
    clock can show: the consumer prints the heading with the next number,
    then the protocol, the frequency unless it is 0, the time slot, the
    two parties and the LCN; with [--save-audio] it then writes the audio
    that [generate_test_audio] made, byte for byte, as 8000 Hz mono 16-bit
    under the second next number and says so (or reports that the file
    could not be written); with [--verbose] it ends with the raw metadata.
    Nothing is reported as an error, and the turn returns. *)
Theorem producer_message_rendered (P : platform) (a : Consumer.args)
        (float_repr : string -> string) (message_id : Z)
        (d : Producer.draws) (hms : string) (c : Z) :
  clock P (NInt (Producer.now_ms d)) = inr hms ->
  Base64.isascii (Producer.to_name d) = true ->
  Consumer.process_message P a
    (Wire.wire float_repr (Producer.create_test_message message_id d)) c
  = Outcome
      (Print (LHeader hms (c + 1))
       :: EndToEnd.heard d ++ EndToEnd.kept P a d c
       ++ (if Consumer.verbose a
           then [Print (LRaw (EndToEnd.metadata_of
                                (Producer.create_test_message message_id d)))]
           else []))
      (if Consumer.save_audio a then c + 1 + 1 else c + 1)%Z
      (Returned tt).
Proof. apply EndToEnd.process_message_producer. Qed.

Lemma producer_message_rendered_witness :
  Consumer.process_message plain saving
    (Wire.wire (fun lit => lit) (Producer.create_test_message 1 some_draws))
    0%Z
  = Outcome
      [Print (LHeader "01:02:03" 1);
       Print (LProtocol (JStr "DMR"));
       Print (LFrequency (JInt 462700000));
       Print (LTimeslot (JInt 1));
       Print (LFrom (JInt 12345) (JStr "Unit 7"));
       Print (LTo (JInt 100) (JStr "TG Fire"));
       Print (LLcn (JInt 5));
       WriteWav {| wav_name := {| name_counter := 2; name_stamp := 3723000 |};
                   wav_nchannels := 1;
                   wav_sampwidth := 2;
                   wav_framerate := 8000;
                   wav_frames := [x00; x01] |};
       Print (LSaved {| name_counter := 2; name_stamp := 3723000 |} 2)]
      2%Z (Returned tt).
Proof.
  apply (producer_message_rendered plain saving (fun lit => lit) 1%Z
           some_draws "01:02:03" 0%Z); reflexivity.
Defined.

(** ** What holds of every trace of the consumer *)

Module Always.
Import Consumer.

(** The effects that the saving of audio adds to a turn. *)
Definition is_file (e : effect) : bool :=
  match e with
  | WriteWav _ | Print (LSaved _ _) => true
  | _ => false
  end.

(** The making and the ending of the context and of the socket. *)
Definition is_scope (e : effect) : bool :=
  match e with
  | NewContext | NewSocket | Close | Term => true
  | _ => false
  end.

Section Invariant.

(** A property of traces that the empty trace has and that two traces, one
    after the other, keep. *)
Variable inv : list effect -> Prop.
Hypothesis inv_nil : inv [].
Hypothesis inv_app : forall t1 t2, inv t1 -> inv t2 -> inv (t1 ++ t2).

Definition keeps {A : Type} (m : M A) : Prop := forall c, inv (trace (m c)).

Lemma keeps_ret {A : Type} (a : A) : keeps (ret a).
Proof. intros c. exact inv_nil. Qed.

Lemma keeps_raise {A : Type} (e : pyexn) : keeps (@raise A e).
Proof. intros c. exact inv_nil. Qed.

Lemma keeps_block {A : Type} : keeps (@block A).
Proof. intros c. exact inv_nil. Qed.

Lemma keeps_lift {A : Type} (x : pyexn + A) : keeps (lift x).
Proof. destruct x; [apply keeps_raise|apply keeps_ret]. Qed.

Lemma keeps_lift_sys {A : Type} (x : sys_error + A) : keeps (lift_sys x).
Proof. destruct x; [apply keeps_raise|apply keeps_ret]. Qed.

Lemma keeps_incr_counter : keeps incr_counter.
Proof. intros c. exact inv_nil. Qed.

Lemma keeps_get_counter : keeps get_counter.
Proof. intros c. exact inv_nil. Qed.

Lemma keeps_set_counter (n : Z) : keeps (set_counter n).
Proof. intros c. exact inv_nil. Qed.

Lemma keeps_perform (e : effect) : inv [e] -> keeps (perform e).
Proof. intros H c. exact H. Qed.

Lemma keeps_print (l : line) : inv [Print l] -> keeps (print l).
Proof. intros H c. exact H. Qed.

Lemma keeps_bind {A B : Type} (m : M A) (k : A -> M B) :
  keeps m -> (forall a, keeps (k a)) -> keeps (bind m k).
Proof.
  intros Hm Hk c. rewrite Laws.bind_unfold.
  destruct (res (m c)); cbn [trace]; [|apply Hm..].
  apply inv_app; [apply Hm|apply Hk].
Qed.

Lemma keeps_when (b : bool) (m : M unit) : keeps m -> keeps (when b m).
Proof. destruct b; [auto|intros _; apply keeps_ret]. Qed.

Lemma keeps_try_except {A : Type} (m : M A) (h : pyexn -> M A) :
  keeps m -> (forall e, keeps (h e)) -> keeps (try_except m h).
Proof.
  intros Hm Hh c. rewrite Laws.try_except_unfold.
  destruct (res (m c)); cbn [trace]; [apply Hm| |apply Hm].
  apply inv_app; [apply Hm|apply Hh].
Qed.

Lemma keeps_try_finally {A : Type} (m : M A) (final : M unit) :
  keeps m -> keeps final -> keeps (try_finally m final).
Proof.
  intros Hm Hf c. rewrite Ends.try_finally_unfold.
  destruct (res (m c)); cbn [trace];
    [apply inv_app; [apply Hm|apply Hf]..|apply Hm].
Qed.

Lemma keeps_do_call (x : call) (e : effect) : inv [e] -> keeps (do_call x e).
Proof. destruct x; [apply keeps_perform|intros _; apply keeps_raise]. Qed.


(** The lines of the metadata. *)
Definition is_metadata (l : line) : bool :=
  match l with
  | LProtocol _ | LFrequency _ | LTimeslot _ | LFrom _ _ | LTo _ _
  | LLcn _ => true
  | _ => false
  end.

Section Metadata.

Variable P : platform.
Hypothesis inv_metadata : forall l, is_metadata l = true -> inv [Print l].

Lemma keeps_render_party (label : json -> json -> line) (key : string)
      (metadata : json) :
  (forall v w, is_metadata (label v w) = true) ->
  keeps (render_party P label key metadata).
Proof.
  intros H. unfold render_party. apply keeps_bind; [apply keeps_lift|].
  intros info. destruct (truthy P info); [|apply keeps_ret].
  apply keeps_bind; [apply keeps_lift|intros id].
  apply keeps_bind; [apply keeps_lift|intros alias].
  apply keeps_when, keeps_print, inv_metadata, H.
Qed.

Lemma keeps_render_lcn (metadata : json) : keeps (render_lcn metadata).
Proof.
  unfold render_lcn. apply keeps_bind; [apply keeps_lift|].
  intros lcn.
  destruct lcn; try apply keeps_ret;
    apply keeps_print, inv_metadata; reflexivity.
Qed.

Lemma keeps_render_metadata (metadata : json) :
  keeps (render_metadata P metadata).
Proof.
  unfold render_metadata, render_protocol, render_frequency, render_timeslot.
  repeat lazymatch goal with
         | |- keeps (bind _ _) => apply keeps_bind; [|intro]
         end;
    try apply keeps_lift;
    try (apply keeps_when, keeps_print, inv_metadata; reflexivity).
  - apply keeps_render_party. reflexivity.
  - apply keeps_render_party. reflexivity.
  - apply keeps_render_lcn.
Qed.

End Metadata.

(** Between the making of the socket and its closing, the consumer keeps
    the property when every effect that is neither of the saving of audio
    nor of the socket's scope has it, and the saving of audio keeps it. *)
Section OfTheConsumer.

Variable P : platform.
Hypothesis inv_other :
  forall e, is_file e = false -> is_scope e = false -> inv [e].
Hypothesis inv_save :
  forall stamp audio_b64, keeps (save_block P stamp audio_b64).

Ltac keeps_seq :=
  repeat lazymatch goal with
         | |- keeps (bind _ _) => apply keeps_bind; [|intro]
         | |- keeps (when _ _) => apply keeps_when
         end;
  auto using keeps_ret, keeps_raise, keeps_lift, keeps_lift_sys,
    keeps_incr_counter, keeps_get_counter, keeps_set_counter, keeps_print,
    keeps_perform, keeps_do_call.

Lemma inv_metadata_other (l : line) : is_metadata l = true -> inv [Print l].
Proof.
  intros H. apply inv_other; destruct l; try discriminate H; reflexivity.
Qed.

Lemma keeps_process_document (a : args) (message : json) :
  keeps (process_document P a message).
Proof.
  unfold process_document, fromtimestamp.
  repeat lazymatch goal with
         | |- keeps (bind _ _) => apply keeps_bind; [|intro]
         | |- keeps (when _ _) => apply keeps_when
         | |- keeps (match ?x with _ => _ end) => destruct x
         end;
    auto using keeps_render_metadata, inv_metadata_other; keeps_seq.
Qed.

Lemma keeps_process_message (a : args) (message_bytes : list byte) :
  keeps (process_message P a message_bytes).
Proof.
  unfold process_message. apply keeps_try_except.
  - apply keeps_bind; [apply keeps_lift|intro].
    apply keeps_process_document.
  - intros e. destruct (is_JSONDecodeError e); [keeps_seq|].
    destruct (is_Exception e); keeps_seq.
Qed.

Lemma keeps_receive_loop (a : args) (evs : list event) :
  keeps (receive_loop P a evs).
Proof.
  induction evs as [|ev evs IH]; cbn [receive_loop]; [apply keeps_block|].
  destruct ev.
  - apply keeps_bind; [apply keeps_process_message|intro; exact IH].
  - destruct (verbose a); [apply keeps_raise|exact IH].
  - apply keeps_raise.
  - apply keeps_raise.
Qed.

Lemma keeps_handled (a : args) (w : world) :
  keeps (try_except (session P a w) handler).
Proof.
  apply keeps_try_except.
  - unfold session.
    repeat lazymatch goal with
           | |- keeps (bind _ _) => apply keeps_bind; [|intro]
           end;
      auto using keeps_receive_loop; keeps_seq.
    match goal with x : Empty_set |- _ => destruct x end.
  - intros e. unfold handler.
    destruct (is_KeyboardInterrupt e); [keeps_seq|].
    destruct (is_ZmqAgain e); [keeps_seq|].
    destruct (is_Exception e); keeps_seq.
Qed.

Lemma keeps_main (a : args) (w : world) :
  (forall e, is_scope e = true -> inv [e]) ->
  inv (trace (main P a w)).
Proof.
  intros inv_scope. unfold main.
  assert (H : keeps (perform NewContext;; perform NewSocket;;
                     try_finally (try_except (session P a w) handler)
                                 (perform Close;; perform Term))).
  { apply keeps_bind; [apply keeps_perform; auto|intro].
    apply keeps_bind; [apply keeps_perform; auto|intro].
    apply keeps_try_finally; [apply keeps_handled|].
    apply keeps_bind; [apply keeps_perform; auto|intro].
    apply keeps_perform; auto. }
  apply H.
Qed.

End OfTheConsumer.

End Invariant.

End Always.

(** ** The files of the consumer *)

Module Files.
Import Consumer.

(** A trace in which every file is written as 8000 Hz mono 16-bit and is
    followed at once by the line that says so, with the name of the file
    and the number of its bytes, and in which no other line says so. *)
Inductive paired : list effect -> Prop :=
| paired_nil : paired []
| paired_file (w : wav) (r : list effect) :
    wav_nchannels w = 1%Z -> wav_sampwidth w = 2%Z ->
    wav_framerate w = 8000%Z ->
    paired r ->
    paired (WriteWav w
            :: Print (LSaved (wav_name w) (List.length (wav_frames w))) :: r)
| paired_other (e : effect) (r : list effect) :
    Always.is_file e = false -> paired r -> paired (e :: r).

Lemma paired_app (t1 t2 : list effect) :
  paired t1 -> paired t2 -> paired (t1 ++ t2).
Proof.
  intros H1 H2. induction H1; cbn [app].
  - exact H2.
  - now apply paired_file.
  - now apply paired_other.
Qed.

Lemma paired_one (e : effect) : Always.is_file e = false -> paired [e].
Proof. intros H. apply paired_other; [exact H|apply paired_nil]. Qed.

Lemma paired_save_block (P : platform) (stamp : number) (audio_b64 : json) :
  Always.keeps paired (save_block P stamp audio_b64).
Proof.
  intros c. unfold save_block. rewrite Laws.try_except_unfold.
  destruct (decode_audio audio_b64) as [e|audio_data].
  { rewrite Laws.bind_lift_inl. cbn [res trace ctr].
    destruct (is_Exception e); cbn; [now apply paired_one|apply paired_nil]. }
  rewrite Laws.bind_lift_inr, Laws.bind_incr_counter, Laws.bind_get_counter.
  destruct (py_int P stamp) as [e|ts].
  { rewrite Laws.bind_lift_inl. cbn [res trace ctr].
    destruct (is_Exception e); cbn; [now apply paired_one|apply paired_nil]. }
  rewrite Laws.bind_lift_inr. unfold create_wave_file.
  destruct (disk_ok P _); cbn.
  - apply (paired_file
             {| wav_name := {| name_counter := c + 1; name_stamp := ts |};
                wav_nchannels := 1; wav_sampwidth := 2;
                wav_framerate := 8000; wav_frames := audio_data |});
      auto using paired_nil.
  - now apply paired_one.
Qed.

Lemma paired_main (P : platform) (a : args) (w : world) :
  paired (trace (main P a w)).
Proof.
  apply Always.keeps_main.
  - exact paired_nil.
  - exact paired_app.
  - intros e H _. now apply paired_one.
  - apply paired_save_block.
  - intros e H. apply paired_one. now destruct e.
Qed.

(** What [paired] says of a file, and of a line that says so. *)
Lemma paired_write (t : list effect) :
  paired t ->
  forall t1 w t2,
    t = t1 ++ WriteWav w :: t2 ->
    (wav_nchannels w = 1 /\ wav_sampwidth w = 2 /\ wav_framerate w = 8000)%Z
    /\ exists t3,
        t2 = Print (LSaved (wav_name w) (List.length (wav_frames w))) :: t3.
Proof.
  induction 1 as [|w0 r H1 H2 H3 Hr IH|e r He Hr IH]; intros t1 w t2 E.
  - destruct t1; discriminate E.
  - destruct t1 as [|e1 [|e2 t1]]; cbn [app] in E.
    + inversion E; subst. eauto.
    + inversion E.
    + inversion E; subst. eapply IH. reflexivity.
  - destruct t1 as [|e1 t1]; cbn [app] in E.
    + inversion E; subst. discriminate He.
    + inversion E; subst. eapply IH. reflexivity.
Qed.

Lemma paired_saved (t : list effect) :
  paired t ->
  forall t1 f n t2,
    t = t1 ++ Print (LSaved f n) :: t2 ->
    exists t0 w,
      t1 = t0 ++ [WriteWav w]
      /\ f = wav_name w /\ n = List.length (wav_frames w).
Proof.
  induction 1 as [|w0 r H1 H2 H3 Hr IH|e r He Hr IH]; intros t1 f n t2 E.
  - destruct t1; discriminate E.
  - destruct t1 as [|e1 [|e2 t1]]; cbn [app] in E.
    + inversion E.
    + inversion E; subst. exists [], w0. auto.
    + inversion E; subst.
      destruct (IH _ _ _ _ eq_refl) as (t0 & w & -> & Hf & Hn).
      exists (WriteWav w0
              :: Print (LSaved (wav_name w0) (List.length (wav_frames w0)))
              :: t0), w. auto.
  - destruct t1 as [|e1 t1]; cbn [app] in E.
    + inversion E; subst. discriminate He.
    + inversion E; subst.
      destruct (IH _ _ _ _ eq_refl) as (t0 & w & -> & Hf & Hn).
      exists (e1 :: t0), w. auto.
Qed.

End Files.

(** X4. In every run of the consumer, whatever the messages, every file
    that [create_wave_file] writes is written with one channel, two bytes a
    sample and 8000 frames a second, and is followed at once by the line
    [Audio saved] with the name of that file and the number of its bytes;
    and no line [Audio saved] is printed but after the file it names. *)
Theorem files_announced (P : platform) (a : Consumer.args)
        (w : Consumer.world) :
  (forall t1 f t2,
      trace (Consumer.main P a w) = t1 ++ WriteWav f :: t2 ->
      (wav_nchannels f = 1 /\ wav_sampwidth f = 2 /\ wav_framerate f = 8000)%Z
      /\ exists t3,
          t2 = Print (LSaved (wav_name f) (List.length (wav_frames f))) :: t3)
  /\ (forall t1 name n t2,
        trace (Consumer.main P a w) = t1 ++ Print (LSaved name n) :: t2 ->
        exists t0 f,
          t1 = t0 ++ [WriteWav f]
          /\ name = wav_name f /\ n = List.length (wav_frames f)).
Proof.
  split.
  - intros t1 f t2. apply Files.paired_write, Files.paired_main.
  - intros t1 name n t2. apply Files.paired_saved, Files.paired_main.
Qed.

Lemma files_announced_witness :
  (wav_nchannels
     {| wav_name := {| name_counter := 2; name_stamp := 3723000 |};
        wav_nchannels := 1; wav_sampwidth := 2; wav_framerate := 8000;
        wav_frames := [x00; x01] |} = 1
   /\ wav_sampwidth
        {| wav_name := {| name_counter := 2; name_stamp := 3723000 |};
           wav_nchannels := 1; wav_sampwidth := 2; wav_framerate := 8000;
           wav_frames := [x00; x01] |} = 2
   /\ wav_framerate
        {| wav_name := {| name_counter := 2; name_stamp := 3723000 |};
           wav_nchannels := 1; wav_sampwidth := 2; wav_framerate := 8000;
           wav_frames := [x00; x01] |} = 8000)%Z
  /\ exists t3,
      [Print (LSaved {| name_counter := 2; name_stamp := 3723000 |} 2)]
      = Print (LSaved {| name_counter := 2; name_stamp := 3723000 |} 2) :: t3.
Proof.
  apply (proj1 (files_announced plain saving
                  {| Consumer.connect := Ok;
                     Consumer.setsockopt := Ok;
                     Consumer.events :=
                       [Consumer.Message
                          (Wire.wire (fun lit => lit)
                             (Producer.create_test_message 1 some_draws))] |})
           [NewContext; NewSocket; Connect "tcp://localhost:15023";
            Subscribe; Print (LListening "tcp://localhost:15023");
            Print LWaiting; Print (LHeader "01:02:03" 1);
            Print (LProtocol (JStr "DMR"));
            Print (LFrequency (JInt 462700000));
            Print (LTimeslot (JInt 1));
            Print (LFrom (JInt 12345) (JStr "Unit 7"));
            Print (LTo (JInt 100) (JStr "TG Fire"));
            Print (LLcn (JInt 5))]
           {| wav_name := {| name_counter := 2; name_stamp := 3723000 |};
              wav_nchannels := 1; wav_sampwidth := 2; wav_framerate := 8000;
              wav_frames := [x00; x01] |}
           [Print (LSaved {| name_counter := 2; name_stamp := 3723000 |} 2)]).
  vm_compute. reflexivity.
Defined.

(** ** The names of the files *)

Module Names.
Import Json.

(** The number that a name of a file holds after [dmr_audio_]. *)
Definition counter_of (filename : string) : option N :=
  match strip "dmr_audio_" filename with
  | Some r => Some (digits_value 0 (fst (span_digits r)))
  | None => None
  end.

Lemma span_digits_zeros (k : nat) (s : string) :
  span_digits (zeros k ++ s)
  = ((zeros k ++ fst (span_digits s))%string, snd (span_digits s)).
Proof.
  induction k as [|k IH]; cbn [zeros append span_digits].
  - destruct (span_digits s); reflexivity.
  - change (is_digit "0") with true. cbv iota. rewrite IH. reflexivity.
Qed.

Lemma digits_value_zeros (k : nat) (s : string) :
  digits_value 0 (zeros k ++ s) = digits_value 0 s.
Proof. induction k as [|k IH]; cbn [zeros append digits_value]; auto. Qed.

Lemma span_digits_nat_text (n : N) (rest : string) :
  Decimals.ends_number rest = true ->
  span_digits (Decimals.nat_text n ++ rest) = (Decimals.nat_text n, rest).
Proof.
  intros H. destruct n as [|p].
  - change (Decimals.nat_text 0)
      with (Decimals.uint_text (Decimal.D0 Decimal.Nil)).
    now apply Decimals.span_digits_uint.
  - rewrite Decimals.nat_text_pos. now apply Decimals.span_digits_uint.
Qed.

(** The name of a file holds its counter. *)
Lemma counter_of_wavname_text (f : wavname) :
  (0 <= name_counter f)%Z ->
  counter_of (wavname_text f) = Some (Z.to_N (name_counter f)).
Proof.
  intros H. unfold counter_of, wavname_text.
  change (strip "dmr_audio_" ("dmr_audio_" ++ ?x)) with (Some x).
  cbv iota. f_equal. unfold fmt_04d.
  replace (name_counter f <? 0)%Z with false by (symmetry; lia).
  unfold zfill.
  destruct (Decimals.py_str_int_cases (name_counter f)) as [[_ E]|[L _]];
    [|lia].
  rewrite E, ArrayForm.append_assoc, span_digits_zeros.
  rewrite span_digits_nat_text by reflexivity.
  cbn [fst]. rewrite digits_value_zeros.
  apply Decimals.digits_value_nat_text.
Qed.

Lemma names_distinct (l : list wavname) :
  Sorted.StronglySorted Z.lt (map name_counter l) ->
  Forall (fun n => (0 < n)%Z) (map name_counter l) ->
  NoDup (map wavname_text l).
Proof.
  induction l as [|f l IH]; cbn [map]; intros Hs Hp; [constructor|].
  inversion Hs as [|? ? Hs' Hlt]; subst.
  inversion Hp as [|? ? Hf Hp']; subst.
  constructor; [|now apply IH].
  intros Hin. apply in_map_iff in Hin. destruct Hin as (g & Eg & Hg).
  assert (Hcg : (name_counter f < name_counter g)%Z).
  { rewrite Forall_forall in Hlt. apply Hlt. now apply in_map. }
  assert (E : counter_of (wavname_text g) = counter_of (wavname_text f))
    by now rewrite Eg.
  rewrite !counter_of_wavname_text in E by lia.
  inversion E. lia.
Qed.

Lemma main_names_distinct (P : platform) (a : Consumer.args)
      (w : Consumer.world) :
  NoDup (map wavname_text (Counter.saved (trace (Consumer.main P a w)))).
Proof.
  rewrite Counter.main_saved.
  destruct (Consumer.connect w); [|constructor].
  destruct (Consumer.setsockopt w); [|constructor].
  pose proof (Counter.receive_loop_skipping P a (Consumer.events w) 0%Z) as H.
  apply Counter.skipping_sorted in H. destruct H as [Hs Hp].
  now apply names_distinct.
Qed.

End Names.

(** X5. No two files of one run of the consumer have the same name: the
    texts that the f-string of line 114 makes of the counter and of the
    time of the message are pairwise different, because the counters are,
    and a name holds its counter, in four digits or more. *)
Theorem file_names_distinct (P : platform) (a : Consumer.args)
        (w : Consumer.world) :
  NoDup (map wavname_text (Counter.saved (trace (Consumer.main P a w)))).
Proof. apply Names.main_names_distinct. Qed.

(** ** The numbers of the headings *)

Module Headings.
Import Consumer.

(** The numbers of the headings of a trace, in the order of the trace. *)
Fixpoint headings (t : list effect) : list Z :=
  match t with
  | [] => []
  | Print (LHeader _ n) :: r => n :: headings r
  | _ :: r => headings r
  end.

(** [c + 1], ..., [c + n] *)
Fixpoint run (c : Z) (n : nat) : list Z :=
  match n with
  | O => []
  | S k => (c + 1)%Z :: run (c + 1) k
  end.

Lemma headings_app (t1 t2 : list effect) :
  headings (t1 ++ t2) = headings t1 ++ headings t2.
Proof.
  induction t1 as [|e t1 IH]; [reflexivity|].
  destruct e as [l| | | | | | | | |]; cbn [app headings]; try exact IH.
  destruct l; cbn [headings]; rewrite ?IH; reflexivity.
Qed.

Lemma run_app (c : Z) (n m : nat) :
  run c (n + m) = run c n ++ run (c + Z.of_nat n) m.
Proof.
  revert c. induction n as [|n IH]; intros c.
  - cbn [Nat.add run app Z.of_nat]. now rewrite Z.add_0_r.
  - cbn [Nat.add run app]. rewrite IH. do 3 f_equal. lia.
Qed.

Lemma run_length (c : Z) (n : nat) : List.length (run c n) = n.
Proof. revert c. induction n; intros c; cbn; auto. Qed.

Definition no_heading (t : list effect) : Prop := headings t = [].

Lemma no_heading_app (t1 t2 : list effect) :
  no_heading t1 -> no_heading t2 -> no_heading (t1 ++ t2).
Proof. unfold no_heading. intros H1 H2. now rewrite headings_app, H1, H2. Qed.

Lemma no_heading_metadata (l : line) :
  Always.is_metadata l = true -> no_heading [Print l].
Proof. destruct l; intros H; try discriminate H; reflexivity. Qed.

(** Without [--save-audio], what follows the heading has no heading and
    leaves the counter as it is. *)
Lemma after_heading_plain (P : platform) (a : args)
      (metadata audio_b64 : json) (stamp : number) (c : Z) :
  save_audio a = false ->
  headings (trace (Turn.after_heading P a metadata audio_b64 stamp c)) = []
  /\ ctr (Turn.after_heading P a metadata audio_b64 stamp c) = c.
Proof.
  intros Hs. unfold Turn.after_heading. rewrite Hs, andb_false_r.
  cbn [when]. split.
  - apply (Always.keeps_bind no_heading no_heading_app).
    + apply (Always.keeps_render_metadata no_heading eq_refl no_heading_app).
      exact no_heading_metadata.
    + intros _. apply (Always.keeps_bind no_heading no_heading_app).
      * apply (Always.keeps_ret no_heading eq_refl).
      * intros _. apply (Always.keeps_when no_heading eq_refl).
        apply Always.keeps_print. reflexivity.
  - apply Counter.quiet_bind; [apply Counter.quiet_render_metadata|].
    intros _. apply Counter.quiet_bind; [apply Counter.quiet_ret|].
    intros _. apply Counter.quiet_when, Counter.quiet_print.
Qed.

(** One turn without [--save-audio]: no heading and the counter as it
    was, or the heading with the next number, which the counter then is. *)
Lemma process_message_plain (P : platform) (a : args)
      (message_bytes : list byte) (c : Z) :
  save_audio a = false ->
  let r := process_message P a message_bytes c in
  exists n, headings (trace r) = run c n /\ ctr r = (c + Z.of_nat n)%Z.
Proof.
  intros Hs r. subst r.
  assert (Hnone : forall l,
             (forall hms k, l <> LHeader hms k) ->
             exists n,
               headings (trace (Outcome [Print l] c (Returned tt))) = run c n
               /\ ctr (Outcome [Print l] c (Returned tt)) = (c + Z.of_nat n)%Z).
  { intros l Hl. exists 0%nat. cbn [trace ctr run Z.of_nat]. split; [|lia].
    destruct l; try reflexivity. now contradiction (Hl hms audio_counter). }
  assert (Herr : forall e hms k, Turn.error_line e <> LHeader hms k).
  { intros e hms k. unfold Turn.error_line.
    destruct (is_JSONDecodeError e); discriminate. }
  destruct (read_document message_bytes) as [e|message] eqn:E.
  { rewrite (Turn.process_message_unreadable P a _ e c E).
    apply Hnone, Herr. }
  rewrite (Turn.process_message_readable P a _ _ c E).
  pose proof (Turn.process_document_other P a message c) as Ho.
  destruct message as [|b|z|lit|s|l|kvs];
    try (rewrite Ho; cbn [res trace ctr app]; apply Hnone, Herr).
  rewrite Turn.process_document_object.
  destruct (as_number (Turn.field kvs "timestamp" (JInt 0))) as [x|];
    [|cbn [res trace ctr app]; apply Hnone, Herr].
  destruct (clock P x) as [se|hms];
    [cbn [res trace ctr app]; apply Hnone, Herr|].
  cbv zeta. cbn [res trace ctr].
  destruct (after_heading_plain P a (Turn.field kvs "metadata" (JObj []))
              (Turn.field kvs "audio" (JStr EmptyString)) x (c + 1)%Z Hs)
    as [Hh Hc].
  set (r := Turn.after_heading P a _ _ x (c + 1)%Z) in *.
  exists 1%nat. cbn [run Z.of_nat].
  destruct (res r) as [[]|e|]; cbn [trace ctr headings app];
    rewrite ?headings_app, Hh, Hc; split; try reflexivity.
  cbn [app]. pose proof (Herr e) as He.
  destruct (Turn.error_line e); try reflexivity.
  now contradiction (He hms0 audio_counter).
Qed.

Lemma receive_loop_plain (P : platform) (a : args) (evs : list event) :
  save_audio a = false ->
  forall c,
    let r := receive_loop P a evs c in
    exists n, headings (trace r) = run c n /\ ctr r = (c + Z.of_nat n)%Z.
Proof.
  intros Hs. induction evs as [|ev evs IH]; intros c; cbv zeta.
  - exists 0%nat. cbn. split; [reflexivity|lia].
  - destruct ev.
    + rewrite Turn.receive_loop_message. cbv zeta. cbn [trace ctr].
      destruct (process_message_plain P a message_bytes c Hs)
        as (n & Hn & Hc).
      destruct (IH (ctr (process_message P a message_bytes c)))
        as (m & Hm & Hc').
      exists (n + m)%nat.
      rewrite headings_app, Hn, Hm, Hc', Hc, run_app. split; [reflexivity|lia].
    + cbn [receive_loop]. destruct (verbose a).
      * exists 0%nat. cbn. split; [reflexivity|lia].
      * apply IH.
    + exists 0%nat. cbn. split; [reflexivity|lia].
    + exists 0%nat. cbn. split; [reflexivity|lia].
Qed.

Lemma handler_no_heading (e : pyexn) (c : Z) :
  headings (trace (handler e c)) = [].
Proof.
  unfold handler.
  destruct (is_KeyboardInterrupt e); [reflexivity|].
  destruct (is_ZmqAgain e); [reflexivity|].
  destruct (is_Exception e); reflexivity.
Qed.

(** The headings of a run are those of its loop. *)
Lemma main_headings (P : platform) (a : args) (w : world) :
  headings (trace (main P a w))
  = match connect w, setsockopt w with
    | Ok, Ok => headings (trace (receive_loop P a (events w) 0%Z))
    | _, _ => []
    end.
Proof.
  rewrite Counter.main_unfold. cbv zeta.
  assert (H : headings (trace (try_except (session P a w) handler 0%Z))
              = match connect w, setsockopt w with
                | Ok, Ok => headings (trace (receive_loop P a (events w) 0%Z))
                | _, _ => []
                end).
  { rewrite Laws.try_except_unfold, Counter.session_unfold. cbv zeta.
    destruct (connect w);
      [|cbn [res trace ctr app]; apply handler_no_heading].
    destruct (setsockopt w);
      [|cbn [res trace ctr app headings]; apply handler_no_heading].
    cbn [res trace ctr].
    destruct (res (receive_loop P a (events w) 0%Z)) as [[]|e|];
      cbn [trace headings]; try reflexivity.
    change (Connect (endpoint a) :: Subscribe
            :: Print (LListening (endpoint a)) :: Print LWaiting
            :: trace (receive_loop P a (events w) 0%Z))
      with ([Connect (endpoint a); Subscribe;
             Print (LListening (endpoint a)); Print LWaiting]
            ++ trace (receive_loop P a (events w) 0%Z)).
    rewrite !headings_app, handler_no_heading, app_nil_r. reflexivity. }
  destruct (res (try_except (session P a w) handler 0%Z));
    cbn [trace headings]; rewrite ?headings_app, H; cbn [headings];
    rewrite ?app_nil_r; reflexivity.
Qed.

Lemma main_plain (P : platform) (a : args) (w : world) :
  save_audio a = false ->
  headings (trace (main P a w))
  = run 0 (List.length (headings (trace (main P a w)))).
Proof.
  intros Hs. rewrite main_headings.
  destruct (connect w); [|reflexivity].
  destruct (setsockopt w); [|reflexivity].
  destruct (receive_loop_plain P a (events w) Hs 0%Z) as (n & Hn & _).
  rewrite Hn, run_length. reflexivity.
Qed.

End Headings.

(** X6. Without [--save-audio] the headings of a run of the consumer are
    numbered 1, 2, 3, ... without a gap, whatever the messages are: the
    counter of line 64 is the only one that moves, and a message that
    cannot be shown takes no number. *)
Theorem headings_consecutive (P : platform) (a : Consumer.args)
        (w : Consumer.world) :
  Consumer.save_audio a = false ->
  Headings.headings (trace (Consumer.main P a w))
  = Headings.run 0
      (List.length (Headings.headings (trace (Consumer.main P a w)))).
Proof. apply Headings.main_plain. Qed.

Lemma headings_consecutive_witness :
  Headings.headings
    (trace (Consumer.main plain not_saving
              {| Consumer.connect := Ok;
                 Consumer.setsockopt := Ok;
                 Consumer.events :=
                   [Consumer.Message (bytes_of_string "{}");
                    Consumer.Message (bytes_of_string "{oops");
                    Consumer.Nothing;
                    Consumer.Message
                      (Wire.wire (fun lit => lit)
                         (Producer.create_test_message 1 some_draws));
                    Consumer.Interrupt] |}))
  = [1; 2]%Z.
Proof.
  apply (headings_consecutive plain not_saving
           {| Consumer.connect := Ok;
              Consumer.setsockopt := Ok;
              Consumer.events :=
                [Consumer.Message (bytes_of_string "{}");
                 Consumer.Message (bytes_of_string "{oops");
                 Consumer.Nothing;
                 Consumer.Message
                   (Wire.wire (fun lit => lit)
                      (Producer.create_test_message 1 some_draws));
                 Consumer.Interrupt] |}).
  reflexivity.
Defined.

(** ** The loop of the producer *)

Module Publishing.
Import Producer.

(** Lines 111-127 for one message: it is sent, and the line that says so
    has the count of the messages sent so far. *)
Definition progress (verbose : bool) (c : Z) (message : json) : list effect :=
  [Send message;
   Print (if verbose then PVerbose (c + 1) message else PSent (c + 1))].

(** The same for messages sent one after the other, [c] being the count
    before the first. *)
Fixpoint report (verbose : bool) (c : Z) (messages : list json)
  : list effect :=
  match messages with
  | [] => []
  | m :: r => progress verbose c m ++ report verbose (c + 1) r
  end.

(** The messages made of the draws of turns that follow one another. *)
Fixpoint messages (c : Z) (ticks : list tick) : list json :=
  match ticks with
  | [] => []
  | t :: r => create_test_message (c + 1) (drawn t) :: messages (c + 1) r
  end.

(** A turn in which neither the send nor the sleep raises. *)
Definition calm (t : tick) : bool :=
  match send_string t, slept t with
  | Ok, Ok => true
  | _, _ => false
  end.

Lemma publish_loop_unfold (a : args) (ticks : list tick) (c : Z) :
  publish_loop a ticks c
  = if ((count a >? 0) && (c >=? count a))%Z then Outcome [] c (Returned tt)
    else
      match ticks with
      | [] => Outcome [] c Blocked
      | t :: r =>
          let message := create_test_message (c + 1) (drawn t) in
          match send_string t with
          | Raises e => Outcome [] c (Raised e)
          | Ok =>
              match slept t with
              | Raises e =>
                  Outcome (progress (verbose a) c message) (c + 1)%Z (Raised e)
              | Ok =>
                  let r' := publish_loop a r (c + 1)%Z in
                  Outcome (progress (verbose a) c message ++ trace r')
                          (ctr r') (res r')
              end
          end
      end.
Proof.
  destruct ticks as [|t r]; cbn [publish_loop];
    rewrite Laws.bind_get_counter;
    destruct ((count a >? 0) && (c >=? count a))%Z; try reflexivity.
  cbv zeta. destruct (send_string t); cbn [do_call]; [|reflexivity].
  rewrite Laws.bind_perform, Laws.bind_incr_counter, Laws.bind_get_counter.
  rewrite Laws.bind_print.
  destruct (slept t); cbn [sleep].
  - rewrite Laws.bind_ret. cbn [trace ctr res]. reflexivity.
  - rewrite Laws.bind_raise. reflexivity.
Qed.

Lemma sent_app (t1 t2 : list effect) :
  Wire.sent (t1 ++ t2) = Wire.sent t1 ++ Wire.sent t2.
Proof.
  induction t1 as [|e t1 IH]; [reflexivity|].
  destruct e; cbn [app Wire.sent]; rewrite ?IH; reflexivity.
Qed.

(** Whatever the world does, the trace of the loop is the report of the
    messages it has sent, and its counter has counted them. *)
Lemma publish_loop_report (a : args) (ticks : list tick) :
  forall c,
    let r := publish_loop a ticks c in
    trace r = report (verbose a) c (Wire.sent (trace r))
    /\ ctr r = (c + Z.of_nat (List.length (Wire.sent (trace r))))%Z
    /\ exists n, Wire.sent (trace r) = messages c (firstn n ticks).
Proof.
  induction ticks as [|t ticks IH]; intros c; cbv zeta;
    rewrite publish_loop_unfold;
    destruct ((count a >? 0) && (c >=? count a))%Z;
    try (cbn; repeat split; [lia|exists 0%nat; reflexivity]).
  cbv zeta. destruct (send_string t);
    [|cbn; repeat split; [lia|exists 0%nat; reflexivity]].
  destruct (slept t).
  - destruct (IH (c + 1)%Z) as (Ht & Hc & n & Hn). cbv zeta in *.
    cbn [trace ctr res]. rewrite sent_app.
    change (Wire.sent (progress (verbose a) c
                         (create_test_message (c + 1) (drawn t))))
      with [create_test_message (c + 1) (drawn t)].
    cbn [app report List.length]. rewrite <- Ht, Hc. repeat split.
    + lia.
    + exists (S n). cbn [firstn messages]. now rewrite Hn.
  - cbn [trace ctr progress Wire.sent report app List.length].
    split; [reflexivity|]. split; [lia|]. exists 1%nat. reflexivity.
Qed.

(** With a count and as many calm turns, the loop sends that many
    messages and returns. *)
Lemma publish_loop_count (a : args) (n : nat) :
  forall (ticks : list tick) (c : Z),
    (0 <= c)%Z ->
    (count a = c + Z.of_nat n)%Z ->
    (0 < count a)%Z ->
    n <= List.length ticks ->
    forallb calm (firstn n ticks) = true ->
    publish_loop a ticks c
    = Outcome (report (verbose a) c (messages c (firstn n ticks)))
              (count a) (Returned tt).
Proof.
  induction n as [|n IH]; intros ticks c Hc Hn Hp Hl Hk;
    rewrite publish_loop_unfold.
  - replace ((count a >? 0) && (c >=? count a))%Z with true
      by (symmetry; apply andb_true_intro; split; lia).
    cbn [firstn messages report]. f_equal. lia.
  - replace ((count a >? 0) && (c >=? count a))%Z with false
      by (symmetry; apply andb_false_intro2; lia).
    destruct ticks as [|t ticks]; [cbn in Hl; lia|].
    cbn [firstn forallb] in Hk. apply andb_prop in Hk.
    destruct Hk as [Ht Hk]. unfold calm in Ht.
    destruct (send_string t); [|discriminate].
    destruct (slept t); [|discriminate].
    cbv zeta.
    rewrite (IH ticks (c + 1)%Z) by (cbn in Hl; auto; lia).
    reflexivity.
Qed.

(** Without a count, the loop does not return. *)
Lemma publish_loop_endless (a : args) (ticks : list tick) :
  (count a <= 0)%Z ->
  forall c, res (publish_loop a ticks c) <> Returned tt.
Proof.
  intros Hn. induction ticks as [|t ticks IH]; intros c;
    rewrite publish_loop_unfold;
    replace ((count a >? 0) && (c >=? count a))%Z with false
      by (symmetry; apply andb_false_intro1; lia);
    [discriminate|].
  cbv zeta. destruct (send_string t); [|discriminate].
  destruct (slept t); [|discriminate].
  cbn [res]. apply IH.
Qed.

Lemma producer_session_unfold (a : args) (w : world) (c : Z) :
  let loop := publish_loop a (ticks w) 0%Z in
  let before := [Bind (endpoint a); Print (PStarted (endpoint a));
                 Print PPublishing; Print PPressCtrlC] in
  session a w c
  = match bind_call w, first_sleep w with
    | Raises e, _ => Outcome [] c (Raised e)
    | Ok, Raises e => Outcome before c (Raised e)
    | Ok, Ok => Outcome (before ++ trace loop) (ctr loop) (res loop)
    end.
Proof.
  cbv zeta. unfold session.
  destruct (bind_call w); cbn [do_call]; [|apply Laws.bind_raise].
  rewrite Laws.bind_perform, !Laws.bind_print.
  destruct (first_sleep w); cbn [sleep].
  - rewrite Laws.bind_ret, Laws.bind_set_counter. reflexivity.
  - rewrite Laws.bind_raise. reflexivity.
Qed.

Lemma producer_main_unfold (a : args) (w : world) :
  let s := try_except (session a w) handler unbound in
  main a w
  = match res s with
    | Blocked => Outcome (NewContext :: NewSocket :: trace s) (ctr s) Blocked
    | _ =>
        Outcome (NewContext :: NewSocket
                 :: trace s ++ [Close; Term; Print PStopped])
                (ctr s) (res s)
    end.
Proof.
  cbv zeta. unfold main. rewrite Release.scoped_unfold.
  destruct (res (try_except (session a w) handler unbound));
    reflexivity.
Qed.

(** What comes before the loop. *)
Definition setup (e : effect) : bool :=
  match e with
  | NewContext | NewSocket | Bind _ | Print (PStarted _) | Print PPublishing
  | Print PPressCtrlC => true
  | _ => false
  end.

(** What comes after it, [n] messages having been sent: nothing while the
    producer is blocked; at the end the closing of lines 137-139, after the
    line of the handler if one has run and has printed. *)
Definition wind_up (n : Z) (post : list effect) : Prop :=
  post = []
  \/ post = [Close; Term; Print PStopped]
  \/ (exists e, post = [Print (LError e); Close; Term; Print PStopped])
  \/ post = [Print (PStopping n); Close; Term; Print PStopped].

Lemma handled_shape (a : args) (w : world) :
  let s := try_except (session a w) handler unbound in
  exists pre ms post,
    trace s = pre ++ report (verbose a) 0 ms ++ post
    /\ forallb setup pre = true
    /\ (post = [] \/ (exists e, post = [Print (LError e)])
        \/ post = [Print (PStopping (Z.of_nat (List.length ms)))])
    /\ (post <> [] -> res s = Returned tt).
Proof.
  cbv zeta. rewrite Laws.try_except_unfold, producer_session_unfold.
  cbv zeta.
  assert (Hh : forall pre e,
             forallb setup pre = true ->
             exists pre' ms post,
               pre ++ trace (handler e unbound)
               = pre' ++ report (verbose a) 0 ms ++ post
               /\ forallb setup pre' = true
               /\ (post = [] \/ (exists e, post = [Print (LError e)])
                   \/ post = [Print (PStopping (Z.of_nat (List.length ms)))])
               /\ (post <> [] -> res (handler e unbound) = Returned tt)).
  { intros pre e Hp. exists pre, []. unfold handler.
    destruct (is_KeyboardInterrupt e).
    - exists []. rewrite Laws.bind_get_counter. cbn.
      repeat split; auto; try (intros H; now elim H).
    - destruct (is_Exception e).
      + exists [Print (LError e)]. cbn. repeat split; eauto.
      + exists []. cbn. repeat split; auto; try (intros H; now elim H). }
  destruct (bind_call w).
  2:{ cbn [res trace ctr]. apply (Hh [] e). reflexivity. }
  destruct (first_sleep w).
  2:{ cbn [res trace ctr]. apply (Hh _ e). reflexivity. }
  cbn [res trace ctr].
  destruct (publish_loop_report a (ticks w) 0%Z) as (Ht & Hc & _).
  cbv zeta in Ht, Hc.
  set (loop := publish_loop a (ticks w) 0%Z) in *.
  set (before := [Bind (endpoint a); Print (PStarted (endpoint a));
                  Print PPublishing; Print PPressCtrlC]).
  destruct (res loop) as [[]|e|] eqn:Er.
  - exists before, (Wire.sent (trace loop)), []. cbn [trace res].
    rewrite app_nil_r, <- Ht. repeat split; auto; try (intros H; now elim H).
  - cbn [trace res ctr]. exists before, (Wire.sent (trace loop)).
    unfold handler. destruct (is_KeyboardInterrupt e).
    + rewrite Laws.bind_get_counter.
      replace (ctr loop =? unbound)%Z with false
        by (symmetry; unfold unbound; lia).
      exists [Print (PStopping (ctr loop))]. cbn [print perform trace res].
      rewrite <- app_assoc, <- Ht, Hc. repeat split; auto.
    + destruct (is_Exception e).
      * exists [Print (LError e)]. cbn [print perform trace res].
        rewrite <- app_assoc, <- Ht. repeat split; eauto.
      * exists []. cbn [raise trace res].
        rewrite !app_nil_r, <- Ht. repeat split; auto;
          try (intros H; now elim H).
  - exists before, (Wire.sent (trace loop)), []. cbn [trace res].
    rewrite app_nil_r, <- Ht. repeat split; auto; try (intros H; now elim H).
Qed.

(** The shape of every run of the producer. *)
Lemma main_shape (a : args) (w : world) :
  exists pre ms post,
    trace (main a w) = pre ++ report (verbose a) 0 ms ++ post
    /\ forallb setup pre = true
    /\ wind_up (Z.of_nat (List.length ms)) post.
Proof.
  rewrite producer_main_unfold. cbv zeta.
  destruct (handled_shape a w) as (pre & ms & post & Ht & Hp & Hw & Hr).
  cbv zeta in Ht, Hr.
  set (s := try_except (session a w) handler unbound) in *.
  assert (Hend : exists pre' ms' post',
             NewContext :: NewSocket
             :: trace s ++ [Close; Term; Print PStopped]
             = pre' ++ report (verbose a) 0 ms' ++ post'
             /\ forallb setup pre' = true
             /\ wind_up (Z.of_nat (List.length ms')) post').
  { exists (NewContext :: NewSocket :: pre), ms,
      (post ++ [Close; Term; Print PStopped]).
    rewrite Ht, <- !app_assoc. repeat split; [exact Hp|].
    unfold wind_up.
    destruct Hw as [->|[[e ->]| ->]]; cbn [app]; eauto. }
  destruct (res s) eqn:Er; cbn [trace]; try exact Hend.
  exists (NewContext :: NewSocket :: pre), ms, post.
  rewrite Ht. repeat split; [exact Hp|].
  destruct post as [|e post]; [left; reflexivity|].
  assert (H : @Blocked unit = Returned tt) by (apply Hr; discriminate).
  discriminate H.
Qed.

(** The effects that show the progress of the producer. *)
Definition is_progress (e : effect) : bool :=
  match e with
  | Send _ | Print (PSent _) | Print (PVerbose _ _) => true
  | _ => false
  end.

(** The counts that the producer says it stops after. *)
Fixpoint stops (t : list effect) : list Z :=
  match t with
  | [] => []
  | Print (PStopping n) :: r => n :: stops r
  | _ :: r => stops r
  end.

Lemma stops_app (t1 t2 : list effect) :
  stops (t1 ++ t2) = stops t1 ++ stops t2.
Proof.
  induction t1 as [|e t1 IH]; [reflexivity|].
  destruct e as [l| | | | | | | | |]; cbn [app stops]; try exact IH.
  destruct l; cbn [stops]; rewrite ?IH; reflexivity.
Qed.

Lemma report_facts (verbose : bool) (ms : list json) :
  forall c,
    Wire.sent (report verbose c ms) = ms
    /\ stops (report verbose c ms) = []
    /\ filter is_progress (report verbose c ms) = report verbose c ms.
Proof.
  induction ms as [|m ms IH]; intros c; [repeat split|].
  destruct (IH (c + 1)%Z) as (H1 & H2 & H3).
  cbn [report progress app Wire.sent].
  destruct verbose; cbn [stops filter is_progress];
    rewrite H1, H2, H3; repeat split.
Qed.

Lemma setup_facts (pre : list effect) :
  forallb setup pre = true ->
  Wire.sent pre = [] /\ stops pre = [] /\ filter is_progress pre = [].
Proof.
  induction pre as [|e pre IH]; [repeat split|].
  cbn [forallb]. intros H. apply andb_prop in H. destruct H as [He Hp].
  destruct (IH Hp) as (H1 & H2 & H3).
  destruct e as [l| | | | | | | | |]; try discriminate He;
    cbn [Wire.sent stops filter is_progress]; auto.
  destruct l; try discriminate He; cbn [stops filter is_progress]; auto.
Qed.

Lemma main_facts (a : args) (w : world) :
  let t := trace (main a w) in
  filter is_progress t = report (verbose a) 0 (Wire.sent t)
  /\ (stops t = [] \/ stops t = [Z.of_nat (List.length (Wire.sent t))]).
Proof.
  cbv zeta.
  destruct (main_shape a w) as (pre & ms & post & -> & Hp & Hw).
  destruct (setup_facts pre Hp) as (P1 & P2 & P3).
  destruct (report_facts (verbose a) ms 0%Z) as (R1 & R2 & R3).
  rewrite !sent_app, !stops_app, !filter_app, P1, P2, P3, R1, R2, R3.
  cbn [app].
  destruct Hw as [->|[->|[[e ->]| ->]]];
    cbn [Wire.sent stops filter is_progress]; rewrite !app_nil_r; auto.
Qed.

Lemma main_count (a : args) (w : world) :
  (0 < count a)%Z ->
  bind_call w = Ok ->
  first_sleep w = Ok ->
  Z.to_nat (count a) <= List.length (ticks w) ->
  forallb calm (firstn (Z.to_nat (count a)) (ticks w)) = true ->
  main a w
  = Outcome
      ([NewContext; NewSocket; Bind (endpoint a);
        Print (PStarted (endpoint a)); Print PPublishing; Print PPressCtrlC]
       ++ report (verbose a) 0
            (messages 0 (firstn (Z.to_nat (count a)) (ticks w)))
       ++ [Close; Term; Print PStopped])
      (count a) (Returned tt).
Proof.
  intros Hn Hb Hs Hl Hk.
  rewrite producer_main_unfold. cbv zeta.
  rewrite Laws.try_except_unfold, producer_session_unfold. cbv zeta.
  rewrite Hb, Hs.
  rewrite (publish_loop_count a (Z.to_nat (count a)) (ticks w) 0%Z)
    by (auto; lia).
  cbn [res trace ctr app]. reflexivity.
Qed.

Lemma main_endless (a : args) (w : world) :
  (count a <= 0)%Z ->
  res (main a w) = Returned tt ->
  exists t l,
    trace (main a w) = t ++ [Print l; Close; Term; Print PStopped]
    /\ ((exists n, l = PStopping n) \/ (exists e, l = LError e)).
Proof.
  intros Hn. rewrite producer_main_unfold. cbv zeta.
  rewrite Laws.try_except_unfold, producer_session_unfold. cbv zeta.
  assert (Hh : forall pre e c,
             let h := handler e c in
             res h = Returned tt ->
             exists t l,
               NewContext :: NewSocket
               :: (pre ++ trace h) ++ [Close; Term; Print PStopped]
               = t ++ [Print l; Close; Term; Print PStopped]
               /\ ((exists n, l = PStopping n) \/ (exists e, l = LError e))).
  { intros pre e c. cbv zeta. unfold handler.
    destruct (is_KeyboardInterrupt e).
    - rewrite Laws.bind_get_counter.
      destruct (c =? unbound)%Z; [discriminate|]. intros _.
      exists (NewContext :: NewSocket :: pre), (PStopping c).
      cbn [print perform trace]. rewrite <- !app_assoc. eauto.
    - destruct (is_Exception e); [|discriminate]. intros _.
      exists (NewContext :: NewSocket :: pre), (LError e).
      cbn [print perform trace]. rewrite <- !app_assoc. eauto. }
  destruct (bind_call w).
  2:{ cbn [res trace ctr].
      destruct (res (handler e unbound)) as [[]|e'|] eqn:E;
        cbn [res trace]; try discriminate.
      intros _. apply (Hh [] e unbound). exact E. }
  destruct (first_sleep w).
  2:{ cbn [res trace ctr].
      destruct (res (handler e unbound)) as [[]|e'|] eqn:E;
        cbn [res trace]; try discriminate.
      intros _. apply (Hh _ e unbound). exact E. }
  cbn [res trace ctr].
  pose proof (publish_loop_endless a (ticks w) Hn 0%Z) as He.
  set (loop := publish_loop a (ticks w) 0%Z) in *.
  destruct (res loop) as [[]|e|] eqn:Er; cbn [res trace ctr].
  - now elim He.
  - destruct (res (handler e (ctr loop))) as [[]|e'|] eqn:E;
      cbn [res trace]; try discriminate.
    intros _. apply (Hh _ e (ctr loop)). exact E.
  - discriminate.
Qed.

(** Ctrl+C before line 100 has given [message_count] a value. *)
Lemma main_early (a : args) (w : world) :
  bind_call w = Raises KeyboardInterrupt
  \/ (bind_call w = Ok /\ first_sleep w = Raises KeyboardInterrupt) ->
  main a w
  = Outcome
      ([NewContext; NewSocket]
       ++ match bind_call w with
          | Ok => [Bind (endpoint a); Print (PStarted (endpoint a));
                   Print PPublishing; Print PPressCtrlC]
          | Raises _ => []
          end
       ++ [Close; Term; Print PStopped])
      unbound (Raised UnboundLocalError).
Proof.
  intros H. rewrite producer_main_unfold. cbv zeta.
  rewrite Laws.try_except_unfold, producer_session_unfold. cbv zeta.
  destruct H as [->|[-> ->]]; reflexivity.
Qed.

End Publishing.

(** X7. Started with [--count n], n positive, the producer whose socket
    binds and whose sends and sleeps all go through sends exactly n
    messages, each followed by its line with the numbers 1 to n, then
    leaves the loop at line 105, closes the socket, ends the context,
    prints that it has stopped and returns, [message_count] being n. *)
Theorem producer_counts (a : Producer.args) (w : Producer.world) :
  (0 < Producer.count a)%Z ->
  Producer.bind_call w = Ok ->
  Producer.first_sleep w = Ok ->
  Z.to_nat (Producer.count a) <= List.length (Producer.ticks w) ->
  forallb Publishing.calm
    (firstn (Z.to_nat (Producer.count a)) (Producer.ticks w)) = true ->
  Producer.main a w
  = Outcome
      ([NewContext; NewSocket; Bind (Producer.endpoint a);
        Print (PStarted (Producer.endpoint a)); Print PPublishing;
        Print PPressCtrlC]
       ++ Publishing.report (Producer.verbose a) 0
            (Publishing.messages 0
               (firstn (Z.to_nat (Producer.count a)) (Producer.ticks w)))
       ++ [Close; Term; Print PStopped])
      (Producer.count a) (Returned tt).
Proof. apply Publishing.main_count. Qed.

Lemma producer_counts_witness :
  Producer.main
    {| Producer.endpoint := "tcp://*:15023"; Producer.count := 2;
       Producer.verbose := false |}
    {| Producer.bind_call := Ok;
       Producer.first_sleep := Ok;
       Producer.ticks := [some_tick Ok Ok; some_tick Ok Ok;
                          some_tick (Raises ZMQError) Ok] |}
  = Outcome
      [NewContext; NewSocket; Bind "tcp://*:15023";
       Print (PStarted "tcp://*:15023"); Print PPublishing;
       Print PPressCtrlC;
       Send (Producer.create_test_message 1 some_draws); Print (PSent 1);
       Send (Producer.create_test_message 2 some_draws); Print (PSent 2);
       Close; Term; Print PStopped]
      2%Z (Returned tt).
Proof.
  apply (producer_counts
           {| Producer.endpoint := "tcp://*:15023"; Producer.count := 2;
              Producer.verbose := false |}
           {| Producer.bind_call := Ok;
              Producer.first_sleep := Ok;
              Producer.ticks := [some_tick Ok Ok; some_tick Ok Ok;
                                 some_tick (Raises ZMQError) Ok] |});
    [reflexivity|reflexivity|reflexivity|vm_compute; lia|reflexivity].
Defined.

(** X8. Started with [--count 0], or with a negative count, the producer
    never leaves its loop at line 105: a run that returns has ended in one
    of the two handlers of lines 132-135, and its last lines are that of
    the handler, [Stopping after ...] or [Error: ...], and that of line
    139, around the closing of the socket and of the context. *)
Theorem producer_endless (a : Producer.args) (w : Producer.world) :
  (Producer.count a <= 0)%Z ->
  res (Producer.main a w) = Returned tt ->
  exists t l,
    trace (Producer.main a w) = t ++ [Print l; Close; Term; Print PStopped]
    /\ ((exists n, l = PStopping n) \/ (exists e, l = LError e)).
Proof. apply Publishing.main_endless. Qed.

Lemma producer_endless_witness :
  exists t l,
    trace (Producer.main
             {| Producer.endpoint := "tcp://*:15023"; Producer.count := 0;
                Producer.verbose := false |}
             {| Producer.bind_call := Ok;
                Producer.first_sleep := Ok;
                Producer.ticks :=
                  [some_tick Ok Ok;
                   some_tick Ok (Raises KeyboardInterrupt)] |})
    = t ++ [Print l; Close; Term; Print PStopped]
    /\ ((exists n, l = PStopping n) \/ (exists e, l = LError e)).
Proof.
  apply (producer_endless
           {| Producer.endpoint := "tcp://*:15023"; Producer.count := 0;
              Producer.verbose := false |}
           {| Producer.bind_call := Ok;
              Producer.first_sleep := Ok;
              Producer.ticks :=
                [some_tick Ok Ok;
                 some_tick Ok (Raises KeyboardInterrupt)] |});
    [vm_compute; discriminate|reflexivity].
Defined.

(** X9. In every run of the producer, whatever raises and wherever, the
    messages sent and the lines of lines 114-127 alternate: the i-th
    message sent is followed at once by the line with the number i, and
    there is no such line without its message. And the line of line 133,
    [Stopping after n messages...], is printed at most once, n being the
    number of the messages that the run has sent. *)
Theorem producer_progress (a : Producer.args) (w : Producer.world) :
  filter Publishing.is_progress (trace (Producer.main a w))
  = Publishing.report (Producer.verbose a) 0
      (Wire.sent (trace (Producer.main a w)))
  /\ (Publishing.stops (trace (Producer.main a w)) = []
      \/ Publishing.stops (trace (Producer.main a w))
         = [Z.of_nat (List.length (Wire.sent (trace (Producer.main a w))))]).
Proof. apply Publishing.main_facts. Qed.

(** X10. Ctrl+C while the producer binds its socket, or in the sleep of
    line 98, reaches the handler of line 132 before line 100 has given
    [message_count] a value: the f-string of line 133 raises
    [UnboundLocalError], no [Stopping after ...] is printed, the socket is
    closed, the context ended and line 139 printed, and the exception
    leaves [main]. *)
Theorem producer_early_interrupt (a : Producer.args) (w : Producer.world) :
  Producer.bind_call w = Raises KeyboardInterrupt
  \/ (Producer.bind_call w = Ok
      /\ Producer.first_sleep w = Raises KeyboardInterrupt) ->
  Producer.main a w
  = Outcome
      ([NewContext; NewSocket]
       ++ match Producer.bind_call w with
          | Ok => [Bind (Producer.endpoint a);
                   Print (PStarted (Producer.endpoint a));
                   Print PPublishing; Print PPressCtrlC]
          | Raises _ => []
          end
       ++ [Close; Term; Print PStopped])
      Producer.unbound (Raised UnboundLocalError).
Proof. apply Publishing.main_early. Qed.

Lemma producer_early_interrupt_witness :
  Producer.main one_message
    {| Producer.bind_call := Ok;
       Producer.first_sleep := Raises KeyboardInterrupt;
       Producer.ticks := [some_tick Ok Ok] |}
  = Outcome
      [NewContext; NewSocket; Bind "tcp://*:15023";
       Print (PStarted "tcp://*:15023"); Print PPublishing;
       Print PPressCtrlC; Close; Term; Print PStopped]
      Producer.unbound (Raised UnboundLocalError).
Proof.
  apply (producer_early_interrupt one_message
           {| Producer.bind_call := Ok;
              Producer.first_sleep := Raises KeyboardInterrupt;
              Producer.ticks := [some_tick Ok Ok] |}).
  right. split; reflexivity.
Defined.

(** ** The context and the socket *)

Module Scope.












End Scope.


(** ** How a run of the consumer ends *)

Module Endings.
Import Consumer.

(** The exception that an event raises in the receive of line 50, if it
    raises one: [noblock] is [args.verbose]. *)
Definition raised_by (noblock : bool) (ev : event) : option pyexn :=
  match ev with
  | Message _ => None
  | Nothing => if noblock then Some ZmqAgain else None
  | Interrupt => Some KeyboardInterrupt
  | TransportError => Some ZMQError
  end.

(** The line of the handler of lines 129-134 that takes it. *)
Definition last_line (e : pyexn) : line :=
  if is_KeyboardInterrupt e then LShutdown
  else if is_ZmqAgain e then LNoMessages
  else LError e.

Lemma receive_loop_ends (P : platform) (a : args)
      (pre : list event) (ev : event) (rest : list event) (e : pyexn) :
  forallb (Ends.goes_on (verbose a)) pre = true ->
  raised_by (verbose a) ev = Some e ->
  forall c,
    receive_loop P a (pre ++ ev :: rest) c
    = Outcome (trace (receive_loop P a pre c))
              (ctr (receive_loop P a pre c)) (Raised e).
Proof.
  intros Hp He. induction pre as [|ev0 pre IH]; intros c.
  - cbn [app]. destruct ev; cbn [raised_by receive_loop] in *.
    + discriminate He.
    + destruct (verbose a); inversion He. reflexivity.
    + inversion He. reflexivity.
    + inversion He. reflexivity.
  - cbn [forallb] in Hp. apply andb_prop in Hp. destruct Hp as [H0 Hp].
    specialize (IH Hp). cbn [app].
    destruct ev0 as [b| | |]; try discriminate H0.
    + rewrite !Turn.receive_loop_message. cbv zeta.
      rewrite IH. reflexivity.
    + cbn [Ends.goes_on] in H0. cbn [receive_loop].
      destruct (verbose a); [discriminate H0|]. apply IH.
Qed.

Lemma main_ends (P : platform) (a : args)
      (pre : list event) (ev : event) (rest : list event) (e : pyexn) :
  forallb (Ends.goes_on (verbose a)) pre = true ->
  raised_by (verbose a) ev = Some e ->
  let loop := receive_loop P a pre 0%Z in
  main P a {| connect := Ok; setsockopt := Ok;
              events := pre ++ ev :: rest |}
  = Outcome ([NewContext; NewSocket; Connect (endpoint a); Subscribe;
              Print (LListening (endpoint a)); Print LWaiting]
             ++ trace loop ++ [Print (last_line e); Close; Term])
            (ctr loop) (Returned tt).
Proof.
  intros Hp He loop.
  rewrite Ends.consumer_main_unfold by reflexivity. cbv zeta.
  cbn [events]. rewrite (receive_loop_ends P a pre ev rest e Hp He).
  cbn [res trace ctr]. reflexivity.
Qed.

(** What is wrong with the time of a document, if anything. *)
Definition stamp_error (P : platform) (doc : list (string * json))
  : option pyexn :=
  match as_number (Turn.field doc "timestamp" (JInt 0)) with
  | None => Some TypeError
  | Some x =>
      match clock P x with
      | inl se => Some (raise_sys se)
      | inr _ => None
      end
  end.

Lemma process_message_stamp_error (P : platform) (a : args)
      (message_bytes : list byte) (doc : list (string * json)) (e : pyexn)
      (c : Z) :
  read_document message_bytes = inr (JObj doc) ->
  stamp_error P doc = Some e ->
  process_message P a message_bytes c
  = Outcome [Print (LProcessError e)] c (Returned tt).
Proof.
  intros Hr He. rewrite (Turn.process_message_readable P a _ _ c Hr).
  rewrite Turn.process_document_object. unfold stamp_error in He.
  destruct (as_number (Turn.field doc "timestamp" (JInt 0))) as [x|].
  - destruct (clock P x) as [se|hms]; [|discriminate He].
    inversion He. destruct se; reflexivity.
  - inversion He. reflexivity.
Qed.

(** [v] has no method [get]. *)
Definition not_record (v : json) : bool :=
  match v with
  | JObj _ => false
  | _ => true
  end.

Lemma process_message_not_record (P : platform) (a : args)
      (message_bytes : list byte) (doc : list (string * json))
      (x : number) (hms : string) (c : Z) :
  read_document message_bytes = inr (JObj doc) ->
  as_number (Turn.field doc "timestamp" (JInt 0)) = Some x ->
  clock P x = inr hms ->
  not_record (Turn.field doc "metadata" (JObj [])) = true ->
  process_message P a message_bytes c
  = Outcome [Print (LHeader hms (c + 1)); Print (LProcessError AttributeError)]
            (c + 1)%Z (Returned tt).
Proof.
  intros Hr Hx Hc Hm. rewrite (Turn.process_message_readable P a _ _ c Hr).
  rewrite Turn.process_document_object, Hx, Hc. cbv zeta.
  unfold Turn.after_heading, render_metadata, render_protocol.
  destruct (Turn.field doc "metadata" (JObj [])); try discriminate Hm;
    reflexivity.
Qed.

End Endings.

(** X12. How a run of the consumer ends, once connected and subscribed:
    the first receive that raises decides it, Ctrl+C, a failure of the
    transport or, with [--verbose], a poll that finds nothing. Everything
    received before it has had its turn, nothing that the socket has after
    it is looked at, the handler of lines 129-134 prints its line
    ([Shutting down...], [No messages available] or [Error: ...]), the
    socket is closed, the context ended, and [main] returns. *)
Theorem consumer_ending (P : platform) (a : Consumer.args)
        (pre : list Consumer.event) (ev : Consumer.event)
        (rest : list Consumer.event) (e : pyexn) :
  forallb (Ends.goes_on (Consumer.verbose a)) pre = true ->
  Endings.raised_by (Consumer.verbose a) ev = Some e ->
  Consumer.main P a
    {| Consumer.connect := Ok; Consumer.setsockopt := Ok;
       Consumer.events := pre ++ ev :: rest |}
  = Outcome ([NewContext; NewSocket; Connect (Consumer.endpoint a);
              Subscribe; Print (LListening (Consumer.endpoint a));
              Print LWaiting]
             ++ trace (Consumer.receive_loop P a pre 0%Z)
             ++ [Print (Endings.last_line e); Close; Term])
            (ctr (Consumer.receive_loop P a pre 0%Z)) (Returned tt).
Proof. apply Endings.main_ends. Qed.

Lemma consumer_ending_witness :
  Consumer.main plain saving
    {| Consumer.connect := Ok; Consumer.setsockopt := Ok;
       Consumer.events :=
         [Consumer.Message (bytes_of_string "{}"); Consumer.Nothing]
         ++ Consumer.TransportError
         :: [Consumer.Message (bytes_of_string "{}"); Consumer.Interrupt] |}
  = Outcome [NewContext; NewSocket; Connect "tcp://localhost:15023";
             Subscribe; Print (LListening "tcp://localhost:15023");
             Print LWaiting; Print (LHeader "00:00:00" 1);
             Print (LError ZMQError); Close; Term]
            1%Z (Returned tt).
Proof.
  apply (consumer_ending plain saving
           [Consumer.Message (bytes_of_string "{}"); Consumer.Nothing]
           Consumer.TransportError
           [Consumer.Message (bytes_of_string "{}"); Consumer.Interrupt]
           ZMQError); reflexivity.
Defined.

(** X13. A document whose [timestamp] is no number (a text, [null], a
    list, a record), or is a number that [datetime.fromtimestamp] refuses,
    is reported by the handler of line 126 with the exception of line 62;
    it gets no heading, the counter stays as it was, and nothing of its
    metadata or of its audio is looked at. *)
Theorem timestamp_refused (P : platform) (a : Consumer.args)
        (message_bytes : list byte) (doc : list (string * json)) (e : pyexn)
        (c : Z) :
  Consumer.read_document message_bytes = inr (JObj doc) ->
  Endings.stamp_error P doc = Some e ->
  Consumer.process_message P a message_bytes c
  = Outcome [Print (LProcessError e)] c (Returned tt).
Proof. apply Endings.process_message_stamp_error. Qed.

Lemma timestamp_refused_witness :
  Consumer.process_message plain saving
    (bytes_of_string (dq "{'timestamp': '12:00', 'audio': 'AAE='}")) 7%Z
  = Outcome [Print (LProcessError TypeError)] 7%Z (Returned tt).
Proof.
  apply (timestamp_refused plain saving
           (bytes_of_string (dq "{'timestamp': '12:00', 'audio': 'AAE='}"))
           [("timestamp", JStr "12:00"); ("audio", JStr "AAE=")]
           TypeError 7%Z); reflexivity.
Defined.

(** X14. A document whose [metadata] is present but is no record,
    [null] for one, is not treated as one without metadata: line 64 has
    counted it and line 65 has printed its heading when line 67 raises
    [AttributeError], which the handler of line 126 reports; no line of
    metadata is printed and, even with [--save-audio], its audio is not
    saved. *)
Theorem metadata_not_record (P : platform) (a : Consumer.args)
        (message_bytes : list byte) (doc : list (string * json))
        (x : number) (hms : string) (c : Z) :
  Consumer.read_document message_bytes = inr (JObj doc) ->
  as_number (Turn.field doc "timestamp" (JInt 0)) = Some x ->
  clock P x = inr hms ->
  Endings.not_record (Turn.field doc "metadata" (JObj [])) = true ->
  Consumer.process_message P a message_bytes c
  = Outcome [Print (LHeader hms (c + 1));
             Print (LProcessError AttributeError)]
            (c + 1)%Z (Returned tt).
Proof. apply Endings.process_message_not_record. Qed.

Lemma metadata_not_record_witness :
  Consumer.process_message plain saving
    (bytes_of_string (dq "{'metadata': null, 'audio': 'AAE='}")) 7%Z
  = Outcome [Print (LHeader "00:00:00" 8);
             Print (LProcessError AttributeError)]
            8%Z (Returned tt).
Proof.
  apply (metadata_not_record plain saving
           (bytes_of_string (dq "{'metadata': null, 'audio': 'AAE='}"))
           [("metadata", JNull); ("audio", JStr "AAE=")]
           (NInt 0) "00:00:00" 7%Z); reflexivity.
Defined.

(** ** The two parties of a call *)

Module Parties.
Import Consumer.









End Parties.


